(** * MapBiomas country mosaics: cloud/shadow masking, spectral unmixing,
      fraction indices and percentile compositing.

    A shallow embedding of the per-tile raster pipeline of the repository
    (modules/CloudAndShadowMaskC2.py, modules/SmaAndNdfi.py, modules/Mosaic.py,
    modules/Collection.py and the driver script
    countries/mapbiomas_mosaics_collection_9_landsat_v1.py).

    The Python code builds Earth Engine expressions.  Module [EE] below states
    the meaning of the Earth Engine operators the code calls, following the
    Earth Engine reference documentation; everything after it is a line by
    line transcription of the repository's functions on top of those
    operators.

    Numbers.  Earth Engine computes on IEEE doubles; here pixel values are
    exact rationals ([Q]), so rounding error of the floating-point unit is
    outside the model.  Integer casts, saturation, masking and comparisons
    are modelled exactly. *)

From Stdlib Require Import ZArith QArith Qround Qminmax.
From Stdlib Require Import List Bool String Lia Lra Psatz.
From Stdlib Require Import Reals Qreals.
From Stdlib Require Import DecimalString.
Import ListNotations.

Local Open Scope Q_scope.

(* ------------------------------------------------------------------------ *)
(** ** Earth Engine operators *)
(* ------------------------------------------------------------------------ *)

Module EE.

(** A pixel of a band is either masked ([None]) or carries a value. *)
Definition Px := option Q.

(** Truncation toward zero, the float-to-integer conversion of the casts. *)
Definition Qtrunc (q : Q) : Z :=
  if Qle_bool 0 q then Qfloor q else Qceiling q.

(** [ee.Image.byte()] / [byte(...)] inside an expression: cast to an
    unsigned 8-bit integer.  The fractional part is dropped and values
    outside the range become the nearest end of [0, 255]. *)
Definition byte (q : Q) : Z := Z.max 0 (Z.min 255 (Qtrunc q)).

(** [ee.Image.divide]: "returning 0 for division by 0".  Rocq's division on
    [Q] has the same convention ([/ 0 == 0]). *)
Definition divide (a b : Q) : Q := a / b.

(** [ee.Image.normalizedDifference]: [(first - second) / (first + second)];
    "a negative pixel value in either input band will cause the output
    pixel to be masked".  A zero denominator follows [divide]. *)
Definition normalizedDifference (a b : Q) : Px :=
  if negb (Qle_bool 0 a) || negb (Qle_bool 0 b) then None
  else Some (divide (a - b) (a + b)).

(** Comparison operators return 1 or 0. *)
Definition lt (a b : Q) : bool := negb (Qle_bool b a).
Definition lte (a b : Q) : bool := Qle_bool a b.
Definition gte (a b : Q) : bool := Qle_bool b a.

(** Pointwise lifting of a unary / binary operator to masked pixels: the
    result is masked as soon as one input is. *)
Definition lift1 {A B} (f : A -> B) (a : option A) : option B :=
  match a with Some x => Some (f x) | None => None end.
Definition lift2 {A B C} (f : A -> B -> C) (a : option A) (b : option B)
  : option C :=
  match a, b with Some x, Some y => Some (f x y) | _, _ => None end.

End EE.

(* ------------------------------------------------------------------------ *)
(** ** Scenes seen at one pixel *)
(* ------------------------------------------------------------------------ *)

(** The six optical bands of one pixel under their standardized names
    (blue, green, red, nir, swir1, swir2), reflectance x 10000. *)
Record Reflectance := mkReflectance {
  blue : Q; green : Q; red : Q; nir : Q; swir1 : Q; swir2 : Q }.

(** A band over the pixel grid; [None] is a masked pixel. *)
Definition Raster (A : Type) : Type := Z * Z -> option A.

(* ------------------------------------------------------------------------ *)
(** ** modules/SmaAndNdfi.py *)
(* ------------------------------------------------------------------------ *)

Module SmaAndNdfi.
Import EE.

Definition spectrum (p : Reflectance) : list Q :=
  [blue p; green p; red p; nir p; swir1 p; swir2 p].

(** ENDMEMBERS['landsat-4'] ... ENDMEMBERS['landsat-9'] and the Sentinel-2
    entries all carry this same table (rows gv, npv, soil, cloud). *)
Definition ENDMEMBERS_landsat : list (list Q) :=
  [ [119; 475; 169; 6250; 2399; 675];
    [1514; 1597; 1421; 3053; 7707; 1975];
    [1799; 2479; 3158; 5437; 7707; 6646];
    [4031; 8714; 7900; 8989; 7002; 6607] ].

(** *** Linear unmixing ([ee.Image.unmix], default arguments)

    "Unmix each pixel with the given endmembers, by computing the
    pseudoinverse and multiplying it through each pixel."  For endmember
    rows that are linearly independent this is the solution [x] of the
    normal equations [(E E^T) x = E p], computed here by Cramer's rule.
    A singular Gram matrix is outside the model ([None]). *)

Definition dot (u v : list Q) : Q :=
  fold_right Qplus 0 (map (fun uv => fst uv * snd uv) (combine u v)).

Definition gram (E : list (list Q)) : list (list Q) :=
  map (fun r => map (dot r) E) E.

Definition project (E : list (list Q)) (p : list Q) : list Q :=
  map (fun r => dot r p) E.

Fixpoint drop_nth {A} (j : nat) (l : list A) : list A :=
  match l, j with
  | [], _ => []
  | _ :: t, O => t
  | h :: t, S j' => h :: drop_nth j' t
  end.

(** Laplace expansion along the first row; [n] is the matrix size. *)
Fixpoint det (n : nat) (M : list (list Q)) : Q :=
  match n, M with
  | S n', row :: rest =>
      let term (jx : nat * Q) : Q :=
        let (j, x) := jx in
        (if Nat.even j then x else - x) * det n' (map (drop_nth j) rest) in
      fold_right Qplus 0 (map term (combine (seq 0 (List.length row)) row))
  | _, _ => 1
  end.

Fixpoint set_nth {A} (j : nat) (x : A) (l : list A) : list A :=
  match l, j with
  | [], _ => []
  | _ :: t, O => x :: t
  | h :: t, S j' => h :: set_nth j' x t
  end.

Definition replace_column (j : nat) (c : list Q) (M : list (list Q)) :=
  map (fun rc => set_nth j (snd rc) (fst rc)) (combine M c).

Definition unmix (endmembers : list (list Q)) (p : list Q) : option (list Q) :=
  let G := gram endmembers in
  let b := project endmembers p in
  let n := List.length endmembers in
  let d := det n G in
  if Qeq_bool d 0 then None
  else Some (map (fun j => det n (replace_column j b G) / d) (seq 0 n)).

(** *** getFractions *)

Record Fractions := mkFractions {
  gv : Z; npv : Z; soil : Z; cloud : Z; shade : Z }.

Definition getFractions (image : Reflectance) (endmembers : list (list Q))
  : option Fractions :=
  (* .unmix(endmembers).max(0).multiply(100).byte() *)
  match unmix endmembers (spectrum image) with
  | Some [x_gv; x_npv; x_soil; x_cloud] =>
      let frac x := byte (Qmax x 0 * 100) in
      let gv := frac x_gv in
      let npv := frac x_npv in
      let soil := frac x_soil in
      let cloud := frac x_cloud in
      (* summed = b("gv") + b("npv") + b("soil") *)
      let summed := (gv + npv + soil)%Z in
      (* shade = summed.subtract(100).abs().byte() *)
      let shade := byte (inject_Z (Z.abs (summed - 100))) in
      Some (mkFractions gv npv soil cloud shade)
  | _ => None
  end.

(** *** Fraction indices.  Each function adds its band(s) to the image; the
    embedding returns the added band values of the pixel. *)

(** 'byte(b("x") * 100 + 100)' *)
Definition rescale200 (x : Q) : Z := byte (x * 100 + 100).

Definition summed_of (f : Fractions) : Z := (gv f + npv f + soil f)%Z.

Definition gvs_of (f : Fractions) : Z :=
  (* gv.divide(summed).multiply(100).byte() *)
  byte (divide (inject_Z (gv f)) (inject_Z (summed_of f)) * 100).

Definition getNDFI (f : Fractions) : option Z :=
  let gvs := gvs_of f in
  let npvSoil := (npv f + soil f)%Z in
  lift1 rescale200 (normalizedDifference (inject_Z gvs) (inject_Z npvSoil)).





End SmaAndNdfi.

(* ------------------------------------------------------------------------ *)
(** ** modules/CloudAndShadowMaskC2.py *)
(* ------------------------------------------------------------------------ *)

Module CloudAndShadowMaskC2.
Import EE.

(** An image as the masking functions see it: the six standardized
    reflectance bands, the QA band, the mask bands added so far (by name,
    in the order they were added) and the properties the functions read.
    A property that is null is [None]. *)
Record Image := mkImage {
  optical : Raster Reflectance;
  pixel_qa : Raster Z;
  mask_bands : list (string * Raster Z);
  satellite_name : string;
  reflectance : string;
  sun_azimuth_angle : option R;
  sun_elevation_angle : option R;
  nominalScale : R }.

(** image.addBands(band.rename(name)) *)
Definition addBands (image : Image) (name : string) (band : Raster Z) : Image :=
  mkImage (optical image) (pixel_qa image)
          (mask_bands image ++ [(name, band)])
          (satellite_name image) (reflectance image)
          (sun_azimuth_angle image) (sun_elevation_angle image)
          (nominalScale image).

(** image.select([name]); selecting a band the image lacks is an error. *)
Fixpoint lookup (name : string) (bands : list (string * Raster Z))
  : option (Raster Z) :=
  match bands with
  | [] => None
  | (n, b) :: rest => if String.eqb n name then Some b else lookup name rest
  end.

Definition select (image : Image) (name : string) : option (Raster Z) :=
  lookup name (mask_bands image).

Definition b2z (b : bool) : Z := if b then 1%Z else 0%Z.

(** Logical operators on mask values: non-zero is true. *)
Definition Not (a : Z) : Z := b2z (a =? 0)%Z.
Definition And (a b : Z) : Z := b2z (negb (a =? 0)%Z && negb (b =? 0)%Z).

Definition rmap {A B} (f : A -> B) (r : Raster A) : Raster B :=
  fun p => lift1 f (r p).
Definition rmap2 {A B C} (f : A -> B -> C) (r1 : Raster A) (r2 : Raster B)
  : Raster C :=
  fun p => lift2 f (r1 p) (r2 p).

(** *** rescale and cloudScoreMask *)

Definition rescale (image : Q) (min max : Q) : Q :=
  (* image.subtract(min).divide(ee.Number(max).subtract(min)) *)
  divide (image - min) (max - min).

(** The 'cloudScoreMask' value of one pixel. *)
Definition cloudScoreMask_px (image : Reflectance) (cloudThresh : Z)
  : option Z :=
  (* score = ee.Image(1.0) *)
  let score := 1 in
  let score := Qmin score (rescale (blue image) 1000 3000) in
  let visibleSum := red image + green image + blue image in
  let score := Qmin score (rescale visibleSum 2000 8000) in
  let infraredSum := nir image + swir1 image + swir2 image in
  let score := Qmin score (rescale infraredSum 3000 8000) in
  (* ndsi = image.normalizedDifference(['green', 'swir1']) *)
  let ndsi := normalizedDifference (green image) (swir1 image) in
  let score := lift1 (fun n => Qmin score (rescale n (8 # 10) (6 # 10))) ndsi in
  (* score.multiply(100).byte().gte(cloudThresh) *)
  lift1 (fun s => b2z (cloudThresh <=? byte (s * 100))%Z) score.


(** *** QA flag masks *)

Definition cloudFlagMaskToaLX (image : Image) : Raster Z :=
  rmap (fun qa => Z.land qa (2 ^ 3)) (pixel_qa image).

Definition cloudFlagMaskToaS2 (image : Image) : Raster Z :=
  rmap (fun qa => b2z (negb (Z.land qa (2 ^ 10) =? 0)%Z
                       || negb (Z.land qa (2 ^ 11) =? 0)%Z))
       (pixel_qa image).

(** ee.String(x).slice(0, 10).compareTo('Sentinel-2').Not() *)
Definition isSentinel (image : Image) : bool :=
  String.eqb (String.substring 0 10 (satellite_name image)) "Sentinel-2".

(** ee.String(x).compareTo('TOA').Not() *)
Definition isToa (image : Image) : bool := String.eqb (reflectance image) "TOA".

Definition cloudFlagMaskToa (image : Image) : Raster Z :=
  if isSentinel image then cloudFlagMaskToaS2 image
  else cloudFlagMaskToaLX image.

Definition cloudFlagMaskSr (image : Image) : Raster Z :=
  rmap (fun qa => b2z (negb (Z.land qa (2 ^ 3) =? 0)%Z)) (pixel_qa image).

Definition cloudFlagMask (image : Image) : Image :=
  addBands image "cloudFlagMask"
    (if isToa image then cloudFlagMaskToa image else cloudFlagMaskSr image).

Definition cloudShadowFlagMaskToaLX (image : Image) : Raster Z :=
  rmap (fun qa => b2z (negb (Z.land qa (2 ^ 4) =? 0)%Z)) (pixel_qa image).

Definition cloudShadowFlagMaskSrLX (image : Image) : Raster Z :=
  rmap (fun qa => b2z (negb (Z.land qa (2 ^ 4) =? 0)%Z)) (pixel_qa image).

Definition cloudShadowFlagMask (image : Image) : Image :=
  addBands image "cloudShadowFlagMask"
    (if isSentinel image then
       (* ee.Image(0).mask(image.select(0)): zero where the first band
          (blue) is unmasked and not zero *)
       (fun p => match optical image p with
                 | Some r => if Qeq_bool (blue r) 0 then None else Some 0%Z
                 | None => None
                 end)
     else if isToa image then cloudShadowFlagMaskToaLX image
          else cloudShadowFlagMaskSrLX image).

(** *** Neighbourhood filters ([focal_min], [focal_max])

    Default kernel: a circle of the given radius in pixels.  A masked
    input pixel gives a masked output pixel; masked neighbours are
    skipped by the reducer. *)

Definition range (r : Z) : list Z :=
  map (fun i => (Z.of_nat i - r)%Z) (seq 0 (Z.to_nat (2 * r + 1))).

Definition kernel (r : Z) : list (Z * Z) :=
  filter (fun d => (fst d * fst d + snd d * snd d <=? r * r)%Z)
         (list_prod (range r) (range r)).

Definition shift (p d : Z * Z) : Z * Z := ((fst p + fst d)%Z, (snd p + snd d)%Z).

Definition neighbours {A} (img : Raster A) (r : Z) (p : Z * Z) : list A :=
  flat_map (fun d => match img (shift p d) with Some v => [v] | None => [] end)
           (kernel r).

Definition focal_min (img : Raster Z) (r : Z) : Raster Z :=
  fun p => match img p with
           | None => None
           | Some c => Some (fold_right Z.min c (neighbours img r p))
           end.

Definition focal_max (img : Raster Z) (r : Z) : Raster Z :=
  fun p => match img p with
           | None => None
           | Some c => Some (fold_right Z.max c (neighbours img r p))
           end.

(** *** tdom *)

Definition sum (xs : list Q) : Q := fold_right Qplus 0 xs.

Definition count (xs : list Q) : Q := inject_Z (Z.of_nat (List.length xs)).

(** [collection.mean()] at one pixel: mean of the unmasked values. *)
Definition mean (xs : list Q) : option Q :=
  match xs with [] => None | _ => Some (sum xs / count xs) end.

(** [ee.Reducer.stdDev()] is the population standard deviation; its
    square is computed here, the root is taken where it is used. *)
Definition variance (xs : list Q) : option Q :=
  match mean xs with
  | None => None
  | Some m => Some (sum (map (fun x => (x - m) * (x - m)) xs) / count xs)
  end.

(** [image.subtract(mean).divide(stdDev).lt(thresh)] for one band: decides
    [(v - mean) / sqrt var < thresh] over the reals without leaving the
    rationals.  With [var = 0] the quotient is 0 (division by zero). *)
Definition zScore_lt (v mean var thresh : Q) : bool :=
  let d := v - mean in
  if Qeq_bool var 0 then lt 0 thresh
  else if lt d 0 then
         if lt thresh 0 then lt (thresh * thresh * var) (d * d) else true
       else
         if lt 0 thresh then lt (d * d) (thresh * thresh * var) else false.

Definition values_at (band : Reflectance -> Q)
           (collection : list Image) (p : Z * Z) : list Q :=
  flat_map (fun img => match optical img p with
                       | Some r => [band r]
                       | None => []
                       end)
           collection.

(** The dark-outlier test of one image before the neighbourhood filter:
    zScore.lt(zScoreThresh).reduce(sum).eq(2).And(irSum.lt(shadowSumThresh)) *)
Definition darkOutliers (collection : list Image)
           (zScoreThresh shadowSumThresh : Q) (image : Image) : Raster Z :=
  fun p =>
    match optical image p with
    | None => None
    | Some r =>
        let nirs := values_at nir collection p in
        let swirs := values_at swir1 collection p in
        match mean nirs, variance nirs, mean swirs, variance swirs with
        | Some m1, Some v1, Some m2, Some v2 =>
            let below := (b2z (zScore_lt (nir r) m1 v1 zScoreThresh)
                          + b2z (zScore_lt (swir1 r) m2 v2 zScoreThresh))%Z in
            let irSum := nir r + swir1 r in
            Some (And (b2z (below =? 2)%Z) (b2z (lt irSum shadowSumThresh)))
        | _, _, _, _ => None
        end
    end.

Definition _maskDarkOutliers (collection : list Image)
           (zScoreThresh shadowSumThresh : Q) (dilatePixels : Z)
           (image : Image) : Image :=
  let tdomMask := darkOutliers collection zScoreThresh shadowSumThresh image in
  (* tdomMask = tdomMask.focal_min(dilatePixels) *)
  let tdomMask := focal_min tdomMask dilatePixels in
  addBands image "tdomMask" tdomMask.

Definition tdom (collection : list Image)
           (zScoreThresh shadowSumThresh : Q) (dilatePixels : Z)
  : list Image :=
  map (_maskDarkOutliers collection zScoreThresh shadowSumThresh dilatePixels)
      collection.

(** *** cloudProject *)

(** ee.Number.round(): the nearest integer, halves upward. *)
Definition Rround (x : R) : Z := (up (x + / 2) - 1)%Z.

Definition azR (meanAzimuth : R) : R :=
  (meanAzimuth * PI / 180 + (5 / 10) * PI)%R.

Definition zenR (meanElevation : R) : R :=
  ((5 / 10) * PI - meanElevation * PI / 180)%R.

(** The whole-pixel offset [(x, y)] of the shadow of a cloud at the given
    height. *)
Definition shadowOffset (meanAzimuth meanElevation nominalScale : R)
           (cloudHeight : R) : Z * Z :=
  let shadowCastedDistance := (tan (zenR meanElevation) * cloudHeight)%R in
  let x := Rround (cos (azR meanAzimuth) * shadowCastedDistance / nominalScale) in
  let y := Rround (sin (azR meanAzimuth) * shadowCastedDistance / nominalScale) in
  (x, y).

(** cloud.changeProj(proj, proj.translate(x, y)): every pixel of the band
    moves by [(x, y)] pixels. *)
Definition translate {A} (img : Raster A) (d : Z * Z) : Raster A :=
  fun p => img ((fst p - fst d)%Z, (snd p - snd d)%Z).

(** ee.ImageCollection.fromImages(imgs).max(): the largest unmasked value
    of each pixel, masked where every image is. *)
Definition collection_max (imgs : list (Raster Z)) : Raster Z :=
  fun p =>
    match flat_map (fun img => match img p with Some v => [v] | None => [] end)
                   imgs with
    | [] => None
    | v :: vs => Some (fold_right Z.max v vs)
    end.

(** image.unmask(): masked pixels become 0. *)
Definition unmask (img : Raster Z) : Raster Z :=
  fun p => Some (match img p with Some v => v | None => 0%Z end).

(** The projection for a given list of offsets, one per cloud height. *)
Definition projectShadow (cloud tdomMask darkPixels : Raster Z)
           (offsets : list (Z * Z)) (dilatePixels : Z) : Raster Z :=
  let shadows := map (translate cloud) offsets in
  let shadow := unmask (collection_max shadows) in
  let shadow := focal_max shadow dilatePixels in
  (* shadow.And(darkPixels).And(tdomMask.Not().And(cloud.Not())) *)
  rmap2 And (rmap2 And shadow darkPixels)
            (rmap2 And (rmap Not tdomMask) (rmap Not cloud)).

(** [None] is a failed call: the cloud or tdomMask band is absent, a sun
    angle is null, or the list of heights is empty (the union then has no
    band to rename). *)
Definition cloudProject (image : Image) (cloudBand : string)
           (shadowSumThresh : Q) (cloudHeights : list R) (dilatePixels : Z)
  : option Image :=
  match select image cloudBand, select image "tdomMask",
        sun_azimuth_angle image, sun_elevation_angle image, cloudHeights with
  | Some cloud, Some tdomMask, Some meanAzimuth, Some meanElevation, _ :: _ =>
      let darkPixels : Raster Z :=
        rmap (fun r => b2z (lt (nir r + swir1 r + swir2 r) shadowSumThresh))
             (optical image) in
      let offsets :=
        map (shadowOffset meanAzimuth meanElevation (nominalScale image))
            cloudHeights in
      Some (addBands image "cloudShadowTdomMask"
              (projectShadow cloud tdomMask darkPixels offsets dilatePixels))
  | _, _, _, _, _ => None
  end.

(** *** getMasks *)

Fixpoint mapM {A B} (f : A -> option B) (l : list A) : option (list B) :=
  match l with
  | [] => Some []
  | a :: rest =>
      match f a, mapM f rest with
      | Some b, Some bs => Some (b :: bs)
      | _, _ => None
      end
  end.


End CloudAndShadowMaskC2.

(* ------------------------------------------------------------------------ *)
(** ** modules/Collection.py *)
(* ------------------------------------------------------------------------ *)

Module Collection.
Import EE.
Local Open Scope string_scope.

(** A property value; a property that is absent (null) is [None]. *)
Inductive value := Num (q : Q) | Str (s : string).

Definition Props := list (string * value).

Fixpoint get (props : Props) (name : string) : option value :=
  match props with
  | [] => None
  | (n, v) :: rest => if String.eqb n name then Some v else get rest name
  end.

(** image.set(name, v); setting null leaves the property null. *)
Definition set (props : Props) (name : string) (v : option value) : Props :=
  match v with
  | Some x => (name, x) :: props
  | None => filter (fun nv => negb (String.eqb (fst nv) name)) props
  end.

(** The condition of [ee.Algorithms.If]: null, 0 and the empty string are
    false, everything else is true. *)
Definition truthy (c : option value) : bool :=
  match c with
  | None => false
  | Some (Num q) => negb (Qeq_bool q 0)
  | Some (Str s) => negb (String.eqb s "")
  end.

Definition If {A} (c : option value) (a b : A) : A :=
  if truthy c then a else b.

(** ee.Number(90).subtract(x); a null or non-numeric operand gives no
    number. *)
Definition ninety_minus (x : option value) : option value :=
  match x with Some (Num z) => Some (Num (90 - z)) | _ => None end.

(** One scene: its index, acquisition time (system:time_start, ms), its
    properties and the band values of one pixel, by band name. *)
Record Scene := mkScene {
  system_index : string;
  time_start : Z;
  properties : Props;
  bands : list (string * Q) }.

Definition set_property (image : Scene) (name : string) (v : option value)
  : Scene :=
  mkScene (system_index image) (time_start image)
          (set (properties image) name v) (bands image).

Section WithDateFormat.

(** ee.Date(x).format('Y-MM-dd') is not interpreted. *)
Variable format_date : option value -> option value.

Definition setProperties (image : Scene) : Scene :=
  let get' := get (properties image) in
  let cloudCover :=
    If (get' "SPACECRAFT_NAME")
       (get' "CLOUDY_PIXEL_PERCENTAGE")
       (get' "CLOUD_COVER") in
  let date :=
    If (get' "DATE_ACQUIRED")
       (get' "DATE_ACQUIRED")
       (If (get' "SENSING_TIME")
           (get' "SENSING_TIME")
           (get' "GENERATION_TIME")) in
  let satellite :=
    If (get' "SPACECRAFT_ID")
       (get' "SPACECRAFT_ID")
       (If (get' "SATELLITE")
           (get' "SATELLITE")
           (get' "SPACECRAFT_NAME")) in
  let azimuth :=
    If (get' "SUN_AZIMUTH")
       (get' "SUN_AZIMUTH")
       (If (get' "SOLAR_AZIMUTH_ANGLE")
           (get' "SOLAR_AZIMUTH_ANGLE")
           (get' "MEAN_SOLAR_AZIMUTH_ANGLE")) in
  let elevation :=
    If (get' "SUN_ELEVATION")
       (get' "SUN_ELEVATION")
       (If (get' "SOLAR_ZENITH_ANGLE")
           (ninety_minus (get' "SOLAR_ZENITH_ANGLE"))
           (ninety_minus (get' "MEAN_SOLAR_ZENITH_ANGLE"))) in
  set_property
    (set_property
       (set_property
          (set_property
             (set_property image "cloud_cover" cloudCover)
             "satellite_name" satellite)
          "sun_azimuth_angle" azimuth)
       "sun_elevation_angle" elevation)
    "date" (format_date date).

(** Band selectors: 'SR_B.' (SR_B and one more character), 'ST_B.*' and
    'B.*' (a prefix). *)
Definition is_SR_B (name : string) : bool :=
  String.prefix "SR_B" name && (String.length name =? 5)%nat.
Definition is_ST_B (name : string) : bool := String.prefix "ST_B" name.
Definition is_B (name : string) : bool := String.prefix "B" name.

Definition map_bands (sel : string -> bool) (f : Q -> Q) (image : Scene)
  : Scene :=
  mkScene (system_index image) (time_start image) (properties image)
          (map (fun nv => if sel (fst nv) then (fst nv, f (snd nv)) else nv)
               (bands image)).

Definition applyScaleFactors (image : Scene) : Scene :=
  let image :=
    map_bands is_SR_B
      (fun dn => (dn * (275 # 10000000) + - (2 # 10)) * 10000) image in
  map_bands is_ST_B
    (fun dn => (dn * (341802 # 100000000) + 149) * 10) image.

Definition applyScaleFactorsTOA (image : Scene) : Scene :=
  map_bands is_B (fun dn => dn * 10000) image.

(** filterMetadata(name, 'less_than', x): scenes whose property is a
    number below [x]; a scene without the property does not pass. *)
Definition less_than (name : string) (x : Q) (image : Scene) : bool :=
  match get (properties image) name with
  | Some (Num q) => lt q x
  | _ => false
  end.

(** ee.Filter.date(start, end): start <= time < end. *)
Definition in_dates (dateStart dateEnd : Z) (image : Scene) : bool :=
  ((dateStart <=? time_start image) && (time_start image <? dateEnd))%Z.

Fixpoint inList (x : string) (l : list string) : bool :=
  match l with
  | [] => false
  | y :: rest => String.eqb x y || inList x rest
  end.

(** [today] stands for [date.today()]; [geometry] is the test
    "the scene intersects the region". *)
Definition getCollection (source : list Scene) (today : Z)
           (collectionType : string)
           (dateStart : Z) (dateEnd : option Z)
           (cloudCover : Q)
           (trashList : option (list string))
           (geometry : option (Scene -> bool))
           (scaleFactor : bool) : list Scene :=
  let dateEnd := match dateEnd with None => today | Some d => d end in
  let collection :=
    map (fun image =>
           set_property image "reflectance" (Some (Str collectionType)))
        (map setProperties
             (filter (in_dates dateStart dateEnd) source)) in
  let collection :=
    if scaleFactor then
      if String.eqb collectionType "TOA"
      then map applyScaleFactorsTOA collection
      else map applyScaleFactors collection
    else collection in
  let collection :=
    match geometry with
    | Some intersects => filter intersects collection
    | None => collection
    end in
  let collection :=
    match trashList with
    | Some trash =>
        filter (fun image => negb (inList (system_index image) trash))
               collection
    | None => collection
    end in
  filter (less_than "cloud_cover" cloudCover) collection.

End WithDateFormat.

End Collection.

(* ------------------------------------------------------------------------ *)
(** ** modules/Mosaic.py *)
(* ------------------------------------------------------------------------ *)

Module Mosaic.
Import EE.
Local Open Scope string_scope.

(** One image of the collection at one pixel location: acquisition time
    and the value of every band there, masked or not. *)
Record Scene := mkScene {
  time_start : Z;
  pixel : list (string * Px) }.

(** image.select([name]) at the pixel; a band the image lacks reads as
    masked. *)
Fixpoint band (name : string) (px : list (string * Px)) : Px :=
  match px with
  | [] => None
  | (n, v) :: rest => if String.eqb n name then v else band name rest
  end.

(** The unmasked values of one band across the collection: the input of
    a reducer at this pixel. *)
Definition column (name : string) (collection : list Scene) : list Q :=
  flat_map (fun image => match band name (pixel image) with
                         | Some v => [v]
                         | None => []
                         end)
           collection.

(** image.mask(m): the pixel is kept where [m] is unmasked and non-zero
    (a band that was masked there is filled with 0) and masked
    elsewhere. *)
Definition mask (image : Scene) (m : option bool) : Scene :=
  mkScene (time_start image)
          (map (fun nv : string * Px =>
                  (fst nv,
                   match m with
                   | Some true =>
                       Some (match snd nv with Some v => v | None => 0 end)
                   | _ => None
                   end))
               (pixel image)).

(** ee.Image(collection.first()).bandNames() *)
Definition bandNames (collection : list Scene) : list string :=
  match collection with
  | [] => []
  | image :: _ => map fst (pixel image)
  end.

Definition reduce (reducer : list Q -> option Q) (collection : list Scene)
  : list (string * Px) :=
  map (fun name => (name, reducer (column name collection)))
      (bandNames collection).

(** ee.Reducer.min() / ee.Reducer.max() *)
Definition rmin (xs : list Q) : option Q :=
  match xs with [] => None | x :: rest => Some (fold_right Qmin x rest) end.
Definition rmax (xs : list Q) : option Q :=
  match xs with [] => None | x :: rest => Some (fold_right Qmax x rest) end.

(** ee.Filter.date(start, end): start <= time < end. *)
Definition in_dates (dateStart dateEnd : Z) (image : Scene) : bool :=
  ((dateStart <=? time_start image) && (time_start image <? dateEnd))%Z.

(** The composite at the pixel, one group of bands per statistic. *)
Record Composite := mkComposite {
  mosaicMedian : list (string * Px);
  mosaicDry : list (string * Px);
  mosaicWet : list (string * Px);
  mosaicMin : list (string * Px);
  mosaicMax : list (string * Px);
  mosaicAmp : list (string * Px);
  mosaicStdDev : list (string * Px);
  dry : Px;
  wet : Px }.

Section Reducers.

(** The order-statistics reducers of Earth Engine, whose rules are not
    part of the repository, as they act on the unmasked values of one
    pixel: ee.Reducer.percentile([p]), ee.Reducer.median() and
    ee.Reducer.stdDev(). *)
Variable percentile : Q -> list Q -> option Q.
Variable median : list Q -> option Q.
Variable stdDev : list Q -> option Q.

Definition collectionDry (collection : list Scene)
           (percentileDry : Q) (percentileBand : string) : list Scene :=
  let dry := percentile percentileDry (column percentileBand collection) in
  map (fun image =>
         mask image (lift2 lte (band percentileBand (pixel image)) dry))
      collection.

Definition collectionWet (collection : list Scene)
           (percentileWet : Q) (percentileBand : string) : list Scene :=
  let wet := percentile percentileWet (column percentileBand collection) in
  map (fun image =>
         mask image (lift2 gte (band percentileBand (pixel image)) wet))
      collection.

Definition getMosaic (collection : list Scene)
           (percentileDry percentileWet : Q) (percentileBand : string)
           (dateStart dateEnd : Z) : Composite :=
  let dry := percentile percentileDry (column percentileBand collection) in
  let wet := percentile percentileWet (column percentileBand collection) in
  let mosaic := reduce median (filter (in_dates dateStart dateEnd) collection) in
  let mosaicDry :=
    reduce median (collectionDry collection percentileDry percentileBand) in
  let mosaicWet :=
    reduce median (collectionWet collection percentileWet percentileBand) in
  let mosaicMin := reduce rmin collection in
  let mosaicMax := reduce rmax collection in
  let mosaicAmp :=
    map (fun mx_mn : (string * Px) * (string * Px) =>
           (fst (fst mx_mn),
            lift2 Qminus (snd (fst mx_mn)) (snd (snd mx_mn))))
        (combine mosaicMax mosaicMin) in
  let mosaicStdDev := reduce stdDev collection in
  mkComposite mosaic mosaicDry mosaicWet mosaicMin mosaicMax mosaicAmp
              mosaicStdDev dry wet.

End Reducers.

End Mosaic.

(* ------------------------------------------------------------------------ *)
(** ** countries/mapbiomas_mosaics_collection_9_landsat_v1.py *)
(* ------------------------------------------------------------------------ *)

Module Driver.
Import EE CloudAndShadowMaskC2.
Local Open Scope string_scope.

(** *** applyCloudAndShadowMask *)



(** image.mask(m) on one band: kept where [m] is unmasked and non-zero (a
    pixel that was masked there is filled with [zero]). *)
Definition mask_band {A} (zero : A) (m : Raster Z) (b : Raster A) : Raster A :=
  fun p => match m p with
           | Some v => if (v =? 0)%Z then None
                       else Some (match b p with Some x => x | None => zero end)
           | None => None
           end.

Definition mask (image : Image) (m : Raster Z) : Image :=
  mkImage (mask_band (mkReflectance 0 0 0 0 0 0) m (optical image))
          (mask_band 0%Z m (pixel_qa image))
          (map (fun nb => (fst nb, mask_band 0%Z m (snd nb))) (mask_bands image))
          (satellite_name image) (reflectance image)
          (sun_azimuth_angle image) (sun_elevation_angle image)
          (nominalScale image).

Definition cloudHeights : list R :=
  [200; 700; 1200; 1700; 2200; 2700; 3200; 3700; 4200; 4700]%R.



(** *** The main loop *)

Inductive exn := Exception (message : string).

Definition msg : string :=
  "Too many tasks already in the queue (3000). Please wait for some of them to complete.".

(** [e == msg] in Python, [e] an exception object and [msg] a str: the two
    are never equal (exceptions compare by identity, a str is equal only
    to a str). *)
Definition exn_eq_str (e : exn) (s : string) : bool := false.

Definition upper_ascii (c : Ascii.ascii) : Ascii.ascii :=
  let n := Ascii.nat_of_ascii c in
  if ((97 <=? n) && (n <=? 122))%nat then Ascii.ascii_of_nat (n - 32) else c.

Fixpoint upper (s : string) : string :=
  match s with
  | EmptyString => EmptyString
  | String c rest => String (upper_ascii c) (upper rest)
  end.

(** One iteration of the three nested loops; [year] is [str(year)]. *)
Record Job := mkJob {
  biomeName : string;
  gridName : string;
  year : string;
  satellite : string }.

Definition jobs (biomeNames : list string)
           (yearsSat : list (string * string))
           (gridNames : string -> list string) : list Job :=
  flat_map (fun biome =>
    flat_map (fun ys =>
      map (fun grid => mkJob biome grid (fst ys) (snd ys)) (gridNames biome))
      yearsSat)
    biomeNames.

Inductive event :=
| Queried (j : Job)      (* the output collection was listed *)
| Attempted (j : Job)    (* the mosaic was built and its export started *)
| Printed (e : exn).     (* print(e) in the handler *)

Section MainLoop.

(** The state of everything outside the script (Earth Engine, the task
    queue) and the two remote interactions of the try block. *)
Variable World : Type.
(** alreadyInCollection = ... .getInfo() *)
Variable listOutputs : Job -> World -> World * (exn + list string).
(** From the grid lookup to task.start(). *)
Variable buildAndExport : Job -> World -> World * option exn.
Variable version : string -> string.

Definition outputName (j : Job) : string :=
  biomeName j ++ "-" ++ gridName j ++ "-" ++ year j ++ "-"
    ++ upper (satellite j) ++ "-" ++ version (biomeName j).

(** The try block: the events it causes and the exception it raises,
    if any. *)
Definition try_body (j : Job) (w : World)
  : World * list event * option exn :=
  match listOutputs j w with
  | (w1, inl e) => (w1, [Queried j], Some e)
  | (w1, inr alreadyInCollection) =>
      if Collection.inList (outputName j) alreadyInCollection
      then (w1, [Queried j], None)
      else
        match buildAndExport j w1 with
        | (w2, r) => (w2, [Queried j; Attempted j], r)
        end
  end.

(** The loops with their handler.  The result is the exception that
    leaves the loop, if one does. *)
Fixpoint main_loop (js : list Job) (w : World)
  : World * list event * option exn :=
  match js with
  | [] => (w, [], None)
  | j :: rest =>
      match try_body j w with
      | (w1, ev, None) =>
          match main_loop rest w1 with
          | (w2, ev', r) => (w2, (ev ++ ev')%list, r)
          end
      | (w1, ev, Some e) =>
          (* print(e); if e == msg: raise Exception(e) *)
          if exn_eq_str e msg
          then (w1, (ev ++ [Printed e])%list, Some e)
          else
            match main_loop rest w1 with
            | (w2, ev', r) => (w2, (ev ++ Printed e :: ev')%list, r)
            end
      end
  end.

End MainLoop.

Definition attempts (ev : list event) : list Job :=
  flat_map (fun e => match e with Attempted j => [j] | _ => [] end) ev.


End Driver.

(* ------------------------------------------------------------------------ *)
(** ** Definitions that follow the wording of the specification *)
(* ------------------------------------------------------------------------ *)

Module Spec.
Import EE.








(** What getCollection does to one scene that it keeps: the canonical
    properties, the 'reflectance' property and the scale factors. *)
Definition normalize (format_date : option Collection.value -> option Collection.value)
           (collectionType : string) (scaleFactor : bool)
           (image : Collection.Scene) : Collection.Scene :=
  let image :=
    Collection.set_property (Collection.setProperties format_date image)
      "reflectance" (Some (Collection.Str collectionType)) in
  if scaleFactor then
    if String.eqb collectionType "TOA"
    then Collection.applyScaleFactorsTOA image
    else Collection.applyScaleFactors image
  else image.

(** The normalized cloud cover of a scene. *)
Definition cloud_cover (image : Collection.Scene) : option Collection.value :=
  Collection.get (Collection.properties image) "cloud_cover".


(** The 'tdomMask' value of the [i]-th image of the collection at pixel [p],
    as tdom computes it. *)
Definition tdomMask_at (collection : list CloudAndShadowMaskC2.Image)
           (zScoreThresh shadowSumThresh : Q) (dilatePixels : Z)
           (i : nat) (p : Z * Z) : option Z :=
  match nth_error (CloudAndShadowMaskC2.tdom collection zScoreThresh
                     shadowSumThresh dilatePixels) i with
  | Some image =>
      match CloudAndShadowMaskC2.select image "tdomMask" with
      | Some m => m p
      | None => None
      end
  | None => None
  end.





(** The values of one band over nine scenes that agree and one other scene,
    which comes after the first [k]. *)
Definition ten (k : nat) (v v' : Q) : list Q :=
  (repeat v k ++ v' :: repeat v (9 - k))%list.

(** Pixel [q] lies within [r] pixels of pixel [c]. *)
Definition within (r : Z) (q c : Z * Z) : Prop :=
  ((fst c - fst q) * (fst c - fst q) + (snd c - snd q) * (snd c - snd q)
   <= r * r)%Z.

(** The dark-pixel test of cloudProject at a pixel. *)
Definition dark_at (optical : Raster Reflectance) (shadowSumThresh : Q)
           (p : Z * Z) : Prop :=
  exists r, optical p = Some r /\ nir r + swir1 r + swir2 r < shadowSumThresh.

(** A sublist in the order of the original. *)
Inductive subseq {A : Type} : list A -> list A -> Prop :=
| subseq_nil : subseq [] []
| subseq_skip x l1 l2 : subseq l1 l2 -> subseq l1 (x :: l2)
| subseq_take x l1 l2 : subseq l1 l2 -> subseq (x :: l1) (x :: l2).

End Spec.

(* ------------------------------------------------------------------------ *)
(** ** Concrete inputs used by the examples *)
(* ------------------------------------------------------------------------ *)

Module Examples.
Import EE.
Local Open Scope string_scope.

(** A pixel 1.1 times as bright as the cloud endmember in every band. *)
Definition bright_cloud : Reflectance :=
  mkReflectance (44341 # 10) (95854 # 10) 8690 (98879 # 10) (77022 # 10)
                (72677 # 10).

(** A bright pixel: 0.85 times the sum of the gv, npv and soil
    endmembers. *)
Definition bright_mixture : Reflectance :=
  mkReflectance (29172 # 10) (386835 # 100) (40358 # 10) 12529
                (1514105 # 100) (79016 # 10).

(** A dark pixel: 0.015 times the sum of the gv, npv and soil endmembers. *)
Definition dark_mixture : Reflectance :=
  mkReflectance (5148 # 100) (68265 # 1000) (7122 # 100) (2211 # 10)
                (267195 # 1000) (13944 # 100).

(** A Landsat scene that reports 100 % cloud cover. *)
Definition overcast : Collection.Scene :=
  Collection.mkScene "LC08_226080_20200101" 1577880000000
    [("CLOUD_COVER", Collection.Num 100);
     ("DATE_ACQUIRED", Collection.Str "2020-01-01");
     ("SPACECRAFT_ID", Collection.Str "LANDSAT_8");
     ("SUN_AZIMUTH", Collection.Num 120);
     ("SUN_ELEVATION", Collection.Num 55)]
    [("SR_B2", 8000)].

(** A clear Landsat scene whose metadata carry no sun azimuth under any of
    the candidate names. *)
Definition no_azimuth : Collection.Scene :=
  Collection.mkScene "LC08_226080_20200117" 1579262400000
    [("CLOUD_COVER", Collection.Num 10);
     ("DATE_ACQUIRED", Collection.Str "2020-01-17");
     ("SPACECRAFT_ID", Collection.Str "LANDSAT_8");
     ("SUN_ELEVATION", Collection.Num 55)]
    [("SR_B2", 8000)].


(** Dates are left as they are. *)
Definition keep_date (v : option Collection.value) : option Collection.value := v.

(** Two tiles of one biome and year. *)
Definition tileA : Driver.Job := Driver.mkJob "MATAATLANTICA" "SC-20-Y-A" "2025" "l8".
Definition tileB : Driver.Job := Driver.mkJob "MATAATLANTICA" "SF-23-V-B" "2025" "l8".



(** Building tile A fails on a missing band. *)
Definition band_error : Driver.exn :=
  Driver.Exception "Image.select: Pattern 'SR_B2' did not match any bands.".

Definition band_missing (j : Driver.Job) (w : unit) : unit * option Driver.exn :=
  (tt, if String.eqb (Driver.gridName j) "SC-20-Y-A"
       then Some band_error else None).

Definition version1 (biome : string) : string := "1".

(** Five scenes whose quality band (ndvi) reads 10, 20, 30, 70, 90 at the
    pixel; the red band is arbitrary. *)
Definition scene (t : Z) (ndvi red : Q) : Mosaic.Scene :=
  Mosaic.mkScene t [("ndvi", Some ndvi); ("red", Some red)].

Definition series (r1 r2 r3 r4 r5 : Q) : list Mosaic.Scene :=
  [scene 1 10 r1; scene 2 20 r2; scene 3 30 r3; scene 4 70 r4; scene 5 90 r5].


(** Reducers for the examples: a percentile that answers the smallest value
    up to the 50th and the largest above it, the median of one or two
    values, and no standard deviation. *)
Definition sample_percentile (p : Q) (xs : list Q) : option Q :=
  if Qle_bool p 50 then Mosaic.rmin xs else Mosaic.rmax xs.

Definition sample_median (xs : list Q) : option Q :=
  match xs with
  | [x] => Some x
  | [x; y] => Some ((x + y) / 2)
  | _ => None
  end.

Definition no_stdDev (xs : list Q) : option Q := None.

(** A Landsat surface-reflectance image that reads the same everywhere:
    nir and swir1 as given, the other bands 0, no QA bit set, sun azimuth
    180 and elevation 45 degrees, 30 m pixels. *)
Definition flat (n s : Q) : CloudAndShadowMaskC2.Image :=
  CloudAndShadowMaskC2.mkImage
    (fun _ => Some (mkReflectance 0 0 0 n s 0))
    (fun _ => Some 0%Z)
    [] "LANDSAT_8" "SR" (Some 180%R) (Some 45%R) 30%R.

(** Nine scenes and a darker one after the first [k] of them. *)
Definition nine_and_one (k : nat) (n s n' s' : Q)
  : list CloudAndShadowMaskC2.Image :=
  (repeat (flat n s) k ++ flat n' s' :: repeat (flat n s) (9 - k))%list.

(** A mask band with one cloud pixel, at (50, 50). *)
Definition single_cloud : Raster Z :=
  fun p => Some (if ((fst p =? 50) && (snd p =? 50))%Z then 1%Z else 0%Z).

Definition no_outlier : Raster Z := fun _ => Some 0%Z.

(** An image with that cloud mask and the given optical bands. *)
Definition one_cloud_image (optical : Raster Reflectance)
  : CloudAndShadowMaskC2.Image :=
  CloudAndShadowMaskC2.mkImage
    optical (fun _ => Some 0%Z)
    [("cloudScoreMask", single_cloud); ("tdomMask", no_outlier)]
    "LANDSAT_8" "SR" (Some 180%R) (Some 45%R) 30%R.

Definition dark_everywhere : Raster Reflectance :=
  fun _ => Some (mkReflectance 0 0 0 0 0 0).


End Examples.

(* ------------------------------------------------------------------------ *)
(** ** modules/SmaAndNdfi.py: the three-endmember model *)
(* ------------------------------------------------------------------------ *)

Module SmaAndNdfiSmall.
Import EE SmaAndNdfi.




End SmaAndNdfiSmall.

(* ------------------------------------------------------------------------ *)
(** ** modules/SpectralIndexes.py *)
(* ------------------------------------------------------------------------ *)

Module SpectralIndexes.
Import EE.
Local Open Scope string_scope.

(** The bands of an image at one pixel, by name and in band order; a
    masked band reads [None].  The bands carry floating-point values, as
    they do after the scale factors.  An image has no two bands of one
    name. *)
Definition Image := list (string * Px).

(** b("name") in an expression and image.select([name]): the band must
    exist ([None] is the error). *)
Fixpoint b (image : Image) (name : string) : option Px :=
  match image with
  | [] => None
  | (n, v) :: rest => if String.eqb n name then Some v else b rest name
  end.

Definition has (image : Image) (name : string) : bool :=
  match b image name with Some _ => true | None => false end.

(** image.addBands(srcImg=band, overwrite=True) for a band called [name]:
    "bands from srcImg will override bands with the same names". *)
Fixpoint addBands_overwrite (image : Image) (name : string) (v : Px) : Image :=
  match image with
  | [] => [(name, v)]
  | (n, x) :: rest =>
      if String.eqb n name then (name, v) :: rest
      else (n, x) :: addBands_overwrite rest name v
  end.

(** image.addBands(band): without overwrite "the new band will be renamed
    with a numerical suffix (foo to foo_1 unless foo_1 exists, then foo_2
    unless it exists, etc)".  Among the first [length image + 1] suffixes
    one is free. *)
Fixpoint suffixed (fuel k : nat) (image : Image) (name : string) : string :=
  let candidate := name ++ "_" ++ NilEmpty.string_of_uint (Nat.to_uint k) in
  match fuel with
  | O => candidate
  | S fuel' =>
      if has image candidate then suffixed fuel' (S k) image name
      else candidate
  end.

Definition addBands (image : Image) (name : string) (v : Px) : Image :=
  if has image name
  then (image ++ [(suffixed (List.length image) 1 image name, v)])%list
  else (image ++ [(name, v)])%list.

(** image.expression(exp) for an expression over two or three bands: the
    value is masked where one of its bands is. *)
Definition expression2 (image : Image) (n1 n2 : string) (f : Q -> Q -> Q)
  : option Px :=
  match b image n1, b image n2 with
  | Some x, Some y => Some (lift2 f x y)
  | _, _ => None
  end.

Definition expression3 (image : Image) (n1 n2 n3 : string)
           (f : Q -> Q -> Q -> Q) : option Px :=
  match b image n1, b image n2, b image n3 with
  | Some x, Some y, Some z =>
      Some (match x, y, z with
            | Some x, Some y, Some z => Some (f x y z)
            | _, _, _ => None
            end)
  | _, _, _ => None
  end.

(** band.add(k) *)
Definition add (k : Q) (band : Px) : Px := lift1 (fun x => x + k) band.

Definition getNDVI (image : Image) : option Image :=
  (* '( b("nir") - b("red") ) / ( b("nir") + b("red") )' *)
  let exp := expression2 image "nir" "red"
               (fun nir red => divide (nir - red) (nir + red)) in
  option_map (fun ndvi => addBands_overwrite image "ndvi" (add 1 ndvi)) exp.

Definition getNDBI (image : Image) : option Image :=
  (* '( b("swir1") - b("nir") ) / ( b("swir1") + b("nir") )' *)
  let exp := expression2 image "swir1" "nir"
               (fun swir1 nir => divide (swir1 - nir) (swir1 + nir)) in
  option_map (fun ndbi => addBands_overwrite image "ndbi" (add 1 ndbi)) exp.

Definition getUI (image : Image) : option Image :=
  (* '( b("swir2") - b("nir") ) / ( b("swir2") + b("nir") )' *)
  let exp := expression2 image "swir2" "nir"
               (fun swir2 nir => divide (swir2 - nir) (swir2 + nir)) in
  option_map (fun ui => addBands_overwrite image "ui" (add 1 ui)) exp.

Definition getBU (image : Image) : option Image :=
  (* 'b("ndbi") - b("ndvi")' *)
  let exp := expression2 image "ndbi" "ndvi" (fun ndbi ndvi => ndbi - ndvi) in
  option_map (fun bu => addBands_overwrite image "bu" bu) exp.

Definition getNDWI (image : Image) : option Image :=
  (* 'float(b("nir") - b("swir1"))/(b("nir") + b("swir1"))' *)
  let exp := expression2 image "nir" "swir1"
               (fun nir swir1 => divide (nir - swir1) (nir + swir1)) in
  option_map (fun ndwi => addBands_overwrite image "ndwi" (add 1 ndwi)) exp.

Definition getMNDWI (image : Image) : option Image :=
  (* 'float(b("green") - b("swir1"))/(b("green") + b("swir1"))' *)
  let exp := expression2 image "green" "swir1"
               (fun green swir1 => divide (green - swir1) (green + swir1)) in
  option_map (fun mndwi => addBands_overwrite image "mndwi" (add 1 mndwi)) exp.

Definition getSAVI (image : Image) : option Image :=
  (* '1.5 * (b("nir") - b("red")) / (0.5 + b("nir") + b("red"))' *)
  let exp := expression2 image "nir" "red"
               (fun nir red =>
                  divide ((15 # 10) * (nir - red)) ((5 # 10) + nir + red)) in
  option_map (fun savi => addBands_overwrite image "savi" (add 1 savi)) exp.

Definition getPRI (image : Image) : option Image :=
  (* 'float(b("blue") - b("green"))/(b("blue") + b("green"))' *)
  let exp := expression2 image "blue" "green"
               (fun blue green => divide (blue - green) (blue + green)) in
  option_map (fun pri => addBands_overwrite image "pri" (add 1 pri)) exp.

Definition getCAI (image : Image) : option Image :=
  (* 'float( b("swir2") / b("swir1") )' *)
  let exp := expression2 image "swir2" "swir1"
               (fun swir2 swir1 => divide swir2 swir1) in
  option_map (fun cai => addBands_overwrite image "cai" (add 1 cai)) exp.

Definition getEVI (image : Image) : option Image :=
  (* '2.5 * ((b("nir") - b("red")) /
             (b("nir") + 6 * b("red") - 7.5 * b("blue") + 1))' *)
  let exp := expression3 image "nir" "red" "blue"
               (fun nir red blue =>
                  (25 # 10)
                  * divide (nir - red) (nir + 6 * red - (75 # 10) * blue + 1)) in
  option_map (fun evi => addBands_overwrite image "evi" (add 1 evi)) exp.

Definition getEVI2 (image : Image) : option Image :=
  (* '2.5 * (b("nir") - b("red")) / (b("nir") + (2.4 * b("red")) + 1)' *)
  let exp := expression2 image "nir" "red"
               (fun nir red =>
                  divide ((25 # 10) * (nir - red))
                         (nir + (24 # 10) * red + 1)) in
  option_map (fun evi2 => addBands_overwrite image "evi2" (add 1 evi2)) exp.

Definition getGCVI (image : Image) : option Image :=
  (* 'b("nir") / b("green") - 1' *)
  let exp := expression2 image "nir" "green"
               (fun nir green => divide nir green - 1) in
  option_map (fun gcvi => addBands image "gcvi" (add 1 gcvi)) exp.

Section Transcendental.

(** The exponential and the square root of Earth Engine are not
    interpreted. *)
Variable exp' : Q -> Q.
Variable sqrt' : Q -> Q.

Definition getEBBI (image : Image) : option Image :=
  (* '( b("swir1_dn") - b("nir_dn") ) /
      ( 10 * sqrt(b("swir1_dn") + b("tir_dn")) )' *)
  let exp := expression3 image "swir1_dn" "nir_dn" "tir_dn"
               (fun swir1_dn nir_dn tir_dn =>
                  divide (swir1_dn - nir_dn)
                         (10 * sqrt' (swir1_dn + tir_dn))) in
  option_map (fun ebbi => addBands_overwrite image "ebbi" ebbi) exp.

Definition getHallCover (image : Image) : option Image :=
  (* '( (-b("red") * 0.017) - (b("nir") * 0.007) - (b("swir2") * 0.079)
        + 5.22 )' *)
  let exp := expression3 image "red" "nir" "swir2"
               (fun red nir swir2 =>
                  (- red * (17 # 1000)) - (nir * (7 # 1000))
                  - (swir2 * (79 # 1000)) + (522 # 100)) in
  option_map (fun e => addBands image "hallcover" (lift1 exp' e)) exp.

Definition getHallHeigth (image : Image) : option Image :=
  (* '( (-b("red") * 0.039) - (b("nir") * 0.011) - (b("swir1") * 0.026)
        + 4.13 )' *)
  let exp := expression3 image "red" "nir" "swir1"
               (fun red nir swir1 =>
                  (- red * (39 # 1000)) - (nir * (11 # 1000))
                  - (swir1 * (26 # 1000)) + (413 # 100)) in
  option_map (fun e => addBands image "hallheigth" (lift1 exp' e)) exp.

End Transcendental.

End SpectralIndexes.

(* ------------------------------------------------------------------------ *)
(** ** modules/BandNames.py *)
(* ------------------------------------------------------------------------ *)

Module BandNames.
Local Open Scope string_scope.

Definition LANDSAT_NEW_NAMES : list string :=
  ["blue"; "green"; "red"; "nir"; "swir1"; "swir2"; "pixel_qa"; "tir"].

Definition SENTINEL_NEW_NAMES : list string :=
  ["blue"; "green"; "red"; "red_edge_1"; "nir"; "swir1"; "swir2"; "pixel_qa"].

Record Names := mkNames {
  bandNames : list string;
  newNames : list string }.

Definition BAND_NAMES : list (string * Names) :=
  [ ("l4c2",
     mkNames ["SR_B1"; "SR_B2"; "SR_B3"; "SR_B4"; "SR_B5"; "SR_B7";
              "QA_PIXEL"; "ST_B6"] LANDSAT_NEW_NAMES);
    ("l5c2",
     mkNames ["SR_B1"; "SR_B2"; "SR_B3"; "SR_B4"; "SR_B5"; "SR_B7";
              "QA_PIXEL"; "ST_B6"] LANDSAT_NEW_NAMES);
    ("l7c2",
     mkNames ["SR_B1"; "SR_B2"; "SR_B3"; "SR_B4"; "SR_B5"; "SR_B7";
              "QA_PIXEL"; "ST_B6"] LANDSAT_NEW_NAMES);
    ("l8c2",
     mkNames ["SR_B2"; "SR_B3"; "SR_B4"; "SR_B5"; "SR_B6"; "SR_B7";
              "QA_PIXEL"; "ST_B10"] LANDSAT_NEW_NAMES);
    ("l9c2",
     mkNames ["SR_B2"; "SR_B3"; "SR_B4"; "SR_B5"; "SR_B6"; "SR_B7";
              "QA_PIXEL"; "ST_B10"] LANDSAT_NEW_NAMES);
    ("l4c2toa",
     mkNames ["B1"; "B2"; "B3"; "B4"; "B5"; "B7"; "QA_PIXEL"; "B6"]
             LANDSAT_NEW_NAMES);
    ("l5c2toa",
     mkNames ["B1"; "B2"; "B3"; "B4"; "B5"; "B7"; "QA_PIXEL"; "B6"]
             LANDSAT_NEW_NAMES);
    ("l7c2toa",
     mkNames ["B1"; "B2"; "B3"; "B4"; "B5"; "B7"; "QA_PIXEL"; "B6_VCID_1"]
             LANDSAT_NEW_NAMES);
    ("l8c2toa",
     mkNames ["B2"; "B3"; "B4"; "B5"; "B6"; "B7"; "QA_PIXEL"; "B10"]
             LANDSAT_NEW_NAMES);
    ("l5",
     mkNames ["B1"; "B2"; "B3"; "B4"; "B5"; "B7"; "pixel_qa"; "B6"]
             LANDSAT_NEW_NAMES);
    ("l7",
     mkNames ["B1"; "B2"; "B3"; "B4"; "B5"; "B7"; "pixel_qa"; "B6"]
             LANDSAT_NEW_NAMES);
    ("l8",
     mkNames ["B2"; "B3"; "B4"; "B5"; "B6"; "B7"; "pixel_qa"; "B11"]
             LANDSAT_NEW_NAMES);
    ("l5toa",
     mkNames ["B1"; "B2"; "B3"; "B4"; "B5"; "B7"; "BQA"; "B6"]
             LANDSAT_NEW_NAMES);
    ("l7toa",
     mkNames ["B1"; "B2"; "B3"; "B4"; "B5"; "B7"; "BQA"; "B6_VCID_1"]
             LANDSAT_NEW_NAMES);
    ("l8toa",
     mkNames ["B2"; "B3"; "B4"; "B5"; "B6"; "B7"; "BQA"; "B11"]
             LANDSAT_NEW_NAMES);
    ("sentinel-2 (toa)",
     mkNames ["B2"; "B3"; "B4"; "B5"; "B8"; "B11"; "B12"; "QA60"]
             SENTINEL_NEW_NAMES);
    ("s2",
     mkNames ["B2"; "B3"; "B4"; "B5"; "B8"; "B11"; "B12"; "QA60"]
             SENTINEL_NEW_NAMES);
    ("s2_harmonized",
     mkNames ["B2"; "B3"; "B4"; "B5"; "B6"; "B7"; "B8"; "B8A"; "B11"; "B12";
              "QA60"]
             ["blue"; "green"; "red"; "red_edge_1"; "red_edge_2";
              "red_edge_3"; "nir"; "red_edge_4"; "swir1"; "swir2";
              "pixel_qa"]);
    ("l5_urban",
     mkNames ["B1"; "B2"; "B3"; "B4"; "B5"; "B7"; "pixel_qa"; "B6"; "B4_1";
              "B5_1"; "B6_1"]
             (LANDSAT_NEW_NAMES ++ ["swir1_dn"; "nir_dn"; "tir_dn"])%list);
    ("l7_urban",
     mkNames ["B1"; "B2"; "B3"; "B4"; "B5"; "B7"; "pixel_qa"; "B6"; "B4_1";
              "B5_1"; "B6_VCID_2"]
             (LANDSAT_NEW_NAMES ++ ["swir1_dn"; "nir_dn"; "tir_dn"])%list);
    ("l8_urban",
     mkNames ["B2"; "B3"; "B4"; "B5"; "B6"; "B7"; "pixel_qa"; "B11"; "B5_1";
              "B6_1"; "B11_1"]
             (LANDSAT_NEW_NAMES ++ ["swir1_dn"; "nir_dn"; "tir_dn"])%list) ].

(** BAND_NAMES[key]; a key the table lacks is a KeyError. *)
Fixpoint lookup (key : string) (table : list (string * Names)) : option Names :=
  match table with
  | [] => None
  | (k, v) :: rest => if String.eqb k key then Some v else lookup key rest
  end.

Definition getBandNames (key : string) : option Names := lookup key BAND_NAMES.

End BandNames.

(* ------------------------------------------------------------------------ *)
(** ** countries/mapbiomas_mosaics_collection_9_landsat_v1.py: the bands of
       the tile collection *)
(* ------------------------------------------------------------------------ *)

Module DriverBands.
Import EE SpectralIndexes.
Local Open Scope string_scope.

(** image.select(bands): every band must exist. *)
Definition select (image : Image) (bands : list string) : option Image :=
  CloudAndShadowMaskC2.mapM
    (fun name => option_map (fun v => (name, v)) (b image name)) bands.

(** image.select(bandNames, newNames): the selected bands under their new
    names; the two lists must be as long as each other. *)
Definition select_rename (image : Image) (bandNames newNames : list string)
  : option Image :=
  if (List.length bandNames =? List.length newNames)%nat then
    CloudAndShadowMaskC2.mapM
      (fun on => option_map (fun v => (snd on, v)) (b image (fst on)))
      (combine bandNames newNames)
  else None.

Definition multiply (image : Image) (k : Q) : Image :=
  map (fun nv => (fst nv, lift1 (fun x => x * k) (snd nv))) image.

Definition divide_image (image : Image) (k : Q) : Image :=
  map (fun nv => (fst nv, lift1 (fun x => divide x k) (snd nv))) image.

(** image.addBands(srcImg, names, overwrite=True) *)
Definition addBands_names (image srcImg : Image) (names : list string)
  : option Image :=
  match select srcImg names with
  | Some src =>
      Some (fold_left (fun img nv => addBands_overwrite img (fst nv) (snd nv))
                      src image)
  | None => None
  end.

Definition multiplyBy10000 (image : Image) : option Image :=
  let bands :=
    ["blue"; "red"; "green"; "nir"; "swir1"; "swir2"; "cai"; "evi2"; "gcvi";
     "hallcover"; "hallheigth"; "ndvi"; "ndwi"; "pri"; "savi"] in
  match select image bands with
  | Some selected => addBands_names image (multiply selected 10000) bands
  | None => None
  end.

Definition divideBy10000 (image : Image) : option Image :=
  let bands := ["blue"; "red"; "green"; "nir"; "swir1"; "swir2"] in
  match select image bands with
  | Some selected => addBands_names image (divide_image selected 10000) bands
  | None => None
  end.

Definition andThen (image : option Image) (f : Image -> option Image)
  : option Image :=
  match image with Some i => f i | None => None end.


Section Chain.

Variable exp' : Q -> Q.

(** "Calculate spectral vegetation indices": what the ten mapped functions
    do to one image of the collection. *)
Definition spectralIndexes (image : Image) : option Image :=
  let image := divideBy10000 image in
  let image := andThen image getCAI in
  let image := andThen image getEVI2 in
  let image := andThen image getGCVI in
  let image := andThen image (getHallCover exp') in
  let image := andThen image (getHallHeigth exp') in
  let image := andThen image getNDVI in
  let image := andThen image getNDWI in
  let image := andThen image getPRI in
  let image := andThen image getSAVI in
  andThen image multiplyBy10000.

End Chain.

End DriverBands.

(* ------------------------------------------------------------------------ *)
(** ** Definitions used in the statements of further properties *)
(* ------------------------------------------------------------------------ *)

Module Statements.
Import EE.
Local Open Scope string_scope.



(** The band [name] of the image is unmasked at the pixel and reads [v]. *)
Definition reads (image : SpectralIndexes.Image) (name : string) (v : Q) : Prop :=
  SpectralIndexes.b image name = Some (Some v).

(** The bands of an image as a function of the band name, and the change
    of one band. *)
Definition upd (f : string -> option Px) (name : string) (v : Px)
  : string -> option Px :=
  fun m => if String.eqb name m then Some v else f m.

(** The fifteen bands that the index chain of the driver sets, in closed
    form, from the six reflectance bands (x 10000) of the pixel: the
    reflectances divided by 10000 and multiplied back, and each index
    computed on the divided values and multiplied by 10000. *)
Definition indexed (exp' : Q -> Q) (blue green red nir swir1 swir2 : Px)
  : list (string * Px) :=
  let unit (v : Px) : Px := lift1 (fun x => divide x 10000) v in
  let stored (v : Px) : Px := lift1 (fun x => x * 10000) v in
  let index2 (f : Q -> Q -> Q) (x y : Px) : Px := lift2 f (unit x) (unit y) in
  let index3 (f : Q -> Q -> Q -> Q) (x y z : Px) : Px :=
    match unit x, unit y, unit z with
    | Some x, Some y, Some z => Some (f x y z)
    | _, _, _ => None
    end in
  [ ("blue", stored (unit blue));
    ("red", stored (unit red));
    ("green", stored (unit green));
    ("nir", stored (unit nir));
    ("swir1", stored (unit swir1));
    ("swir2", stored (unit swir2));
    ("cai",
     stored (SpectralIndexes.add 1
               (index2 (fun swir2 swir1 => divide swir2 swir1) swir2 swir1)));
    ("evi2",
     stored (SpectralIndexes.add 1
               (index2 (fun nir red =>
                          divide ((25 # 10) * (nir - red))
                                 (nir + (24 # 10) * red + 1)) nir red)));
    ("gcvi",
     stored (SpectralIndexes.add 1
               (index2 (fun nir green => divide nir green - 1) nir green)));
    ("hallcover",
     stored (lift1 exp'
               (index3 (fun red nir swir2 =>
                          (- red * (17 # 1000)) - (nir * (7 # 1000))
                          - (swir2 * (79 # 1000)) + (522 # 100))
                       red nir swir2)));
    ("hallheigth",
     stored (lift1 exp'
               (index3 (fun red nir swir1 =>
                          (- red * (39 # 1000)) - (nir * (11 # 1000))
                          - (swir1 * (26 # 1000)) + (413 # 100))
                       red nir swir1)));
    ("ndvi",
     stored (SpectralIndexes.add 1
               (index2 (fun nir red => divide (nir - red) (nir + red))
                       nir red)));
    ("ndwi",
     stored (SpectralIndexes.add 1
               (index2 (fun nir swir1 => divide (nir - swir1) (nir + swir1))
                       nir swir1)));
    ("pri",
     stored (SpectralIndexes.add 1
               (index2 (fun blue green => divide (blue - green) (blue + green))
                       blue green)));
    ("savi",
     stored (SpectralIndexes.add 1
               (index2 (fun nir red =>
                          divide ((15 # 10) * (nir - red))
                                 ((5 # 10) + nir + red)) nir red))) ].


(** No name occurs twice. *)
Fixpoint distinct (names : list string) : bool :=
  match names with
  | [] => true
  | n :: rest => negb (Collection.inList n rest) && distinct rest
  end.


(** The bands of a vegetated pixel of the tile collection (reflectance x
    10000), with its QA value and one fraction index. *)
Definition vegetated_pixel : SpectralIndexes.Image :=
  [("blue", Some 300); ("green", Some 600); ("red", Some 400);
   ("nir", Some 3000); ("swir1", Some 1500); ("swir2", Some 700);
   ("pixel_qa", Some 21824); ("ndfi", Some 180)].

(** The output collection already holds the mosaics of tiles A and B. *)
Definition full_sink (j : Driver.Job) (w : unit)
  : unit * (Driver.exn + list string) :=
  (tt, inr ["MATAATLANTICA-SC-20-Y-A-2025-L8-1";
            "MATAATLANTICA-SF-23-V-B-2025-L8-1"]).

(** A Landsat scene taken with the sun due north: SUN_AZIMUTH is 0. *)
Definition north_sun : Collection.Scene :=
  Collection.mkScene "LC08_226080_20200620" 1592654400000
    [("CLOUD_COVER", Collection.Num 10);
     ("DATE_ACQUIRED", Collection.Str "2020-06-20");
     ("SPACECRAFT_ID", Collection.Str "LANDSAT_8");
     ("SUN_AZIMUTH", Collection.Num 0);
     ("SUN_ELEVATION", Collection.Num 40)]
    [("SR_B2", 8000); ("ST_B10", 44000); ("QA_PIXEL", 21824)].

(** A Landsat surface-reflectance image whose QA band has the cloud and
    the cloud-shadow bits (3 and 4) set everywhere. *)
Definition flagged : CloudAndShadowMaskC2.Image :=
  CloudAndShadowMaskC2.mkImage
    (fun _ => Some (mkReflectance 500 500 500 3000 2000 1000))
    (fun _ => Some 24%Z)
    [] "LANDSAT_8" "SR" (Some 180%R) (Some 45%R) 30%R.

End Statements.

(* ------------------------------------------------------------------------ *)
(** ** Casts and normalized differences *)
(* ------------------------------------------------------------------------ *)

Section Casts.
Import EE.

Lemma Qle_bool_false (a b : Q) : Qle_bool a b = false <-> b < a.
Proof.
  split; intro H.
  - apply Qnot_le_lt. intro Hle. apply Qle_bool_iff in Hle. congruence.
  - destruct (Qle_bool a b) eqn:E; [|reflexivity].
    apply Qle_bool_iff in E. exfalso. apply (Qlt_not_le _ _ H E).
Qed.

Lemma lt_true (a b : Q) : lt a b = true <-> a < b.
Proof.
  unfold lt. rewrite negb_true_iff. apply Qle_bool_false.
Qed.

Lemma lt_false (a b : Q) : lt a b = false <-> b <= a.
Proof.
  unfold lt. rewrite negb_false_iff. apply Qle_bool_iff.
Qed.

Lemma Qtrunc_nonneg (q : Q) : 0 <= q -> Qtrunc q = Qfloor q.
Proof.
  intro H. unfold Qtrunc. apply Qle_bool_iff in H. now rewrite H.
Qed.

Lemma Qfloor_nonneg (q : Q) : 0 <= q -> (0 <= Qfloor q)%Z.
Proof.
  intro H. change 0%Z with (Qfloor 0). now apply Qfloor_resp_le.
Qed.

Lemma byte_range (q : Q) : (0 <= byte q <= 255)%Z.
Proof. unfold byte. lia. Qed.

(** Below 256 and not negative, the cast is the integer part. *)
Lemma byte_floor (q : Q) : 0 <= q -> q < 256 -> byte q = Qfloor q.
Proof.
  intros H0 H1. unfold byte. rewrite (Qtrunc_nonneg _ H0).
  pose proof (Qfloor_nonneg _ H0) as Hf.
  assert (Qfloor q < 256)%Z.
  { apply Z.lt_nge. intro Hc.
    pose proof (Qfloor_le q) as Hle.
    assert (inject_Z 256 <= inject_Z (Qfloor q)) as Hi
      by (rewrite <- Zle_Qle; exact Hc).
    apply (Qlt_not_le _ _ H1). eapply Qle_trans; [exact Hi | exact Hle]. }
  lia.
Qed.

Lemma byte_negative (q : Q) : q <= 0 -> byte q = 0%Z.
Proof.
  intro H. unfold byte, Qtrunc.
  destruct (Qle_bool 0 q) eqn:E.
  - apply Qle_bool_iff in E.
    assert (q == 0) as Hq by (apply Qle_antisym; assumption).
    rewrite Hq. reflexivity.
  - assert (Qceiling q <= 0)%Z.
    { change 0%Z with (Qceiling 0). now apply Qceiling_resp_le. }
    lia.
Qed.



(** A normalized difference of non-negative values lies in [-1, 1]. *)
Lemma nd_range (a b : Q) :
  0 <= a -> 0 <= b -> -1 <= (a - b) / (a + b) /\ (a - b) / (a + b) <= 1.
Proof.
  intros Ha Hb.
  destruct (Qeq_dec (a + b) 0) as [E|E].
  - assert ((a - b) / (a + b) == 0) as Hz.
    { unfold Qdiv. rewrite E. change (/ 0) with 0. ring. }
    rewrite Hz. split; discriminate.
  - assert (0 < a + b) as Hpos.
    { apply Qle_lt_or_eq in Ha. apply Qle_lt_or_eq in Hb.
      destruct Ha as [Ha|Ha], Hb as [Hb|Hb]; lra. }
    split.
    + apply Qle_shift_div_l; [exact Hpos | lra].
    + apply Qle_shift_div_r; [exact Hpos | lra].
Qed.

Lemma normalizedDifference_nonneg (a b : Q) :
  0 <= a -> 0 <= b -> normalizedDifference a b = Some ((a - b) / (a + b)).
Proof.
  intros Ha Hb. unfold normalizedDifference, divide.
  apply Qle_bool_iff in Ha. apply Qle_bool_iff in Hb.
  now rewrite Ha, Hb.
Qed.

End Casts.

(* ------------------------------------------------------------------------ *)
(** ** Spectral unmixing and the fraction indices *)
(* ------------------------------------------------------------------------ *)

Section Fractions.
Import EE SmaAndNdfi Examples.

(** The endmember rows are linearly independent: the unmixing is the
    solution of the normal equations. *)
Lemma ENDMEMBERS_landsat_regular :
  Qeq_bool (det 4 (gram ENDMEMBERS_landsat)) 0 = false.
Proof. vm_compute. reflexivity. Qed.

(** For every pixel the unmixing solves the normal equations
    [(E E^T) x = E p] of the least-squares problem. *)
Lemma unmix_normal_equations (p1 p2 p3 p4 p5 p6 : Q) :
  exists x,
    unmix ENDMEMBERS_landsat [p1; p2; p3; p4; p5; p6] = Some x
    /\ Forall2 Qeq (map (fun row => dot row x) (gram ENDMEMBERS_landsat))
                   (project ENDMEMBERS_landsat [p1; p2; p3; p4; p5; p6]).
Proof.
  unfold unmix. cbv zeta.
  change (List.length ENDMEMBERS_landsat) with 4%nat.
  rewrite ENDMEMBERS_landsat_regular.
  eexists. split; [reflexivity|].
  set (d := det 4 (gram ENDMEMBERS_landsat)).
  cbn [seq map].
  repeat constructor; unfold d; cbn -[Qplus Qmult Qdiv Qopp Qeq]; field;
    vm_compute; discriminate.
Qed.

(** What the casts of getFractions do guarantee: five bytes. *)
Lemma getFractions_bytes (image : Reflectance) (E : list (list Q)) (f : Fractions) :
  getFractions image E = Some f ->
  (0 <= gv f <= 255)%Z /\ (0 <= npv f <= 255)%Z /\ (0 <= soil f <= 255)%Z /\
  (0 <= cloud f <= 255)%Z /\ (0 <= shade f <= 255)%Z.
Proof.
  unfold getFractions.
  destruct (unmix E (spectrum image)) as [[|a [|b [|c [|d [|e l]]]]]|];
    try discriminate.
  intro H. injection H as <-. cbn [gv npv soil cloud shade].
  repeat split; apply byte_range.
Qed.

(** C1.  getFractions does not keep the fractions within [0, 100]: only
    negative unmixing solutions are clamped, so a pixel brighter than an
    endmember gets a fraction above 100 (cloud = 110 for [bright_cloud]),
    and the shade band is cut at 255, not at 100 (shade = 155 for
    [bright_mixture], whose gv, npv and soil are 85 each).  The
    documentation of the function and the claim exclude both. *)
Theorem getFractions_cloud_above_100 :
  getFractions bright_cloud ENDMEMBERS_landsat
  = Some (mkFractions 0 0 0 110 100)
  /\ getFractions bright_mixture ENDMEMBERS_landsat
     = Some (mkFractions 85 85 85 0 155)
  /\ ~ (110 <= 100)%Z /\ ~ (155 <= 100)%Z.
Proof.
  split; [vm_compute; reflexivity|].
  split; [vm_compute; reflexivity|].
  split; lia.
Qed.


Lemma inject_Z_nonneg (z : Z) : (0 <= z)%Z -> 0 <= inject_Z z.
Proof. intro H. change 0 with (inject_Z 0). now rewrite <- Zle_Qle. Qed.





End Fractions.

(* ------------------------------------------------------------------------ *)
(** ** The spectral cloud score *)
(* ------------------------------------------------------------------------ *)

Section CloudScore.
Import EE CloudAndShadowMaskC2.






End CloudScore.

(* ------------------------------------------------------------------------ *)
(** ** Metadata normalization and the cloud-cover filter *)
(* ------------------------------------------------------------------------ *)

Section Metadata.
Import EE Collection.
Local Open Scope string_scope.

Variable format_date : option value -> option value.

Lemma get_set_other (props : Props) (n m : string) (v : option value) :
  String.eqb n m = false -> get (set props n v) m = get props m.
Proof.
  intro Hnm. destruct v as [x|]; simpl.
  - now rewrite Hnm.
  - induction props as [|[k y] rest IH]; simpl; [reflexivity|].
    destruct (String.eqb k n) eqn:Ekn; simpl.
    + apply String.eqb_eq in Ekn. subst k. now rewrite Hnm.
    + now rewrite IH.
Qed.

Lemma properties_map_bands sel f image :
  properties (map_bands sel f image) = properties image.
Proof. reflexivity. Qed.

Lemma cloud_cover_normalize ctype sf image :
  Spec.cloud_cover (Spec.normalize format_date ctype sf image)
  = Spec.cloud_cover (setProperties format_date image).
Proof.
  unfold Spec.cloud_cover, Spec.normalize.
  assert (forall img,
             get (properties (set_property img "reflectance" (Some (Str ctype))))
                 "cloud_cover" = get (properties img) "cloud_cover") as H
      by reflexivity.
  destruct sf; [destruct (String.eqb ctype "TOA")|];
    unfold applyScaleFactorsTOA, applyScaleFactors;
    rewrite ?properties_map_bands; apply H.
Qed.

(** getCollection as a chain of filters over the normalized scenes. *)
Lemma getCollection_In source today ctype dateStart dateEnd cloudCover
      trashList geometry sf image' :
  In image' (getCollection format_date source today ctype dateStart dateEnd
                           cloudCover trashList geometry sf)
  <-> exists image,
      In image source
      /\ image' = Spec.normalize format_date ctype sf image
      /\ in_dates dateStart (match dateEnd with None => today | Some d => d end)
                  image = true
      /\ match geometry with Some g => g image' = true | None => True end
      /\ match trashList with
         | Some trash => inList (system_index image') trash = false
         | None => True
         end
      /\ less_than "cloud_cover" cloudCover image' = true.
Proof.
  unfold getCollection.
  set (stop := match dateEnd with None => today | Some d => d end).
  set (c0 := map _ (map (setProperties format_date)
                        (filter (in_dates dateStart stop) source))).
  set (c1 := if sf then _ else c0).
  assert (forall x, In x c1 <->
                    exists image, In image source
                                  /\ x = Spec.normalize format_date ctype sf image
                                  /\ in_dates dateStart stop image = true) as H1.
  { intro x. unfold c1, c0, Spec.normalize.
    destruct sf; [destruct (String.eqb ctype "TOA")|];
      rewrite ?in_map_iff; split.
    all: try (intros [y [<- Hy]]; apply in_map_iff in Hy;
              destruct Hy as [z [<- Hz]]; apply in_map_iff in Hz;
              destruct Hz as [w [<- Hw]]; apply filter_In in Hw;
              exists w; intuition).
    all: try (intros [y [<- Hy]]; apply in_map_iff in Hy;
              destruct Hy as [w [<- Hw]]; apply filter_In in Hw;
              exists w; intuition).
    all: intros [w [Hin [-> Hd]]].
    1,2: eexists; split; [reflexivity|]; apply in_map_iff;
         eexists; split; [reflexivity|]; apply in_map_iff;
         exists w; split; [reflexivity|]; apply filter_In; auto.
    eexists; split; [reflexivity|]; apply in_map_iff;
      exists w; split; [reflexivity|]; apply filter_In; auto. }
  rewrite filter_In.
  destruct trashList as [trash|], geometry as [g|];
    rewrite ?filter_In, H1, ?negb_true_iff;
    split; intros; repeat match goal with
                          | H : _ /\ _ |- _ => destruct H
                          | H : exists _, _ |- _ => destruct H
                          end; subst; eauto 12.
Qed.

Lemma retained_cloud_cover source today ctype dateStart dateEnd cloudCover
      trashList geometry sf image' :
  In image' (getCollection format_date source today ctype dateStart dateEnd
                           cloudCover trashList geometry sf) ->
  exists q, Spec.cloud_cover image' = Some (Num q) /\ q < cloudCover.
Proof.
  intro Hin. apply getCollection_In in Hin.
  destruct Hin as [image [_ [_ [_ [_ [_ Hlt]]]]]].
  unfold less_than in Hlt. unfold Spec.cloud_cover.
  destruct (get (properties image') "cloud_cover") as [[q|s]|];
    try discriminate.
  exists q. split; [reflexivity|]. now apply lt_true.
Qed.


(** C10.  The cloud-cover filter of getCollection is strict: every scene it
    returns has a numeric cloud_cover below the ceiling, and a scene whose
    normalized cloud_cover equals the ceiling (100 included, the default) is
    not returned. *)
Theorem getCollection_cloud_cover_strict source today ctype dateStart dateEnd
        cloudCover trashList geometry sf :
  let out := getCollection format_date source today ctype dateStart dateEnd
                           cloudCover trashList geometry sf in
  (forall image', In image' out ->
     exists q, Spec.cloud_cover image' = Some (Num q) /\ q < cloudCover)
  /\ (forall image q,
        Spec.cloud_cover (setProperties format_date image) = Some (Num q) ->
        q == cloudCover ->
        ~ In (Spec.normalize format_date ctype sf image) out).
Proof.
  intro out. split.
  - intros image' Hin. exact (retained_cloud_cover _ _ _ _ _ _ _ _ _ _ Hin).
  - intros image q Hcc Heq Hin.
    destruct (retained_cloud_cover _ _ _ _ _ _ _ _ _ _ Hin) as [q' [Hq' Hlt]].
    rewrite cloud_cover_normalize, Hcc in Hq'. injection Hq' as <-.
    rewrite Heq in Hlt. exact (Qlt_irrefl _ Hlt).
Qed.


End Metadata.

Section MetadataExamples.
Import EE Collection Examples.
Local Open Scope string_scope.

Lemma getCollection_cloud_cover_strict_witness :
  Spec.cloud_cover (setProperties keep_date overcast) = Some (Num 100)
  /\ 100 == 100
  /\ ~ In (Spec.normalize keep_date "SR" true overcast)
          (getCollection keep_date [overcast; no_azimuth] 1600000000000 "SR"
                         0 None 100 None None true).
Proof.
  split; [reflexivity|]. split; [reflexivity|].
  apply (proj2 (getCollection_cloud_cover_strict keep_date
                  [overcast; no_azimuth] 1600000000000 "SR" 0 None 100
                  None None true) overcast 100); reflexivity.
Defined.



End MetadataExamples.

(* ------------------------------------------------------------------------ *)
(** ** The main loop and its exception handler *)
(* ------------------------------------------------------------------------ *)

Section Loop.
Import Driver.

Variable World : Type.
Variable listOutputs : Job -> World -> World * (exn + list string).
Variable buildAndExport : Job -> World -> World * option exn.
Variable version : string -> string.



Lemma attempts_app (a b : list event) :
  attempts (a ++ b) = (attempts a ++ attempts b)%list.
Proof. unfold attempts. apply flat_map_app. Qed.



End Loop.

Section LoopExamples.
Import Driver Examples.



End LoopExamples.

(* ------------------------------------------------------------------------ *)
(** ** Percentile compositing *)
(* ------------------------------------------------------------------------ *)

Section Compositing.
Import EE Mosaic Examples.
Local Open Scope string_scope.

Variable percentile : Q -> list Q -> option Q.
Variable median : list Q -> option Q.
Variable stdDev : list Q -> option Q.






End Compositing.

Section CompositingExamples.
Import EE Mosaic Examples.
Local Open Scope string_scope.


End CompositingExamples.

(* ------------------------------------------------------------------------ *)
(** ** The valid-pixel mask *)
(* ------------------------------------------------------------------------ *)

Section ValidMask.
Import EE CloudAndShadowMaskC2 Driver Examples.
Local Open Scope string_scope.

Lemma lookup_app (name : string) (l1 l2 : list (string * Raster Z)) :
  lookup name (l1 ++ l2)
  = match lookup name l1 with Some b => Some b | None => lookup name l2 end.
Proof.
  induction l1 as [|[n b] rest IH]; simpl; [reflexivity|].
  destruct (String.eqb n name); [reflexivity | exact IH].
Qed.












End ValidMask.

(* ------------------------------------------------------------------------ *)
(** ** The temporal dark-outlier mask *)
(* ------------------------------------------------------------------------ *)

Section Tdom.
Import EE CloudAndShadowMaskC2 Examples.
Local Open Scope string_scope.

Lemma lt_real (a b : Q) : lt a b = true <-> (Q2R a < Q2R b)%R.
Proof.
  rewrite lt_true. split; [apply Qlt_Rlt | apply Rlt_Qlt].
Qed.

Lemma lt_real_false (a b : Q) : lt a b = false <-> (Q2R b <= Q2R a)%R.
Proof.
  rewrite lt_false. split; [apply Qle_Rle | apply Rle_Qle].
Qed.

Lemma sq_lt_neg (a b : R) : (a < 0 -> b < 0 -> (b * b < a * a <-> a < b))%R.
Proof.
  intros Ha Hb. split; intro H.
  - destruct (Rlt_le_dec a b) as [Hlt|Hle]; [exact Hlt|]. exfalso. nra.
  - nra.
Qed.

Lemma sq_lt_pos (a b : R) : (0 <= a -> 0 < b -> (a * a < b * b <-> a < b))%R.
Proof.
  intros Ha Hb. split; intro H.
  - destruct (Rlt_le_dec a b) as [Hlt|Hle]; [exact Hlt|]. exfalso. nra.
  - nra.
Qed.

Lemma zScore_lt_real (v m var t : Q) :
  0 <= var ->
  (zScore_lt v m var t = true
   <-> ((Q2R v - Q2R m) / sqrt (Q2R var) < Q2R t)%R).
Proof.
  intro Hvar. unfold zScore_lt.
  assert (Q2R 0 = 0%R) as Q0 by (unfold Q2R; simpl; lra).
  destruct (Qeq_bool var 0) eqn:Ev.
  - apply Qeq_bool_iff in Ev. apply Qeq_eqR in Ev. rewrite Ev, Q0, sqrt_0.
    unfold Rdiv. rewrite Rinv_0, Rmult_0_r. rewrite lt_real, Q0. tauto.
  - apply Qeq_bool_neq in Ev.
    assert (0 < Q2R var)%R as HV.
    { rewrite <- Q0. apply Qlt_Rlt. apply Qle_lt_or_eq in Hvar.
      destruct Hvar as [H|H]; [exact H|]. elim Ev. symmetry. exact H. }
    pose proof (sqrt_lt_R0 _ HV) as Hs.
    pose proof (sqrt_sqrt (Q2R var) (Rlt_le _ _ HV)) as Hss.
    set (s := sqrt (Q2R var)) in *.
    assert (forall x y : R, (x / s < y <-> x < y * s)%R) as Hdiv.
    { intros x y. split; intro H.
      - apply (Rmult_lt_compat_r s) in H; [|exact Hs].
        unfold Rdiv in H. rewrite Rmult_assoc, Rinv_l in H; lra.
      - apply (Rmult_lt_reg_r s); [exact Hs|].
        unfold Rdiv. rewrite Rmult_assoc, Rinv_l; lra. }
    rewrite Hdiv.
    destruct (lt (v - m) 0) eqn:Ed.
    + apply lt_real in Ed. rewrite Q2R_minus, Q0 in Ed.
      destruct (lt t 0) eqn:Et.
      * apply lt_real in Et. rewrite Q0 in Et.
        rewrite lt_real, !Q2R_mult, Q2R_minus. rewrite <- Hss.
        replace (Q2R t * Q2R t * (s * s))%R
          with ((Q2R t * s) * (Q2R t * s))%R by ring.
        apply sq_lt_neg; nra.
      * apply lt_real_false in Et. rewrite Q0 in Et.
        split; [intros _; nra | reflexivity].
    + apply lt_real_false in Ed. rewrite Q2R_minus, Q0 in Ed.
      destruct (lt 0 t) eqn:Et.
      * apply lt_real in Et. rewrite Q0 in Et.
        rewrite lt_real, !Q2R_mult, Q2R_minus. rewrite <- Hss.
        replace (Q2R t * Q2R t * (s * s))%R
          with ((Q2R t * s) * (Q2R t * s))%R by ring.
        apply sq_lt_pos; nra.
      * apply lt_real_false in Et. rewrite Q0 in Et.
        split; [discriminate | intro H; exfalso; nra].
Qed.

Lemma sum_app (a b : list Q) : sum (a ++ b) == sum a + sum b.
Proof.
  induction a as [|x rest IH]; simpl; [ring|]. rewrite IH. ring.
Qed.

Lemma sum_repeat (x : Q) (k : nat) :
  sum (repeat x k) == inject_Z (Z.of_nat k) * x.
Proof.
  induction k as [|k IH]; [simpl; ring|].
  rewrite Nat2Z.inj_succ. unfold Z.succ. rewrite inject_Z_plus.
  simpl repeat. simpl sum. rewrite IH. ring.
Qed.

Lemma sum_nonneg (xs : list Q) : Forall (fun x => 0 <= x) xs -> 0 <= sum xs.
Proof.
  induction 1 as [|x rest Hx _ IH]; simpl; [discriminate|]. lra.
Qed.

Lemma variance_nonneg (xs : list Q) (v : Q) : variance xs = Some v -> 0 <= v.
Proof.
  unfold variance. destruct (mean xs) as [m|]; [|discriminate].
  intro H. injection H as <-. unfold count.
  set (S := sum _).
  assert (0 <= S) as HS.
  { apply sum_nonneg. apply Forall_map. apply Forall_forall. intros x _. cbv beta.
    generalize (x - m). intro a. nra. }
  assert (0 <= inject_Z (Z.of_nat (List.length xs))) as Hc
      by (apply inject_Z_nonneg; lia).
  apply Qle_lt_or_eq in Hc. destruct Hc as [Hc|Hc].
  - apply Qle_shift_div_l; [exact Hc | lra].
  - unfold Qdiv. rewrite <- Hc. change (/ 0) with 0. lra.
Qed.

(** The value of the dark-outlier test at an unmasked pixel. *)
Lemma darkOutliers_value (collection : list Image) (z s : Q) (image : Image)
      (p : Z * Z) (r : Reflectance) (m1 v1 m2 v2 : Q) :
  optical image p = Some r ->
  mean (values_at nir collection p) = Some m1 ->
  variance (values_at nir collection p) = Some v1 ->
  mean (values_at swir1 collection p) = Some m2 ->
  variance (values_at swir1 collection p) = Some v2 ->
  darkOutliers collection z s image p
  = Some (b2z (zScore_lt (nir r) m1 v1 z && zScore_lt (swir1 r) m2 v2 z
               && lt (nir r + swir1 r) s)).
Proof.
  intros Hr H1 H2 H3 H4. unfold darkOutliers. rewrite Hr, H1, H2, H3, H4.
  destruct (zScore_lt (nir r) m1 v1 z), (zScore_lt (swir1 r) m2 v2 z),
    (lt (nir r + swir1 r) s); reflexivity.
Qed.

(** A filter over a band that reads the same everywhere. *)
Lemma fold_min_same (c : Z) (l : list Z) :
  Forall (fun x => x = c) l -> fold_right Z.min c l = c.
Proof.
  induction 1 as [|x rest -> _ IH]; simpl; [reflexivity|]. rewrite IH. lia.
Qed.

Lemma neighbours_constant {A : Type} (img : Raster A) (c : A) (r : Z) (p : Z * Z) :
  (forall q, img q = Some c) -> Forall (fun x => x = c) (neighbours img r p).
Proof.
  intro H. unfold neighbours. induction (kernel r) as [|d rest IH]; simpl.
  - constructor.
  - rewrite H. simpl. constructor; [reflexivity | exact IH].
Qed.

Lemma focal_min_constant (img : Raster Z) (c : Z) (r : Z) (p : Z * Z) :
  (forall q, img q = Some c) -> focal_min img r p = Some c.
Proof.
  intro H. unfold focal_min. rewrite H. f_equal.
  apply fold_min_same. now apply neighbours_constant.
Qed.

(** Statistics of nine equal values and one other. *)
Section NineAndOne.

Variables (k : nat) (v v' : Q).
Hypothesis Hk : (k <= 9)%nat.
Hypothesis Hlow : v' < v.

Lemma ten_length : List.length (Spec.ten k v v') = 10%nat.
Proof.
  unfold Spec.ten. rewrite length_app. cbn [List.length].
  rewrite !repeat_length. lia.
Qed.

Lemma ten_mean : mean (Spec.ten k v v') = Some (sum (Spec.ten k v v') / count (Spec.ten k v v')).
Proof.
  unfold mean. pose proof ten_length as H.
  destruct (Spec.ten k v v'); [discriminate H | reflexivity].
Qed.

Lemma nine_split :
  inject_Z (Z.of_nat k) + inject_Z (Z.of_nat (9 - k)) == 9.
Proof.
  rewrite <- inject_Z_plus, <- Nat2Z.inj_add.
  replace (k + (9 - k))%nat with 9%nat by lia. reflexivity.
Qed.

Lemma ten_count : count (Spec.ten k v v') = 10.
Proof. unfold count. rewrite ten_length. reflexivity. Qed.

Lemma ten_sum : sum (Spec.ten k v v') == 9 * v + v'.
Proof.
  unfold Spec.ten. rewrite sum_app. simpl sum. rewrite !sum_repeat.
  pose proof nine_split as H.
  setoid_replace (inject_Z (Z.of_nat k) * v + (v' + inject_Z (Z.of_nat (9 - k)) * v))
    with ((inject_Z (Z.of_nat k) + inject_Z (Z.of_nat (9 - k))) * v + v') by ring.
  rewrite H. reflexivity.
Qed.

Lemma ten_mean_value : sum (Spec.ten k v v') / count (Spec.ten k v v') == (9 * v + v') * (1 # 10).
Proof.
  rewrite ten_count, ten_sum. unfold Qdiv. change (/ 10) with (1 # 10).
  reflexivity.
Qed.

Lemma ten_variance_value (m : Q) :
  m == (9 * v + v') * (1 # 10) ->
  sum (map (fun x => (x - m) * (x - m)) (Spec.ten k v v')) / count (Spec.ten k v v')
  == (9 # 100) * ((v - v') * (v - v')).
Proof.
  intro Hm. rewrite ten_count. unfold Spec.ten.
  rewrite map_app. simpl map. rewrite !map_repeat.
  rewrite sum_app. simpl sum. rewrite !sum_repeat.
  pose proof nine_split as H.
  setoid_replace (inject_Z (Z.of_nat k) * ((v - m) * (v - m))
                  + ((v' - m) * (v' - m)
                     + inject_Z (Z.of_nat (9 - k)) * ((v - m) * (v - m))))
    with ((inject_Z (Z.of_nat k) + inject_Z (Z.of_nat (9 - k)))
          * ((v - m) * (v - m)) + (v' - m) * (v' - m)) by ring.
  rewrite H, Hm. unfold Qdiv. change (/ 10) with (1 # 10). ring.
Qed.

(** The z-score test at threshold -1: the low value passes, the nine others
    do not. *)
Lemma ten_zScore :
  exists m var,
    mean (Spec.ten k v v') = Some m /\ variance (Spec.ten k v v') = Some var
    /\ zScore_lt v' m var (-1) = true
    /\ zScore_lt v m var (-1) = false.
Proof.
  exists (sum (Spec.ten k v v') / count (Spec.ten k v v')).
  exists (sum (map (fun x => (x - sum (Spec.ten k v v') / count (Spec.ten k v v')) * (x - sum (Spec.ten k v v') / count (Spec.ten k v v')))
                   (Spec.ten k v v')) / count (Spec.ten k v v')).
  split; [exact ten_mean|].
  split; [unfold variance; rewrite ten_mean; reflexivity|].
  pose proof ten_mean_value as Hm.
  pose proof (ten_variance_value _ Hm) as Hv.
  set (m := sum (Spec.ten k v v') / count (Spec.ten k v v')) in *.
  set (var := sum (map (fun x => (x - m) * (x - m)) (Spec.ten k v v')) / count (Spec.ten k v v')) in *.
  assert (0 < (v - v') * (v - v')) as Hsq.
  { assert (0 < v - v') as Hd by lra. revert Hd. generalize (v - v').
    intros a Ha. nra. }
  assert (Qeq_bool var 0 = false) as Hne.
  { destruct (Qeq_bool var 0) eqn:E; [|reflexivity].
    apply Qeq_bool_iff in E. rewrite Hv in E. lra. }
  unfold zScore_lt. rewrite Hne. split.
  - assert (lt (v' - m) 0 = true) as -> by (apply lt_true; rewrite Hm; lra).
    assert (lt (-1) 0 = true) as -> by reflexivity.
    apply lt_true. rewrite Hv, Hm.
    setoid_replace ((v' - (9 * v + v') * (1 # 10)) * (v' - (9 * v + v') * (1 # 10)))
      with ((81 # 100) * ((v - v') * (v - v'))) by ring.
    lra.
  - assert (lt (v - m) 0 = false) as -> by (apply lt_false; rewrite Hm; lra).
    reflexivity.
Qed.

End NineAndOne.

Lemma values_at_app (band : Reflectance -> Q) (l1 l2 : list Image) (p : Z * Z) :
  values_at band (l1 ++ l2) p = (values_at band l1 p ++ values_at band l2 p)%list.
Proof. unfold values_at. apply flat_map_app. Qed.

Lemma values_at_repeat (band : Reflectance -> Q) (image : Image) (r : Reflectance)
      (k : nat) (p : Z * Z) :
  optical image p = Some r ->
  values_at band (repeat image k) p = repeat (band r) k.
Proof.
  intro H. induction k as [|k IH]; [reflexivity|].
  simpl repeat. unfold values_at in *. simpl flat_map. rewrite H, IH.
  reflexivity.
Qed.

Lemma values_at_nine_and_one (band : Reflectance -> Q) (k : nat)
      (n s n' s' : Q) (p : Z * Z) :
  values_at band (nine_and_one k n s n' s') p
  = Spec.ten k (band (mkReflectance 0 0 0 n s 0))
             (band (mkReflectance 0 0 0 n' s' 0)).
Proof.
  unfold nine_and_one, Spec.ten.
  rewrite values_at_app.
  change (flat n' s' :: repeat (flat n s) (9 - k))
    with (([flat n' s'] ++ repeat (flat n s) (9 - k))%list).
  rewrite values_at_app.
  rewrite !(values_at_repeat band (flat n s) (mkReflectance 0 0 0 n s 0))
    by reflexivity.
  reflexivity.
Qed.

Lemma nth_error_nine_and_one {A : Type} (a b : A) (k i : nat) :
  (k <= 9)%nat -> (i <= 9)%nat ->
  nth_error (repeat a k ++ b :: repeat a (9 - k)) i
  = Some (if (i =? k)%nat then b else a).
Proof.
  intros Hk Hi. destruct (Nat.eqb_spec i k) as [->|Hne].
  - rewrite nth_error_app2 by (rewrite repeat_length; lia).
    rewrite repeat_length, Nat.sub_diag. reflexivity.
  - destruct (Nat.lt_ge_cases i k) as [Hlt|Hge].
    + rewrite nth_error_app1 by (rewrite repeat_length; lia).
      apply nth_error_repeat. exact Hlt.
    + rewrite nth_error_app2 by (rewrite repeat_length; lia).
      rewrite repeat_length.
      destruct (i - k)%nat as [|j] eqn:E; [lia|]. cbn [nth_error].
      apply nth_error_repeat. lia.
Qed.

(** The dark-outlier test over nine scenes that agree and a darker one. *)
Lemma darkOutliers_nine_and_one (k : nat) (n s n' s' : Q) (p : Z * Z) :
  (k <= 9)%nat -> n' + s' == 1000 -> n' < n -> s' < s ->
  darkOutliers (nine_and_one k n s n' s') (-1) 5000 (flat n' s') p = Some 1%Z
  /\ darkOutliers (nine_and_one k n s n' s') (-1) 5000 (flat n s) p = Some 0%Z.
Proof.
  intros Hk Hsum Hn Hs.
  destruct (ten_zScore k n n' Hk Hn) as [m1 [v1 [Hm1 [Hv1 [Hz1 Hz1']]]]].
  destruct (ten_zScore k s s' Hk Hs) as [m2 [v2 [Hm2 [Hv2 [Hz2 Hz2']]]]].
  split.
  - rewrite (darkOutliers_value _ _ _ _ p (mkReflectance 0 0 0 n' s' 0)
                                m1 v1 m2 v2);
      try reflexivity; try (rewrite values_at_nine_and_one; assumption).
    cbn [nir swir1]. rewrite Hz1, Hz2.
    assert (lt (n' + s') 5000 = true) as -> by (apply lt_true; lra).
    reflexivity.
  - rewrite (darkOutliers_value _ _ _ _ p (mkReflectance 0 0 0 n s 0)
                                m1 v1 m2 v2);
      try reflexivity; try (rewrite values_at_nine_and_one; assumption).
    cbn [nir swir1]. rewrite Hz1'. reflexivity.
Qed.

(** C3 (as amended).  tdom adds to each scene the local minimum, over a
    window of radius dilatePixels, of the dark-outlier test; the test holds
    at a pixel exactly when the temporal z-score of the scene is below the
    threshold in both nir and swir1 and nir + swir1 is below the darkness
    threshold.  Given nine scenes that agree in nir and in swir1 (summing to
    8000) and one scene that is lower in each of the two bands (summing to
    1000), all reading the same over the window, with shadowSumThresh = 5000
    and zScoreThresh = -1, exactly the darker scene is flagged. *)
Theorem tdom_flags_dark_outliers :
  (forall collection z s d,
      tdom collection z s d
      = map (fun image =>
               addBands image "tdomMask"
                        (focal_min (darkOutliers collection z s image) d))
            collection)
  /\ (forall collection z s image p r m1 v1 m2 v2,
        optical image p = Some r ->
        mean (values_at nir collection p) = Some m1 ->
        variance (values_at nir collection p) = Some v1 ->
        mean (values_at swir1 collection p) = Some m2 ->
        variance (values_at swir1 collection p) = Some v2 ->
        (darkOutliers collection z s image p = Some 1%Z
         \/ darkOutliers collection z s image p = Some 0%Z)
        /\ (darkOutliers collection z s image p = Some 1%Z
            <-> ((Q2R (nir r) - Q2R m1) / sqrt (Q2R v1) < Q2R z)%R
                /\ ((Q2R (swir1 r) - Q2R m2) / sqrt (Q2R v2) < Q2R z)%R
                /\ nir r + swir1 r < s))
  /\ (forall (k : nat) (n s n' s' : Q) (d : Z) (i : nat) (p : Z * Z),
        (k <= 9)%nat -> (i <= 9)%nat ->
        n + s == 8000 -> n' + s' == 1000 -> n' < n -> s' < s ->
        Spec.tdomMask_at (nine_and_one k n s n' s') (-1) 5000 d i p
        = Some (if (i =? k)%nat then 1%Z else 0%Z)).
Proof.
  split; [reflexivity|]. split.
  - intros collection z s image p r m1 v1 m2 v2 Hr H1 H2 H3 H4.
    rewrite (darkOutliers_value _ _ _ _ _ _ _ _ _ _ Hr H1 H2 H3 H4).
    rewrite <- (zScore_lt_real _ _ _ _ (variance_nonneg _ _ H2)).
    rewrite <- (zScore_lt_real _ _ _ _ (variance_nonneg _ _ H4)).
    rewrite <- lt_true.
    destruct (zScore_lt (nir r) m1 v1 z), (zScore_lt (swir1 r) m2 v2 z),
      (lt (nir r + swir1 r) s); simpl; split; auto;
      split; try discriminate; intuition discriminate.
  - intros k n s n' s' d i p Hk Hi _ Hsum Hn Hs.
    unfold Spec.tdomMask_at, tdom. rewrite nth_error_map.
    unfold nine_and_one at 2. rewrite (nth_error_nine_and_one _ _ _ _ Hk Hi).
    cbn [option_map]. unfold _maskDarkOutliers.
    assert (forall image m,
               mask_bands image = [] ->
               select (addBands image "tdomMask" m) "tdomMask" = Some m) as Hsel.
    { intros image m H. unfold select, addBands. cbn [mask_bands].
      rewrite H. reflexivity. }
    rewrite Hsel by (destruct (i =? k)%nat; reflexivity).
    destruct (darkOutliers_nine_and_one k n s n' s' p Hk Hsum Hn Hs) as [_ _].
    destruct (i =? k)%nat; apply focal_min_constant; intro q;
      apply (darkOutliers_nine_and_one k n s n' s' q Hk Hsum Hn Hs).
Qed.

Lemma tdom_flags_dark_outliers_witness :
  ((3 <= 9)%nat /\ 4000 + 4000 == 8000 /\ 500 + 500 == 1000 /\ 500 < 4000)
  /\ Spec.tdomMask_at (nine_and_one 3 4000 4000 500 500) (-1) 5000 2 3 (0, 0)%Z
     = Some 1%Z
  /\ Spec.tdomMask_at (nine_and_one 3 4000 4000 500 500) (-1) 5000 2 4 (0, 0)%Z
     = Some 0%Z.
Proof.
  split; [repeat split; try reflexivity; lia|].
  split.
  - apply (proj2 (proj2 tdom_flags_dark_outliers)
                 3%nat 4000 4000 500 500 2%Z 3%nat (0, 0)%Z);
      try reflexivity; lia.
  - apply (proj2 (proj2 tdom_flags_dark_outliers)
                 3%nat 4000 4000 500 500 2%Z 4%nat (0, 0)%Z);
      try reflexivity; lia.
Defined.

(** C3, counterexample.  Nine scenes with nir = 7000, swir1 = 1000 and a
    tenth with nir = 0, swir1 = 1000: the sums are 8000 and 1000, but swir1
    does not vary, its z-score is 0, and the tenth scene is not flagged. *)
Lemma sum_outlier_is_not_flagged :
  7000 + 1000 == 8000 /\ 0 + 1000 == 1000
  /\ Spec.tdomMask_at (nine_and_one 9 7000 1000 0 1000) (-1) 5000 2 9 (0, 0)%Z
     = Some 0%Z.
Proof.
  split; [reflexivity|]. split; [reflexivity|]. vm_compute. reflexivity.
Qed.

End Tdom.

(* ------------------------------------------------------------------------ *)
(** ** The geometric shadow projection *)
(* ------------------------------------------------------------------------ *)

Section Projection.
Import EE CloudAndShadowMaskC2 Examples.
Local Open Scope string_scope.

Lemma Rround_spec (x : R) (z : Z) :
  (IZR z - / 2 <= x < IZR z + / 2)%R -> Rround x = z.
Proof.
  intros [Hlo Hhi]. unfold Rround.
  assert ((z + 1)%Z = up (x + / 2)) as <-.
  { apply tech_up; rewrite plus_IZR; simpl; lra. }
  lia.
Qed.

(** Sun azimuth 180, elevation 45, 30 m pixels, a cloud at 1000 m. *)
Lemma shadowOffset_example : shadowOffset 180 45 30 1000 = (0, -33)%Z.
Proof.
  unfold shadowOffset.
  assert (zenR 45 = (PI / 4)%R) as -> by (unfold zenR; field).
  assert (azR 180 = (3 * (PI / 2))%R) as -> by (unfold azR; field).
  rewrite tan_PI4, cos_3PI2, sin_3PI2.
  f_equal; apply Rround_spec; simpl; lra.
Qed.

Lemma In_range (r x : Z) : (0 <= r)%Z -> (In x (range r) <-> (- r <= x <= r)%Z).
Proof.
  intro Hr. unfold range. rewrite in_map_iff. split.
  - intros [i [<- Hi]]. apply in_seq in Hi. lia.
  - intro Hx. exists (Z.to_nat (x + r)). split; [lia|]. apply in_seq. lia.
Qed.

Lemma In_kernel (r : Z) (d : Z * Z) :
  (0 <= r)%Z ->
  (In d (kernel r) <-> (fst d * fst d + snd d * snd d <= r * r)%Z).
Proof.
  intro Hr. unfold kernel. rewrite filter_In, Z.leb_le.
  destruct d as [dx dy]. rewrite in_prod_iff, !In_range by exact Hr.
  cbn [fst snd]. split; [tauto|]. intro H. split; [|exact H]. nia.
Qed.

Lemma neighbours_total {A : Type} (img : Raster A) (f : Z * Z -> A) (r : Z)
      (p : Z * Z) :
  (forall q, img q = Some (f q)) ->
  neighbours img r p = map (fun d => f (shift p d)) (kernel r).
Proof.
  intro H. unfold neighbours. induction (kernel r) as [|d rest IH]; simpl.
  - reflexivity.
  - now rewrite H, IH.
Qed.

Lemma fold_max_01 (c : Z) (l : list Z) :
  (c = 0 \/ c = 1)%Z -> Forall (fun x => x = 0 \/ x = 1)%Z l ->
  (fold_right Z.max c l = 0 \/ fold_right Z.max c l = 1)%Z
  /\ (fold_right Z.max c l = 1%Z <-> c = 1%Z \/ In 1%Z l).
Proof.
  intros Hc Hl. induction Hl as [|x rest Hx _ [IH1 IH2]]; simpl.
  - split; [exact Hc | tauto].
  - split; [lia|]. split.
    + intro H. destruct (Z.eq_dec x 1) as [->|Hx1]; [tauto|].
      assert (fold_right Z.max c rest = 1%Z) as H' by lia.
      apply IH2 in H'. tauto.
    + intros [H|[H|H]].
      * assert (fold_right Z.max c rest = 1%Z) as H' by (apply IH2; tauto). lia.
      * lia.
      * assert (fold_right Z.max c rest = 1%Z) as H' by (apply IH2; tauto). lia.
Qed.

(** The dilation of a band that is unmasked everywhere and reads 0 or 1. *)
Lemma focal_max_01 (g : Z * Z -> Z) (r : Z) (p : Z * Z) :
  (0 <= r)%Z -> (forall q, g q = 0 \/ g q = 1)%Z ->
  exists v,
    focal_max (fun q => Some (g q)) r p = Some v
    /\ (v = 0 \/ v = 1)%Z
    /\ (v = 1%Z <->
        exists d, (fst d * fst d + snd d * snd d <= r * r)%Z
                  /\ g (shift p d) = 1%Z).
Proof.
  intros Hr Hg. unfold focal_max.
  rewrite (neighbours_total _ g r p) by reflexivity.
  eexists. split; [reflexivity|].
  assert (Forall (fun x => x = 0 \/ x = 1)%Z
                 (map (fun d => g (shift p d)) (kernel r))) as HF.
  { apply Forall_map. apply Forall_forall. intros d _. apply Hg. }
  destruct (fold_max_01 (g p) _ (Hg p) HF) as [H01 H1].
  split; [exact H01|]. rewrite H1. split.
  - intros [Hc|Hin].
    + exists (0, 0)%Z. split; [cbn; lia|].
      replace (shift p (0, 0)%Z) with p; [exact Hc|].
      destruct p as [x y]. unfold shift. cbn [fst snd]. f_equal; lia.
    + apply in_map_iff in Hin. destruct Hin as [d [Hd Hk]].
      exists d. split; [now apply In_kernel | exact Hd].
  - intros [d [Hd Hv]]. right. apply in_map_iff. exists d.
    split; [exact Hv | now apply In_kernel].
Qed.

(** The union of the translated cloud masks. *)
Lemma union_01 (c : Z * Z -> Z) (offsets : list (Z * Z)) (q : Z * Z) :
  (forall x, c x = 0 \/ c x = 1)%Z ->
  exists v,
    unmask (collection_max (map (translate (fun x => Some (c x))) offsets)) q
    = Some v
    /\ (v = 0 \/ v = 1)%Z
    /\ (v = 1%Z <->
        exists off, In off offsets
                    /\ c ((fst q - fst off)%Z, (snd q - snd off)%Z) = 1%Z).
Proof.
  intro Hc. unfold unmask, collection_max. eexists. split; [reflexivity|].
  match goal with
  | |- context [flat_map ?f ?l] =>
      assert (flat_map f l
              = map (fun off => c ((fst q - fst off)%Z, (snd q - snd off)%Z))
                    offsets) as ->
  end.
  { induction offsets as [|off rest IH]; simpl; [reflexivity|].
    now rewrite IH. }
  destruct offsets as [|off rest]; cbn [map].
  - split; [now left|]. split; [discriminate|].
    intros [off [[] _]].
  - set (l := map _ rest).
    assert (Forall (fun x => x = 0 \/ x = 1)%Z l) as HF.
    { apply Forall_map. apply Forall_forall. intros d _. apply Hc. }
    destruct (fold_max_01 _ l
                (Hc ((fst q - fst off)%Z, (snd q - snd off)%Z)) HF)
      as [H01 H1].
    split; [exact H01|]. rewrite H1. split.
    + intros [H|H].
      * exists off. split; [now left | exact H].
      * apply in_map_iff in H. destruct H as [o [Ho Hin]].
        exists o. split; [now right | exact Ho].
    + intros [o [[<-|Hin] Ho]]; [now left|].
      right. apply in_map_iff. now exists o.
Qed.

(** The rule of the projection: a pixel is a projected shadow exactly when
    some cloud pixel, moved by the offset of one of the heights, lies within
    dilatePixels of it, it passes the dark-pixel test, and it is neither a
    TDOM outlier nor a cloud. *)
Lemma projectShadow_rule (c t : Z * Z -> Z) (dark : Raster Z)
      (offsets : list (Z * Z)) (r : Z) (p : Z * Z) :
  (0 <= r)%Z -> (forall q, c q = 0 \/ c q = 1)%Z ->
  projectShadow (fun q => Some (c q)) (fun q => Some (t q)) dark offsets r p
  = Some 1%Z
  <-> (exists off d,
          In off offsets
          /\ (fst d * fst d + snd d * snd d <= r * r)%Z
          /\ c ((fst p + fst d - fst off)%Z, (snd p + snd d - snd off)%Z) = 1%Z)
      /\ (exists k, dark p = Some k /\ k <> 0%Z)
      /\ t p = 0%Z /\ c p = 0%Z.
Proof.
  intros Hr Hc. unfold projectShadow.
  set (g := fun q =>
              match collection_max
                      (map (translate (fun x => Some (c x))) offsets) q with
              | Some v => v
              | None => 0%Z
              end).
  assert (forall q, (g q = 0 \/ g q = 1)%Z) as Hg.
  { intro q. destruct (union_01 c offsets q Hc) as [v [Hv [H01 _]]].
    unfold unmask in Hv. injection Hv as Hv. unfold g. now rewrite Hv. }
  assert (forall q, g q = 1%Z <->
                    exists off, In off offsets
                                /\ c ((fst q - fst off)%Z, (snd q - snd off)%Z)
                                   = 1%Z) as Hg1.
  { intro q. destruct (union_01 c offsets q Hc) as [v [Hv [_ H1]]].
    unfold unmask in Hv. injection Hv as Hv. unfold g. now rewrite Hv. }
  change (unmask (collection_max (map (translate (fun x => Some (c x))) offsets)))
    with (fun q => Some (g q)).
  destruct (focal_max_01 g r p Hr Hg) as [v [Hv [H01 H1]]].
  unfold rmap2, rmap. rewrite Hv. cbn [lift1].
  assert (v = 1%Z <->
          exists off d,
            In off offsets
            /\ (fst d * fst d + snd d * snd d <= r * r)%Z
            /\ c ((fst p + fst d - fst off)%Z, (snd p + snd d - snd off)%Z)
               = 1%Z) as Hshadow.
  { rewrite H1. split.
    - intros [d [Hd Hgd]]. apply Hg1 in Hgd. destruct Hgd as [off [Hin Hoff]].
      exists off, d. repeat split; assumption.
    - intros [off [d [Hin [Hd Hoff]]]]. exists d. split; [exact Hd|].
      apply Hg1. exists off. split; assumption. }
  rewrite <- Hshadow.
  destruct (dark p) as [k|]; cbn [lift2].
  - unfold And, Not, b2z.
    destruct (Z.eqb_spec v 0), (Z.eqb_spec k 0), (Z.eqb_spec (t p) 0),
      (Z.eqb_spec (c p) 0); cbn; split;
      try discriminate; try (intros [? [[? [? ?]] [? ?]]]; congruence);
      try (intros [? [[? [? ?]] [? ?]]]; lia); intros _.
    repeat split; try assumption; [lia | eauto].
  - split; [discriminate|]. intros [_ [[k [Hk _]] _]]. discriminate.
Qed.

(** One cloud pixel at (50, 50), sun azimuth 180, elevation 45, one height
    of 1000 m, 30 m pixels: the projected shadow for any dilation. *)
Lemma single_cloud_shadow (optical : Raster Reflectance) (thresh : Q) (r : Z) :
  (0 <= r)%Z ->
  exists image' m,
    cloudProject (one_cloud_image optical) "cloudScoreMask" thresh [1000%R] r
    = Some image'
    /\ select image' "cloudShadowTdomMask" = Some m
    /\ forall p,
        m p = Some 1%Z
        <-> Spec.dark_at optical thresh p
            /\ Spec.within r p (50, 17)%Z
            /\ p <> (50, 50)%Z.
Proof.
  intro Hr. eexists. eexists.
  split; [reflexivity|]. split; [reflexivity|].
  intro p.
  cbn [map nominalScale one_cloud_image CloudAndShadowMaskC2.optical].
  rewrite shadowOffset_example.
  set (c := fun q : Z * Z =>
              if ((fst q =? 50) && (snd q =? 50))%Z then 1%Z else 0%Z).
  change single_cloud with (fun q => Some (c q)).
  change no_outlier with (fun q : Z * Z => Some ((fun _ => 0%Z) q)).
  assert (forall q, (c q = 0 \/ c q = 1)%Z) as Hc.
  { intro q. unfold c. destruct ((fst q =? 50) && (snd q =? 50))%Z; auto. }
  assert (forall q, c q = 1%Z <-> q = (50, 50)%Z) as Hc1.
  { intros [x y]. unfold c. cbn [fst snd].
    destruct (Z.eqb_spec x 50), (Z.eqb_spec y 50); cbn; split;
      try discriminate; try congruence. }
  rewrite (projectShadow_rule c (fun _ => 0%Z) _ _ r p Hr Hc).
  unfold Spec.dark_at, Spec.within, rmap. cbn [fst snd].
  destruct p as [x y]. cbn [fst snd]. split.
  - intros [[off [d [Hin [Hd Hv]]]] [[k [Hk Hk0]] [_ Hcp]]].
    destruct Hin as [<-|[]]. cbn [fst snd] in Hv. apply Hc1 in Hv.
    injection Hv as Hx Hy.
    split; [|split].
    + destruct (optical (x, y)) as [refl|]; [|discriminate].
      exists refl. split; [reflexivity|]. cbn [lift1] in Hk.
      injection Hk as <-. apply lt_true.
      destruct (lt (nir refl + swir1 refl + swir2 refl) thresh);
        [reflexivity | now elim Hk0].
    + replace (50 - x)%Z with (fst d) by lia.
      replace (17 - y)%Z with (snd d) by lia. exact Hd.
    + intro H. apply Hc1 in H. rewrite H in Hcp. discriminate.
  - intros [[refl [Hrefl Hdark]] [Hw Hne]].
    split; [|split; [|split]].
    + exists (0, -33)%Z, ((50 - x)%Z, (17 - y)%Z). cbn [fst snd].
      split; [now left|]. split; [exact Hw|]. apply Hc1. f_equal; lia.
    + rewrite Hrefl. cbn [lift1]. eexists. split; [reflexivity|].
      apply lt_true in Hdark. rewrite Hdark. discriminate.
    + reflexivity.
    + destruct (Hc (x, y)) as [H|H]; [exact H|]. apply Hc1 in H. contradiction.
Qed.

(** C4 (as amended).  For each candidate height cloudProject computes the
    whole-pixel offset from tan(zenith) x height and the cosine and sine of
    azimuth + 90 degrees, takes the union of the translated cloud masks,
    dilates it by dilatePixels, and keeps the pixels that pass the dark-pixel
    test and are neither cloud nor TDOM outliers.  For one cloud pixel at
    (50, 50), sun azimuth 180, elevation 45, height 1000 m and 30 m pixels the
    offset is (0, -33) and the shadow mask is set exactly at the dark pixels
    within dilatePixels of (50, 17), the cloud pixel excepted; with
    dilatePixels = 0 that is the pixel (50, 17) alone, if it is dark. *)
Theorem cloudProject_shadow :
  (forall az el scale h,
      shadowOffset az el scale h
      = (Rround (cos (az * PI / 180 + PI / 2)
                 * (tan (PI / 2 - el * PI / 180) * h) / scale),
         Rround (sin (az * PI / 180 + PI / 2)
                 * (tan (PI / 2 - el * PI / 180) * h) / scale)))
  /\ (forall (c t : Z * Z -> Z) (dark : Raster Z) (offsets : list (Z * Z))
             (r : Z) (p : Z * Z),
        (0 <= r)%Z -> (forall q, c q = 0 \/ c q = 1)%Z ->
        projectShadow (fun q => Some (c q)) (fun q => Some (t q)) dark offsets r p
        = Some 1%Z
        <-> (exists off d,
                In off offsets
                /\ (fst d * fst d + snd d * snd d <= r * r)%Z
                /\ c ((fst p + fst d - fst off)%Z, (snd p + snd d - snd off)%Z)
                   = 1%Z)
            /\ (exists k, dark p = Some k /\ k <> 0%Z)
            /\ t p = 0%Z /\ c p = 0%Z)
  /\ shadowOffset 180 45 30 1000 = (0, -33)%Z
  /\ (forall (optical : Raster Reflectance) (thresh : Q) (r : Z),
        (0 <= r)%Z ->
        exists image' m,
          cloudProject (one_cloud_image optical) "cloudScoreMask" thresh
                       [1000%R] r = Some image'
          /\ select image' "cloudShadowTdomMask" = Some m
          /\ (forall p,
                 m p = Some 1%Z
                 <-> Spec.dark_at optical thresh p
                     /\ Spec.within r p (50, 17)%Z
                     /\ p <> (50, 50)%Z)
          /\ (r = 0%Z ->
              forall p,
                m p = Some 1%Z
                <-> Spec.dark_at optical thresh p /\ p = (50, 17)%Z)).
Proof.
  split; [|split; [|split]].
  - intros az el scale h. unfold shadowOffset, azR, zenR.
    replace (5 / 10 * PI)%R with (PI / 2)%R by field. reflexivity.
  - exact projectShadow_rule.
  - exact shadowOffset_example.
  - intros optical thresh r Hr.
    destruct (single_cloud_shadow optical thresh r Hr) as [image' [m [H1 [H2 H3]]]].
    exists image', m.
    split; [exact H1|]. split; [exact H2|]. split; [exact H3|].
    intros -> p. split.
    + intro H. apply H3 in H. destruct H as [Hd [Hw _]].
      split; [exact Hd|].
      unfold Spec.within in Hw. destruct p as [x y].
      cbn [fst snd] in Hw. change (0 * 0)%Z with 0%Z in Hw.
      pose proof (Z.square_nonneg (50 - x)) as Hx.
      pose proof (Z.square_nonneg (17 - y)) as Hy.
      assert ((50 - x) * (50 - x) = 0)%Z as Hx0 by lia.
      assert ((17 - y) * (17 - y) = 0)%Z as Hy0 by lia.
      apply Z.mul_eq_0 in Hx0. apply Z.mul_eq_0 in Hy0.
      f_equal; lia.
    + intros [Hd ->]. apply H3.
      split; [exact Hd|]. split; [unfold Spec.within; cbn; lia | discriminate].
Qed.

Lemma cloudProject_shadow_witness :
  (0 <= 2)%Z
  /\ exists image' m,
      cloudProject (one_cloud_image dark_everywhere) "cloudScoreMask" 5000
                   [1000%R] 2 = Some image'
      /\ select image' "cloudShadowTdomMask" = Some m
      /\ (forall p,
             m p = Some 1%Z
             <-> Spec.dark_at dark_everywhere 5000 p
                 /\ Spec.within 2 p (50, 17)%Z
                 /\ p <> (50, 50)%Z).
Proof.
  split; [lia|].
  destruct (proj2 (proj2 (proj2 cloudProject_shadow)) dark_everywhere 5000 2%Z)
    as [image' [m [H1 [H2 [H3 _]]]]]; [lia|].
  exists image', m.
  split; [exact H1|]. split; [exact H2 | exact H3].
Defined.

(** C4, counterexample.  With the default dilatePixels = 2 and dark ground
    the shadow mask of that single cloud pixel is also set at (51, 17), next
    to the pixel shifted by the offset. *)
Lemma projected_shadow_is_dilated :
  exists image' m,
    cloudProject (one_cloud_image dark_everywhere) "cloudScoreMask" 5000
                 [1000%R] 2 = Some image'
    /\ select image' "cloudShadowTdomMask" = Some m
    /\ m (50, 17)%Z = Some 1%Z
    /\ m (51, 17)%Z = Some 1%Z
    /\ (51, 17)%Z <> (50, 17)%Z.
Proof.
  destruct (single_cloud_shadow dark_everywhere 5000 2%Z) as [image' [m [H1 [H2 H3]]]];
    [lia|].
  exists image', m.
  assert (forall p, Spec.dark_at dark_everywhere 5000 p) as Hdark.
  { intro p. eexists. split; [reflexivity|]. cbn. lra. }
  split; [exact H1|]. split; [exact H2|].
  split; [|split].
  - apply H3. split; [apply Hdark|]. split; [unfold Spec.within; cbn; lia|].
    discriminate.
  - apply H3. split; [apply Hdark|]. split; [unfold Spec.within; cbn; lia|].
    discriminate.
  - discriminate.
Qed.

End Projection.

(* ------------------------------------------------------------------------ *)
(** ** Unmixing of exact mixtures, the shade band and the ends of NDFI *)
(* ------------------------------------------------------------------------ *)

Section Mixtures.
Import EE SmaAndNdfi SmaAndNdfiSmall Statements Examples.

Lemma byte_comp (x y : Q) : x == y -> byte x = byte y.
Proof.
  intro H. unfold byte, Qtrunc.
  rewrite (Qleb_comp 0 0 (Qeq_refl 0) x y H).
  now rewrite (Qfloor_comp x y H), (Qceiling_comp x y H).
Qed.


(** The byte cast of a non-negative integer cuts it at 255. *)
Lemma byte_inject_Z (n : Z) : (0 <= n)%Z -> byte (inject_Z n) = Z.min 255 n.
Proof.
  intro Hn. unfold byte.
  rewrite Qtrunc_nonneg by (now apply inject_Z_nonneg).
  rewrite Qfloor_Z. lia.
Qed.






(** X3.  Whatever the pixel and the endmembers, the shade band closes the
    budget from below only: when gv + npv + soil is at most 100 the four
    bands add up to exactly 100; when it is above 100, shade is the excess
    (cut at 255), so the four add up to more than 100. *)
Theorem getFractions_shade_closes (image : Reflectance) (E : list (list Q))
        (f : Fractions) :
  getFractions image E = Some f ->
  ((gv f + npv f + soil f <= 100)%Z ->
   (gv f + npv f + soil f + shade f = 100)%Z)
  /\ ((100 < gv f + npv f + soil f)%Z ->
      shade f = Z.min 255 (gv f + npv f + soil f - 100)
      /\ (100 < gv f + npv f + soil f + shade f)%Z).
Proof.
  intro H.
  pose proof (getFractions_bytes image E f H) as (Hg & Hn & Hs & _ & _).
  unfold getFractions in H.
  destruct (unmix E (spectrum image)) as [[|x1 [|x2 [|x3 [|x4 [|x5 l]]]]]|];
    try discriminate.
  injection H as <-. cbn [gv npv soil shade] in *.
  rewrite byte_inject_Z by lia.
  split; intro Hsum; [lia|]. split; lia.
Qed.

Lemma getFractions_shade_closes_witness :
  getFractions dark_mixture ENDMEMBERS_landsat = Some (mkFractions 1 1 1 0 97)
  /\ (1 + 1 + 1 + 97 = 100)%Z.
Proof.
  assert (getFractions dark_mixture ENDMEMBERS_landsat
          = Some (mkFractions 1 1 1 0 97)) as H by (vm_compute; reflexivity).
  split; [exact H|].
  apply (proj1 (getFractions_shade_closes dark_mixture ENDMEMBERS_landsat
                  (mkFractions 1 1 1 0 97) H)).
  simpl. lia.
Defined.

(** X4.  The ends of the NDFI scale: a pixel whose only fraction is green
    vegetation reads 200, a pixel without green vegetation but with npv or
    soil reads 0, and a pixel with none of the three reads 100. *)
Theorem getNDFI_endpoints (g n s c sh : Z) :
  (0 < g)%Z -> (0 <= n)%Z -> (0 <= s)%Z -> (0 < n + s)%Z ->
  getNDFI (mkFractions g 0 0 c sh) = Some 200%Z
  /\ getNDFI (mkFractions 0 n s c sh) = Some 0%Z
  /\ getNDFI (mkFractions 0 0 0 c sh) = Some 100%Z.
Proof.
  intros Hg Hn Hs Hns.
  assert (~ inject_Z g == 0) as Hg0.
  { intro E. assert (0 < inject_Z g) as Hp.
    { change 0 with (inject_Z 0). now rewrite <- Zlt_Qlt. }
    rewrite E in Hp. exact (Qlt_irrefl _ Hp). }
  assert (0 < inject_Z (n + s)) as Hp.
  { change 0 with (inject_Z 0). now rewrite <- Zlt_Qlt. }
  split; [|split].
  - unfold getNDFI, gvs_of, summed_of, divide. cbn [gv npv soil].
    assert (inject_Z g / inject_Z (g + 0 + 0) * 100 == 100) as E.
    { replace (g + 0 + 0)%Z with g by lia. field. exact Hg0. }
    rewrite (byte_comp _ _ E). change (byte 100) with 100%Z.
    reflexivity.
  - unfold getNDFI, gvs_of, summed_of, divide. cbn [gv npv soil].
    assert (inject_Z 0 / inject_Z (0 + n + s) * 100 == 0) as E.
    { change (inject_Z 0) with 0. unfold Qdiv. ring. }
    rewrite (byte_comp _ _ E). change (byte 0) with 0%Z.
    rewrite normalizedDifference_nonneg; [|discriminate | lra].
    cbn [lift1]. f_equal. unfold rescale200.
    apply byte_negative.
    assert ((inject_Z 0 - inject_Z (n + s)) / (inject_Z 0 + inject_Z (n + s))
            == -1) as ->.
    { change (inject_Z 0) with 0. field. lra. }
    discriminate.
  - reflexivity.
Qed.

Lemma getNDFI_endpoints_witness :
  ((0 < 60)%Z /\ (0 <= 25)%Z /\ (0 <= 15)%Z /\ (0 < 25 + 15)%Z)
  /\ getNDFI (mkFractions 60 0 0 0 40) = Some 200%Z
  /\ getNDFI (mkFractions 0 25 15 0 60) = Some 0%Z
  /\ getNDFI (mkFractions 0 0 0 0 100) = Some 100%Z.
Proof.
  split; [lia|].
  pose proof (getNDFI_endpoints 60 25 15 0 40) as H1.
  pose proof (getNDFI_endpoints 60 25 15 0 60) as H2.
  pose proof (getNDFI_endpoints 60 25 15 0 100) as H3.
  split; [apply H1; lia|]. split; [apply H2; lia | apply H3; lia].
Defined.

End Mixtures.

(* ------------------------------------------------------------------------ *)
(** ** The cloud score at the ends of its range *)
(* ------------------------------------------------------------------------ *)

Section CloudScoreRange.
Import EE CloudAndShadowMaskC2 Examples.

(** The score of a pixel whose green and swir1 are not negative: the
    minimum of 1 and the four rescaled tests. *)
Lemma cloudScoreMask_px_value (image : Reflectance) :
  0 <= green image -> 0 <= swir1 image ->
  exists m,
    (forall t, cloudScoreMask_px image t = Some (b2z (t <=? byte (m * 100))%Z))
    /\ m <= 1
    /\ m <= rescale (blue image) 1000 3000
    /\ m <= rescale (red image + green image + blue image) 2000 8000
    /\ m <= rescale (nir image + swir1 image + swir2 image) 3000 8000
    /\ m <= rescale ((green image - swir1 image) / (green image + swir1 image))
                    (8 # 10) (6 # 10).
Proof.
  intros Hg Hs. unfold cloudScoreMask_px.
  rewrite (normalizedDifference_nonneg _ _ Hg Hs). cbn [lift1].
  eexists. split; [intro t; reflexivity|].
  repeat split.
  - do 3 (eapply Qle_trans; [apply Q.le_min_l|]). apply Q.le_min_l.
  - do 3 (eapply Qle_trans; [apply Q.le_min_l|]). apply Q.le_min_r.
  - do 2 (eapply Qle_trans; [apply Q.le_min_l|]). apply Q.le_min_r.
  - eapply Qle_trans; [apply Q.le_min_l|]. apply Q.le_min_r.
  - apply Q.le_min_r.
Qed.

Lemma byte_score (m : Q) : m <= 1 -> (0 <= byte (m * 100) <= 100)%Z.
Proof.
  intro Hm. split; [apply byte_range|].
  destruct (Qlt_le_dec 0 (m * 100)) as [Hpos|Hneg].
  - rewrite byte_floor by lra.
    assert (Qfloor (m * 100) <= Qfloor 100)%Z as H
        by (apply Qfloor_resp_le; lra).
    exact H.
  - rewrite (byte_negative _ Hneg). lia.
Qed.

(** X5.  The useful thresholds of cloudScoreMask are 1 to 100: where the
    mask is defined (green and swir1 not negative) a threshold of 0 or less
    flags the pixel whatever it shows, a threshold above 100 never flags
    it, and a pixel flagged at one threshold is flagged at every lower
    one. *)
Theorem cloudScoreMask_threshold_range (image : Reflectance) (t : Z) :
  0 <= green image -> 0 <= swir1 image ->
  ((t <= 0)%Z -> cloudScoreMask_px image t = Some 1%Z)
  /\ ((100 < t)%Z -> cloudScoreMask_px image t = Some 0%Z)
  /\ (forall t', (t' <= t)%Z ->
                 cloudScoreMask_px image t = Some 1%Z ->
                 cloudScoreMask_px image t' = Some 1%Z).
Proof.
  intros Hg Hs.
  destruct (cloudScoreMask_px_value image Hg Hs) as (m & Hall & Hm & _).
  pose proof (byte_score m Hm) as Hb.
  split; [|split].
  - intro Ht. rewrite Hall.
    destruct (Z.leb_spec t (byte (m * 100))); [reflexivity | lia].
  - intro Ht. rewrite Hall.
    destruct (Z.leb_spec t (byte (m * 100))); [lia | reflexivity].
  - intros t' Ht'. rewrite !Hall.
    destruct (Z.leb_spec t (byte (m * 100))); [|discriminate].
    destruct (Z.leb_spec t' (byte (m * 100))); [reflexivity | lia].
Qed.

Lemma cloudScoreMask_threshold_range_witness :
  (0 <= green bright_cloud /\ 0 <= swir1 bright_cloud)
  /\ cloudScoreMask_px bright_cloud 0 = Some 1%Z
  /\ cloudScoreMask_px bright_cloud 101 = Some 0%Z.
Proof.
  assert (0 <= green bright_cloud) as Hg by (vm_compute; discriminate).
  assert (0 <= swir1 bright_cloud) as Hs by (vm_compute; discriminate).
  split; [split; assumption|].
  split.
  - apply (proj1 (cloudScoreMask_threshold_range bright_cloud 0 Hg Hs)). lia.
  - apply (proj1 (proj2 (cloudScoreMask_threshold_range bright_cloud 101 Hg Hs))).
    lia.
Defined.

(** X6.  With a threshold of at least 1, cloudScoreMask never flags a
    pixel that fails one of the four tests outright: blue at most 1000, or
    the visible sum at most 2000, or the infrared sum at most 3000, or a
    snow-like NDSI of 0.8 or more. *)
Theorem cloudScoreMask_never_flags_dark (image : Reflectance) (t : Z) :
  (1 <= t)%Z ->
  blue image <= 1000
  \/ red image + green image + blue image <= 2000
  \/ nir image + swir1 image + swir2 image <= 3000
  \/ (8 # 10) <= (green image - swir1 image) / (green image + swir1 image) ->
  cloudScoreMask_px image t = Some 0%Z \/ cloudScoreMask_px image t = None.
Proof.
  intros Ht Hdark.
  destruct (Qlt_le_dec (green image) 0) as [Hg|Hg].
  { right. unfold cloudScoreMask_px, normalizedDifference.
    apply Qle_bool_false in Hg. now rewrite Hg. }
  destruct (Qlt_le_dec (swir1 image) 0) as [Hs|Hs].
  { right. unfold cloudScoreMask_px, normalizedDifference.
    apply Qle_bool_false in Hs. now rewrite Hs, orb_true_r. }
  left.
  destruct (cloudScoreMask_px_value image Hg Hs)
    as (m & Hm & H1 & Hb & Hvis & Hir & Hnd).
  rewrite Hm. f_equal.
  assert (m <= 0) as H0.
  { unfold rescale, divide in *.
    destruct Hdark as [H|[H|[H|H]]].
    - eapply Qle_trans; [exact Hb|].
      apply Qle_shift_div_r; [reflexivity | lra].
    - eapply Qle_trans; [exact Hvis|].
      apply Qle_shift_div_r; [reflexivity | lra].
    - eapply Qle_trans; [exact Hir|].
      apply Qle_shift_div_r; [reflexivity | lra].
    - eapply Qle_trans; [exact Hnd|].
      set (n := (green image - swir1 image) / (green image + swir1 image)) in *.
      assert ((n - (8 # 10)) / ((6 # 10) - (8 # 10)) == (n - (8 # 10)) * (-5))
        as -> by (field).
      lra. }
  rewrite byte_negative by lra.
  destruct (Z.leb_spec t 0); [lia | reflexivity].
Qed.

Lemma cloudScoreMask_never_flags_dark_witness :
  (1 <= 10)%Z /\ blue dark_mixture <= 1000
  /\ (cloudScoreMask_px dark_mixture 10 = Some 0%Z
      \/ cloudScoreMask_px dark_mixture 10 = None).
Proof.
  assert (blue dark_mixture <= 1000) as Hb by (vm_compute; discriminate).
  split; [lia|]. split; [exact Hb|].
  apply (cloudScoreMask_never_flags_dark dark_mixture 10);
    [lia | left; exact Hb].
Defined.

End CloudScoreRange.

(* ------------------------------------------------------------------------ *)
(** ** The QA flags and the success of getMasks *)
(* ------------------------------------------------------------------------ *)

Section Flags.
Import EE CloudAndShadowMaskC2 Statements Examples.
Local Open Scope string_scope.

Lemma land_pow2 (qa k : Z) :
  (0 <= k)%Z ->
  Z.land qa (2 ^ k) = if Z.testbit qa k then (2 ^ k)%Z else 0%Z.
Proof.
  intro Hk. apply Z.bits_inj'. intros n Hn.
  rewrite Z.land_spec, (Z.pow2_bits_eqb k n Hk).
  destruct (Z.eqb_spec k n) as [<-|Hkn].
  - destruct (Z.testbit qa k); simpl.
    + now rewrite Z.pow2_bits_true.
    + now rewrite Z.bits_0.
  - rewrite andb_false_r.
    destruct (Z.testbit qa k).
    + rewrite Z.pow2_bits_false; [reflexivity | exact Hkn].
    + now rewrite Z.bits_0.
Qed.

Lemma bit_flag (qa k : Z) :
  (0 <= k)%Z -> negb (Z.land qa (2 ^ k) =? 0)%Z = Z.testbit qa k.
Proof.
  intro Hk. rewrite (land_pow2 qa k Hk).
  destruct (Z.testbit qa k); [|reflexivity].
  assert (0 < 2 ^ k)%Z by (apply Z.pow_pos_nonneg; lia).
  destruct (Z.eqb_spec (2 ^ k) 0); [lia | reflexivity].
Qed.

Lemma select_addBands_absent (image : Image) (n : string) (band : Raster Z) :
  select image n = None -> select (addBands image n band) n = Some band.
Proof.
  unfold select, addBands. cbn [mask_bands]. rewrite lookup_app.
  intros ->. simpl. now rewrite String.eqb_refl.
Qed.

Lemma b2z_nonzero (x : bool) : b2z x <> 0%Z <-> x = true.
Proof. destruct x; simpl; split; congruence. Qed.

(** X7.  The flag bands read the bits of the QA band the products
    document: cloudFlagMask is set exactly where bit 3 is (bit 10 or bit 11
    of QA60 for a Sentinel-2 TOA image), cloudShadowFlagMask exactly where
    bit 4 is, and on a Sentinel-2 image cloudShadowFlagMask is never
    set. *)
Theorem qa_flag_bits (image : Image) (p : Z * Z) (qa : Z) :
  pixel_qa image p = Some qa ->
  select image "cloudFlagMask" = None ->
  select image "cloudShadowFlagMask" = None ->
  (exists cf v,
      select (cloudFlagMask image) "cloudFlagMask" = Some cf
      /\ cf p = Some v
      /\ (v <> 0%Z <->
          (if isToa image && isSentinel image
           then Z.testbit qa 10 || Z.testbit qa 11
           else Z.testbit qa 3) = true))
  /\ (exists csf,
         select (cloudShadowFlagMask image) "cloudShadowFlagMask" = Some csf
         /\ if isSentinel image
            then forall w, csf p = Some w -> w = 0%Z
            else exists w, csf p = Some w
                           /\ (w <> 0%Z <-> Z.testbit qa 4 = true)).
Proof.
  intros Hqa Hcf Hcsf. split.
  - unfold cloudFlagMask, cloudFlagMaskToa, cloudFlagMaskToaS2,
      cloudFlagMaskToaLX, cloudFlagMaskSr, rmap.
    destruct (isToa image), (isSentinel image); cbn [andb];
      (eexists; eexists;
       split; [apply select_addBands_absent; exact Hcf|]);
      cbv beta; rewrite Hqa; cbn [lift1]; (split; [reflexivity|]).
    + rewrite b2z_nonzero, !bit_flag by lia. reflexivity.
    + rewrite (land_pow2 qa 3) by lia.
      destruct (Z.testbit qa 3); split; intro H; try congruence.
      discriminate.
    + rewrite b2z_nonzero, bit_flag by lia. reflexivity.
    + rewrite b2z_nonzero, bit_flag by lia. reflexivity.
  - unfold cloudShadowFlagMask, cloudShadowFlagMaskToaLX,
      cloudShadowFlagMaskSrLX, rmap.
    destruct (isSentinel image).
    + eexists. split; [apply select_addBands_absent; exact Hcsf|].
      intros w Hw. cbv beta in Hw.
      destruct (optical image p) as [r|]; [|discriminate].
      destruct (Qeq_bool (blue r) 0); [discriminate|]. congruence.
    + destruct (isToa image);
        (eexists; split; [apply select_addBands_absent; exact Hcsf|]);
        cbv beta; rewrite Hqa; cbn [lift1];
        (eexists; split; [reflexivity|]);
        rewrite b2z_nonzero, bit_flag by lia; reflexivity.
Qed.

Lemma qa_flag_bits_witness :
  exists cf v,
    select (cloudFlagMask flagged) "cloudFlagMask" = Some cf
    /\ cf (0, 0)%Z = Some v /\ v <> 0%Z.
Proof.
  destruct (proj1 (qa_flag_bits flagged (0, 0)%Z 24 eq_refl eq_refl eq_refl))
    as (cf & v & Hs & Hv & Hbit).
  exists cf, v. split; [exact Hs|]. split; [exact Hv|].
  apply Hbit. reflexivity.
Defined.


Lemma mapM_not_None {A B : Type} (f : A -> option B) (l : list A) :
  mapM f l <> None <-> Forall (fun a => f a <> None) l.
Proof.
  induction l as [|a rest IH]; simpl.
  - split; [constructor | congruence].
  - destruct (f a) as [y|] eqn:E.
    + destruct (mapM f rest) as [ys|].
      * split; [|congruence]. intros _. constructor; [congruence|].
        apply IH. congruence.
      * split; [congruence|]. intro H. inversion H as [|? ? _ Hr]; subst.
        apply IH in Hr. congruence.
    + split; [congruence|]. intro H. inversion H. congruence.
Qed.


Lemma Forall_equiv {A : Type} (P Q : A -> Prop) (l : list A) :
  (forall a, P a <-> Q a) -> (Forall P l <-> Forall Q l).
Proof.
  intro H. rewrite !Forall_forall. split; intros HF a Ha; apply H; auto.
Qed.


End Flags.

(* ------------------------------------------------------------------------ *)
(** ** The neighbourhood filter of tdom and series without variation *)
(* ------------------------------------------------------------------------ *)

Section TdomFilter.
Import EE CloudAndShadowMaskC2 Statements Examples.
Local Open Scope string_scope.

Lemma darkOutliers_01 (collection : list Image) (z s : Q) (image : Image)
      (p : Z * Z) (v : Z) :
  darkOutliers collection z s image p = Some v -> (v = 0 \/ v = 1)%Z.
Proof.
  unfold darkOutliers.
  destruct (optical image p) as [r|]; [|discriminate].
  destruct (mean (values_at nir collection p)); [|discriminate].
  destruct (variance (values_at nir collection p)); [|discriminate].
  destruct (mean (values_at swir1 collection p)); [|discriminate].
  destruct (variance (values_at swir1 collection p)); [|discriminate].
  intro H. injection H as <-. unfold And, b2z.
  destruct (negb _ && negb _); auto.
Qed.

Lemma In_neighbours {A : Type} (img : Raster A) (r : Z) (p : Z * Z) (v : A) :
  In v (neighbours img r p)
  <-> exists d, In d (kernel r) /\ img (shift p d) = Some v.
Proof.
  unfold neighbours. rewrite in_flat_map. split.
  - intros [d [Hd Hv]]. exists d. split; [exact Hd|].
    destruct (img (shift p d)) as [x|]; [|contradiction].
    destruct Hv as [->|[]]. reflexivity.
  - intros [d [Hd Hv]]. exists d. split; [exact Hd|]. rewrite Hv. now left.
Qed.

Lemma fold_min_01 (c : Z) (l : list Z) :
  (c = 0 \/ c = 1)%Z -> Forall (fun x => x = 0 \/ x = 1)%Z l ->
  (fold_right Z.min c l = 0 \/ fold_right Z.min c l = 1)%Z
  /\ (fold_right Z.min c l = 1%Z <-> c = 1%Z /\ Forall (fun x => x = 1%Z) l).
Proof.
  intros Hc Hl. induction Hl as [|x rest Hx _ [IH1 IH2]]; simpl.
  - split; [exact Hc|]. split; [intro H; split; [exact H | constructor] | tauto].
  - split; [lia|]. split.
    + intro H. assert (x = 1 /\ fold_right Z.min c rest = 1)%Z as [Hx1 Hr] by lia.
      apply IH2 in Hr. destruct Hr as [Hc1 Hr]. split; [exact Hc1|].
      now constructor.
    + intros [Hc1 HF]. pose proof (Forall_inv HF) as Hx1.
      pose proof (Forall_inv_tail HF) as Hr. cbv beta in Hx1.
      assert (fold_right Z.min c rest = 1%Z) as H' by (apply IH2; tauto). lia.
Qed.

(** The mask of the [i]-th image that tdom returns. *)
Lemma tdomMask_at_eq (collection : list Image) (z s : Q) (d : Z) (i : nat)
      (image : Image) (p : Z * Z) :
  nth_error collection i = Some image ->
  select image "tdomMask" = None ->
  Spec.tdomMask_at collection z s d i p
  = focal_min (darkOutliers collection z s image) d p.
Proof.
  intros Hi Hsel. unfold Spec.tdomMask_at, tdom.
  rewrite nth_error_map, Hi. cbn [option_map].
  unfold _maskDarkOutliers, select, addBands. cbn [mask_bands].
  rewrite lookup_app. unfold select in Hsel. rewrite Hsel. simpl.
  reflexivity.
Qed.



Lemma count_cons (x : Q) (xs : list Q) : count (x :: xs) == count xs + 1.
Proof.
  unfold count. cbn [List.length]. rewrite Nat2Z.inj_succ. unfold Z.succ.
  rewrite inject_Z_plus. reflexivity.
Qed.

Lemma count_pos (x : Q) (xs : list Q) : 0 < count (x :: xs).
Proof.
  unfold count. change 0 with (inject_Z 0). rewrite <- Zlt_Qlt.
  cbn [List.length]. lia.
Qed.

Lemma sum_constant (c : Q) (xs : list Q) :
  Forall (fun x => x == c) xs -> sum xs == count xs * c.
Proof.
  induction 1 as [|x rest Hx _ IH].
  - unfold count. simpl. ring.
  - rewrite count_cons. cbn [sum fold_right]. fold (sum rest).
    rewrite IH, Hx. ring.
Qed.

Lemma sum_zero (xs : list Q) : Forall (fun x => x == 0) xs -> sum xs == 0.
Proof.
  induction 1 as [|x rest Hx _ IH]; [reflexivity|].
  cbn [sum fold_right]. fold (sum rest). rewrite IH, Hx. ring.
Qed.

(** A series that does not vary has no deviation. *)
Lemma variance_constant (c : Q) (xs : list Q) :
  xs <> [] -> Forall (fun x => x == c) xs ->
  exists m v, mean xs = Some m /\ variance xs = Some v /\ v == 0.
Proof.
  intros Hne Hc. unfold variance, mean.
  destruct xs as [|x rest]; [congruence|].
  eexists. eexists. split; [reflexivity|]. split; [reflexivity|].
  set (xs := x :: rest) in *.
  assert (sum xs / count xs == c) as Hm.
  { rewrite (sum_constant c xs Hc). field.
    pose proof (count_pos x rest). fold xs in H. lra. }
  assert (sum (map (fun y => (y - sum xs / count xs) * (y - sum xs / count xs))
                   xs) == 0) as ->.
  { apply sum_zero. apply Forall_map.
    rewrite Forall_forall in *. intros y Hy. cbv beta.
    rewrite Hm, (Hc y Hy). ring. }
  unfold Qdiv. ring.
Qed.

Lemma zScore_lt_no_deviation (v m var z : Q) :
  var == 0 -> z <= 0 -> zScore_lt v m var z = false.
Proof.
  intros Hv Hz. unfold zScore_lt.
  apply Qeq_bool_iff in Hv. rewrite Hv. now apply lt_false.
Qed.

Lemma values_at_In (band : Reflectance -> Q) (collection : list Image)
      (image : Image) (p : Z * Z) (r : Reflectance) :
  In image collection -> optical image p = Some r ->
  In (band r) (values_at band collection p).
Proof.
  intros Hin Hr. unfold values_at. apply in_flat_map.
  exists image. split; [exact Hin|]. rewrite Hr. now left.
Qed.

(** X10.  Where nir, or swir1, reads the same in every scene that shows
    the pixel (a collection of one scene, for instance), no scene is a
    temporal dark outlier at that pixel when zScoreThresh is 0 or less:
    the deviation is 0, the division by it gives a z-score of 0, and 0 is
    not below the threshold. *)
Theorem tdom_needs_variation (collection : list Image)
        (zScoreThresh shadowSumThresh : Q) (dilatePixels : Z)
        (i : nat) (image : Image) (p : Z * Z) (c : Q) :
  nth_error collection i = Some image ->
  select image "tdomMask" = None ->
  zScoreThresh <= 0 ->
  Forall (fun x => x == c) (values_at nir collection p)
  \/ Forall (fun x => x == c) (values_at swir1 collection p) ->
  Spec.tdomMask_at collection zScoreThresh shadowSumThresh dilatePixels i p
  = Some 0%Z
  \/ Spec.tdomMask_at collection zScoreThresh shadowSumThresh dilatePixels i p
     = None.
Proof.
  intros Hi Hsel Hz Hconst.
  rewrite (tdomMask_at_eq _ _ _ _ _ _ _ Hi Hsel).
  set (raw := darkOutliers collection zScoreThresh shadowSumThresh image).
  unfold focal_min.
  destruct (raw p) as [v|] eqn:Ev; [left | now right].
  assert (v = 0%Z) as ->.
  { unfold raw, darkOutliers in Ev.
    destruct (optical image p) as [r|] eqn:Er; [|discriminate].
    pose proof (nth_error_In _ _ Hi) as Hin.
    pose proof (values_at_In nir _ _ _ _ Hin Er) as Hn.
    pose proof (values_at_In swir1 _ _ _ _ Hin Er) as Hs.
    destruct Hconst as [Hc|Hc].
    - destruct (variance_constant c (values_at nir collection p))
        as (m & var & Hm & Hv & H0); [intro E; rewrite E in Hn; exact Hn | exact Hc |].
      rewrite Hm, Hv in Ev.
      destruct (mean (values_at swir1 collection p)); [|discriminate].
      destruct (variance (values_at swir1 collection p)); [|discriminate].
      injection Ev as <-.
      rewrite (zScore_lt_no_deviation _ _ _ _ H0 Hz).
      destruct (zScore_lt _ _ _ _); reflexivity.
    - destruct (variance_constant c (values_at swir1 collection p))
        as (m & var & Hm & Hv & H0); [intro E; rewrite E in Hs; exact Hs | exact Hc |].
      rewrite Hm, Hv in Ev.
      destruct (mean (values_at nir collection p)); [|discriminate].
      destruct (variance (values_at nir collection p)); [|discriminate].
      injection Ev as <-.
      rewrite (zScore_lt_no_deviation _ _ _ _ H0 Hz).
      destruct (zScore_lt _ _ _ _); reflexivity. }
  f_equal.
  assert (Forall (fun x => x = 0 \/ x = 1)%Z (neighbours raw dilatePixels p))
    as H01.
  { apply Forall_forall. intros x Hx. apply In_neighbours in Hx.
    destruct Hx as [d [_ Hx]]. exact (darkOutliers_01 _ _ _ _ _ _ Hx). }
  destruct (fold_min_01 0 _ (or_introl eq_refl) H01) as [[H|H] Hmin];
    [exact H|].
  apply Hmin in H. destruct H as [H _]. discriminate.
Qed.

Lemma tdom_needs_variation_witness :
  Spec.tdomMask_at [flat 500 500] (-1) 4000 4 0 (0, 0)%Z = Some 0%Z
  \/ Spec.tdomMask_at [flat 500 500] (-1) 4000 4 0 (0, 0)%Z = None.
Proof.
  apply (tdom_needs_variation [flat 500 500] (-1) 4000 4 0 (flat 500 500)
                              (0, 0)%Z 500);
    [reflexivity | reflexivity | discriminate |].
  left. repeat constructor.
Defined.

End TdomFilter.

(* ------------------------------------------------------------------------ *)
(** ** Shadow offsets without a displacement *)
(* ------------------------------------------------------------------------ *)

Section Overhead.
Import EE CloudAndShadowMaskC2.

(** X11.  With the sun at the zenith (elevation 90 degrees), or for a
    cloud height of 0, the shadow offset is (0, 0) whatever the azimuth and
    the pixel size: the projected cloud lies on the cloud itself. *)
Theorem shadowOffset_overhead (azimuth elevation scale height : R) :
  shadowOffset azimuth 90 scale height = (0, 0)%Z
  /\ shadowOffset azimuth elevation scale 0 = (0, 0)%Z.
Proof.
  assert (Rround 0 = 0%Z) as H0 by (apply Rround_spec; simpl; lra).
  unfold shadowOffset. split.
  - assert (zenR 90 = 0%R) as -> by (unfold zenR; field).
    rewrite tan_0.
    replace (cos (azR azimuth) * (0 * height) / scale)%R with 0%R
      by (unfold Rdiv; ring).
    replace (sin (azR azimuth) * (0 * height) / scale)%R with 0%R
      by (unfold Rdiv; ring).
    now rewrite H0.
  - replace (cos (azR azimuth) * (tan (zenR elevation) * 0) / scale)%R with 0%R
      by (unfold Rdiv; ring).
    replace (sin (azR azimuth) * (tan (zenR elevation) * 0) / scale)%R with 0%R
      by (unfold Rdiv; ring).
    now rewrite H0.
Qed.

End Overhead.

(* ------------------------------------------------------------------------ *)
(** ** Canonical properties, scale factors and the order of the scenes *)
(* ------------------------------------------------------------------------ *)

Section Scenes.
Import EE Collection Statements.
Local Open Scope string_scope.

Variable format_date : option value -> option value.

Lemma get_set_same (props : Props) (n : string) (v : option value) :
  get (set props n v) n = v.
Proof.
  destruct v as [x|]; simpl.
  - now rewrite String.eqb_refl.
  - induction props as [|[k y] rest IH]; simpl; [reflexivity|].
    destruct (String.eqb k n) eqn:E; simpl; [exact IH|].
    now rewrite E.
Qed.

(** The canonical sun azimuth in terms of the candidates. *)
Lemma sun_azimuth_angle_value (image : Scene) :
  get (properties (setProperties format_date image)) "sun_azimuth_angle"
  = If (get (properties image) "SUN_AZIMUTH")
       (get (properties image) "SUN_AZIMUTH")
       (If (get (properties image) "SOLAR_AZIMUTH_ANGLE")
           (get (properties image) "SOLAR_AZIMUTH_ANGLE")
           (get (properties image) "MEAN_SOLAR_AZIMUTH_ANGLE")).
Proof.
  unfold setProperties, set_property. cbn [properties].
  rewrite !(get_set_other _ _ "sun_azimuth_angle") by reflexivity.
  apply get_set_same.
Qed.

(** X12.  A candidate that reads 0 counts as absent.  A scene whose
    SUN_AZIMUTH is a number other than 0 gets that number as
    sun_azimuth_angle; a scene whose SUN_AZIMUTH is 0 (the sun due north)
    and that has no other candidate gets a null sun_azimuth_angle, like a
    scene without the property. *)
Theorem setProperties_zero_azimuth (image : Scene) (q : Q) :
  get (properties image) "SUN_AZIMUTH" = Some (Num q) ->
  (~ q == 0 ->
   get (properties (setProperties format_date image)) "sun_azimuth_angle"
   = Some (Num q))
  /\ (q == 0 ->
      get (properties image) "SOLAR_AZIMUTH_ANGLE" = None ->
      get (properties image) "MEAN_SOLAR_AZIMUTH_ANGLE" = None ->
      get (properties (setProperties format_date image)) "sun_azimuth_angle"
      = None).
Proof.
  intro Hq. rewrite sun_azimuth_angle_value, Hq. unfold If, truthy. split.
  - intro Hn. destruct (Qeq_bool q 0) eqn:E; [|reflexivity].
    apply Qeq_bool_iff in E. contradiction.
  - intros H0 H1 H2. apply Qeq_bool_iff in H0. rewrite H0, H1, H2.
    reflexivity.
Qed.

Lemma prefix_cons (a : Ascii.ascii) (s1 s2 : string) :
  String.prefix (String a s1) s2 = true ->
  exists s2', s2 = String a s2' /\ String.prefix s1 s2' = true.
Proof.
  destruct s2 as [|c s2']; cbn [String.prefix]; [discriminate|].
  destruct (Ascii.ascii_dec a c) as [<-|]; [|discriminate].
  intro H. now exists s2'.
Qed.

Lemma SR_B_not_ST_B (name : string) : is_SR_B name = true -> is_ST_B name = false.
Proof.
  unfold is_SR_B, is_ST_B. intro H. apply andb_true_iff in H.
  destruct H as [H _].
  apply prefix_cons in H. destruct H as (s1 & -> & H).
  apply prefix_cons in H. destruct H as (s2 & -> & H).
  cbn [String.prefix].
  destruct (Ascii.ascii_dec _ _) as [_|]; [|reflexivity].
  destruct (Ascii.ascii_dec _ _) as [E|]; [discriminate E | reflexivity].
Qed.

(** X13.  applyScaleFactors, band by band: a band called SR_B and one more
    character goes from the digital number dn to 0.275 dn - 2000
    (reflectance x 10000), which lies strictly between 0 and 10000 for dn
    in the valid range 7273 to 43636; a band whose name starts with ST_B
    goes to 0.0341802 dn + 1490 (kelvin x 10); every other band (QA_PIXEL
    among them) keeps its value.  Band names, their order and the
    properties stay as they are. *)
Theorem applyScaleFactors_values (image : Scene) (name : string) (dn : Q) :
  In (name, dn) (bands image) ->
  properties (applyScaleFactors image) = properties image
  /\ map fst (bands (applyScaleFactors image)) = map fst (bands image)
  /\ exists v,
      In (name, v) (bands (applyScaleFactors image))
      /\ (is_SR_B name = true ->
          v == (275 # 1000) * dn - 2000
          /\ (7273 <= dn -> dn <= 43636 -> 0 < v /\ v < 10000))
      /\ (is_ST_B name = true -> v == (341802 # 10000000) * dn + 1490)
      /\ (is_SR_B name = false -> is_ST_B name = false -> v = dn).
Proof.
  intro Hin. split; [reflexivity|]. split.
  { unfold applyScaleFactors, map_bands. cbn [bands].
    rewrite !map_map. apply map_ext. intros [n x]. cbn [fst snd].
    destruct (is_SR_B n); cbn [fst snd]; destruct (is_ST_B n); reflexivity. }
  unfold applyScaleFactors, map_bands. cbn [bands]. rewrite map_map.
  exists (if is_SR_B name
          then (dn * (275 # 10000000) + - (2 # 10)) * 10000
          else if is_ST_B name
               then (dn * (341802 # 100000000) + 149) * 10
               else dn).
  split.
  { apply in_map_iff. exists (name, dn). split; [|exact Hin].
    cbn [fst snd]. destruct (is_SR_B name) eqn:Esr; cbn [fst snd].
    - rewrite (SR_B_not_ST_B name Esr). reflexivity.
    - destruct (is_ST_B name) eqn:Est; cbn [fst snd]; reflexivity. }
  split; [|split].
  - intros ->.
    assert ((dn * (275 # 10000000) + - (2 # 10)) * 10000
            == (275 # 1000) * dn - 2000) as E by ring.
    split; [exact E|]. intros Hlo Hhi. rewrite E. split; lra.
  - intro Hst. destruct (is_SR_B name) eqn:Esr.
    + rewrite (SR_B_not_ST_B name Esr) in Hst. discriminate.
    + rewrite Hst. ring.
  - intros -> ->. reflexivity.
Qed.

Lemma filter_map_comm {A B : Type} (f : A -> B) (p : B -> bool) (l : list A) :
  filter p (map f l) = map f (filter (fun x => p (f x)) l).
Proof.
  induction l as [|x rest IH]; simpl; [reflexivity|].
  destruct (p (f x)); simpl; now rewrite IH.
Qed.

Lemma subseq_filter {A : Type} (p : A -> bool) (l : list A) :
  Spec.subseq (filter p l) l.
Proof.
  induction l as [|x rest IH]; simpl; [constructor|].
  destruct (p x); now constructor.
Qed.

Lemma subseq_filter_of {A : Type} (p : A -> bool) (k l : list A) :
  Spec.subseq k l -> Spec.subseq (filter p k) l.
Proof.
  induction 1 as [|x l1 l2 _ IH|x l1 l2 _ IH]; simpl.
  - constructor.
  - now constructor.
  - destruct (p x); now constructor.
Qed.

Lemma inList_In (x : string) (l : list string) : inList x l = true <-> In x l.
Proof.
  induction l as [|y rest IH]; simpl; [split; [discriminate | tauto]|].
  rewrite orb_true_iff, IH, String.eqb_eq. split; intros [H|H]; auto.
Qed.

Lemma time_start_normalize ctype sf image :
  time_start (Spec.normalize format_date ctype sf image) = time_start image.
Proof.
  unfold Spec.normalize.
  destruct sf; [destruct (String.eqb ctype "TOA")|]; reflexivity.
Qed.

Lemma reflectance_normalize ctype sf image :
  get (properties (Spec.normalize format_date ctype sf image)) "reflectance"
  = Some (Str ctype).
Proof.
  unfold Spec.normalize.
  destruct sf; [destruct (String.eqb ctype "TOA")|];
    unfold applyScaleFactorsTOA, applyScaleFactors;
    rewrite ?properties_map_bands; unfold set_property; cbn [properties];
    apply get_set_same.
Qed.

(** X14.  getCollection returns scenes of the source in the order of the
    source, each one normalized (canonical properties, the reflectance tag,
    the scale factors), and nothing else.  Every scene returned was
    acquired at or after dateStart and strictly before the end date (the
    end date itself is excluded; it is today when dateEnd is not given),
    carries the collection type in its reflectance property, and is not on
    the blacklist. *)
Theorem getCollection_window_and_order source today ctype dateStart dateEnd
        cloudCover trashList geometry sf :
  let stop := match dateEnd with None => today | Some d => d end in
  let out := getCollection format_date source today ctype dateStart dateEnd
                           cloudCover trashList geometry sf in
  (exists kept,
      Spec.subseq kept source
      /\ out = map (Spec.normalize format_date ctype sf) kept)
  /\ (forall image',
        In image' out ->
        (dateStart <= time_start image' < stop)%Z
        /\ get (properties image') "reflectance" = Some (Str ctype)
        /\ match trashList with
           | Some trash => ~ In (system_index image') trash
           | None => True
           end).
Proof.
  intros stop out. split.
  - unfold out, getCollection. fold stop.
    set (N := Spec.normalize format_date ctype sf).
    assert ((if sf
             then if String.eqb ctype "TOA"
                  then map applyScaleFactorsTOA
                           (map (fun image =>
                                   set_property image "reflectance"
                                                (Some (Str ctype)))
                                (map (setProperties format_date)
                                     (filter (in_dates dateStart stop) source)))
                  else map applyScaleFactors
                           (map (fun image =>
                                   set_property image "reflectance"
                                                (Some (Str ctype)))
                                (map (setProperties format_date)
                                     (filter (in_dates dateStart stop) source)))
             else map (fun image =>
                         set_property image "reflectance" (Some (Str ctype)))
                      (map (setProperties format_date)
                           (filter (in_dates dateStart stop) source)))
            = map N (filter (in_dates dateStart stop) source)) as ->.
    { unfold N, Spec.normalize.
      destruct sf; [destruct (String.eqb ctype "TOA")|];
        rewrite !map_map; reflexivity. }
    destruct geometry as [g|], trashList as [trash|];
      rewrite !filter_map_comm; eexists;
      (split; [|reflexivity]);
      repeat first [apply subseq_filter | apply subseq_filter_of].
  - intros image' Hin. apply getCollection_In in Hin.
    destruct Hin as (image & _ & -> & Hd & _ & Ht & _).
    rewrite time_start_normalize, reflectance_normalize.
    unfold in_dates in Hd. apply andb_true_iff in Hd.
    destruct Hd as [H1 H2]. apply Z.leb_le in H1. apply Z.ltb_lt in H2.
    fold stop in H2.
    split; [lia|]. split; [reflexivity|].
    destruct trashList as [trash|]; [|exact I].
    intro Hin. apply inList_In in Hin. congruence.
Qed.

End Scenes.

Section ScenesExamples.
Import EE Collection Statements Examples.
Local Open Scope string_scope.

Lemma setProperties_zero_azimuth_witness :
  get (properties north_sun) "SUN_AZIMUTH" = Some (Num 0)
  /\ get (properties (setProperties keep_date north_sun)) "sun_azimuth_angle"
     = None.
Proof.
  split; [reflexivity|].
  apply (proj2 (setProperties_zero_azimuth keep_date north_sun 0 eq_refl));
    reflexivity.
Defined.

Lemma applyScaleFactors_values_witness :
  In ("SR_B2", 8000) (bands north_sun)
  /\ exists v,
      In ("SR_B2", v) (bands (applyScaleFactors north_sun))
      /\ v == 200 /\ 0 < v /\ v < 10000.
Proof.
  assert (In ("SR_B2", 8000) (bands north_sun)) as Hin by (left; reflexivity).
  split; [exact Hin|].
  destruct (applyScaleFactors_values north_sun "SR_B2" 8000 Hin)
    as (_ & _ & v & Hv & Hsr & _).
  exists v. split; [exact Hv|].
  destruct (Hsr eq_refl) as [E Hrange].
  split; [rewrite E; reflexivity|].
  apply Hrange; discriminate.
Defined.

Lemma getCollection_window_and_order_witness :
  getCollection keep_date [overcast; no_azimuth] 1600000000000 "SR" 0 None
                100 None None true
  = [Spec.normalize keep_date "SR" true no_azimuth]
  /\ (0 <= time_start (Spec.normalize keep_date "SR" true no_azimuth)
       < 1600000000000)%Z.
Proof.
  assert (getCollection keep_date [overcast; no_azimuth] 1600000000000 "SR" 0
                        None 100 None None true
          = [Spec.normalize keep_date "SR" true no_azimuth]) as E
      by (vm_compute; reflexivity).
  split; [exact E|].
  apply (proj2 (getCollection_window_and_order keep_date
                  [overcast; no_azimuth] 1600000000000 "SR" 0 None 100
                  None None true)).
  rewrite E. left. reflexivity.
Defined.

End ScenesExamples.

(* ------------------------------------------------------------------------ *)
(** ** Minimum, maximum and amplitude of the composite *)
(* ------------------------------------------------------------------------ *)

Section Extremes.
Import EE Mosaic Examples.
Local Open Scope string_scope.

Variable percentile : Q -> list Q -> option Q.
Variable median : list Q -> option Q.
Variable stdDev : list Q -> option Q.

Lemma Qmin_cases (a b : Q) : Qmin a b = a \/ Qmin a b = b.
Proof.
  unfold Qmin, GenericMinMax.gmin. destruct (Qcompare a b); auto.
Qed.

Lemma Qmax_cases (a b : Q) : Qmax a b = a \/ Qmax a b = b.
Proof.
  unfold Qmax, GenericMinMax.gmax. destruct (Qcompare a b); auto.
Qed.

Lemma fold_Qmin_spec (x : Q) (rest : list Q) :
  In (fold_right Qmin x rest) (x :: rest)
  /\ forall y, In y (x :: rest) -> fold_right Qmin x rest <= y.
Proof.
  induction rest as [|z rest [IHin IHle]]; cbn [fold_right].
  - split; [now left|]. intros y [<-|[]]. apply Qle_refl.
  - split.
    + destruct (Qmin_cases z (fold_right Qmin x rest)) as [->| ->].
      * right. now left.
      * destruct IHin as [H|H]; [left; exact H | right; right; exact H].
    + intros y [<-|[<-|Hy]].
      * eapply Qle_trans; [apply Q.le_min_r|]. apply IHle. now left.
      * apply Q.le_min_l.
      * eapply Qle_trans; [apply Q.le_min_r|]. apply IHle. now right.
Qed.

Lemma fold_Qmax_spec (x : Q) (rest : list Q) :
  In (fold_right Qmax x rest) (x :: rest)
  /\ forall y, In y (x :: rest) -> y <= fold_right Qmax x rest.
Proof.
  induction rest as [|z rest [IHin IHle]]; cbn [fold_right].
  - split; [now left|]. intros y [<-|[]]. apply Qle_refl.
  - split.
    + destruct (Qmax_cases z (fold_right Qmax x rest)) as [->| ->].
      * right. now left.
      * destruct IHin as [H|H]; [left; exact H | right; right; exact H].
    + intros y [<-|[<-|Hy]].
      * eapply Qle_trans; [|apply Q.le_max_r]. apply IHle. now left.
      * apply Q.le_max_l.
      * eapply Qle_trans; [|apply Q.le_max_r]. apply IHle. now right.
Qed.

(** A band of a reduced collection, looked up by name. *)
Lemma band_reduce (reducer : list Q -> option Q) (collection : list Scene)
      (name : string) :
  In name (bandNames collection) ->
  band name (reduce reducer collection) = reducer (column name collection).
Proof.
  unfold reduce. induction (bandNames collection) as [|n rest IH];
    [contradiction|].
  intro Hin. cbn [map band].
  destruct (String.eqb_spec n name) as [->|Hn]; [reflexivity|].
  apply IH. destruct Hin as [H|H]; [contradiction | exact H].
Qed.

Lemma band_amp (collection : list Scene) (name : string) :
  In name (bandNames collection) ->
  band name
       (@map ((string * Px) * (string * Px)) (string * option Q)
          (fun mx_mn : (string * Px) * (string * Px) =>
             @pair string (option Q)
               (fst (fst mx_mn))
               (lift2 Qminus (snd (fst mx_mn)) (snd (snd mx_mn))))
          (combine (reduce rmax collection) (reduce rmin collection)))
  = lift2 Qminus (rmax (column name collection)) (rmin (column name collection)).
Proof.
  unfold reduce. induction (bandNames collection) as [|n rest IH];
    [contradiction|].
  intro Hin. cbn [map combine band fst snd].
  destruct (String.eqb_spec n name) as [->|Hn]; [reflexivity|].
  apply IH. destruct Hin as [H|H]; [contradiction | exact H].
Qed.

(** X15.  For every band of the collection, the _min and _max bands of
    the composite are values that some scene shows at the pixel, they
    bound the value of every scene there, and the _amp band is their
    difference, which is never negative.  Where no scene shows the pixel
    the three bands are masked. *)
Theorem getMosaic_min_max_amp
        (collection : list Scene) (percentileDry percentileWet : Q)
        (percentileBand : string) (dateStart dateEnd : Z) (name : string) :
  In name (bandNames collection) ->
  let mosaic := getMosaic percentile median stdDev collection percentileDry
                          percentileWet percentileBand dateStart dateEnd in
  match column name collection with
  | [] => band name (mosaicMin mosaic) = None
          /\ band name (mosaicMax mosaic) = None
          /\ band name (mosaicAmp mosaic) = None
  | xs => exists lo hi,
      band name (mosaicMin mosaic) = Some lo
      /\ band name (mosaicMax mosaic) = Some hi
      /\ band name (mosaicAmp mosaic) = Some (hi - lo)
      /\ In lo xs /\ In hi xs
      /\ (forall x, In x xs -> lo <= x /\ x <= hi)
      /\ 0 <= hi - lo
  end.
Proof.
  intros Hin mosaic. unfold mosaic, getMosaic. cbv zeta.
  cbn [mosaicMin mosaicMax mosaicAmp].
  rewrite (band_reduce rmin _ _ Hin), (band_reduce rmax _ _ Hin),
          (band_amp _ _ Hin).
  destruct (column name collection) as [|x rest]; [repeat split|].
  cbn [rmin rmax lift2].
  destruct (fold_Qmin_spec x rest) as [Hlo Hle].
  destruct (fold_Qmax_spec x rest) as [Hhi Hge].
  exists (fold_right Qmin x rest), (fold_right Qmax x rest).
  repeat split; auto.
  assert (fold_right Qmin x rest <= fold_right Qmax x rest) as H
      by (apply Hge; exact Hlo).
  lra.
Qed.

End Extremes.

Section ExtremesExamples.
Import EE Mosaic Examples.
Local Open Scope string_scope.

Lemma getMosaic_min_max_amp_witness :
  In "red" (bandNames (series 300 120 320 330 340))
  /\ exists lo hi,
      band "red" (mosaicMin (getMosaic sample_percentile sample_median
                                       no_stdDev (series 300 120 320 330 340)
                                       25 75 "ndvi" 0 6)) = Some lo
      /\ band "red" (mosaicMax (getMosaic sample_percentile sample_median
                                          no_stdDev (series 300 120 320 330 340)
                                          25 75 "ndvi" 0 6)) = Some hi
      /\ band "red" (mosaicAmp (getMosaic sample_percentile sample_median
                                          no_stdDev (series 300 120 320 330 340)
                                          25 75 "ndvi" 0 6)) = Some (hi - lo)
      /\ 0 <= hi - lo.
Proof.
  assert (In "red" (bandNames (series 300 120 320 330 340))) as Hin
      by (right; left; reflexivity).
  split; [exact Hin|].
  destruct (getMosaic_min_max_amp sample_percentile sample_median no_stdDev
              (series 300 120 320 330 340) 25 75 "ndvi" 0 6 "red" Hin)
    as (lo & hi & H1 & H2 & H3 & _ & _ & _ & H4).
  exists lo, hi. repeat split; assumption.
Defined.

End ExtremesExamples.

(* ------------------------------------------------------------------------ *)
(** ** Mosaics that exist already *)
(* ------------------------------------------------------------------------ *)

Section Rerun.
Import Driver.

Variable World : Type.
Variable listOutputs : Job -> World -> World * (exn + list string).
Variable buildAndExport : Job -> World -> World * option exn.
Variable version : string -> string.

Lemma try_body_attempt (j : Job) (w : World) (j' : Job) :
  In j' (attempts (snd (fst (try_body World listOutputs buildAndExport version
                                      j w)))) ->
  j' = j
  /\ exists w1 already,
      listOutputs j w = (w1, inr already)
      /\ Collection.inList (outputName version j) already = false.
Proof.
  unfold try_body.
  destruct (listOutputs j w) as [w1 [e|already]]; simpl; [tauto|].
  destruct (Collection.inList _ already) eqn:E; simpl; [tauto|].
  destruct (buildAndExport j w1) as [w2 r]; simpl.
  intros [<-|[]]. split; [reflexivity|]. now exists w1, already.
Qed.

Lemma try_body_listed (j : Job) (w w1 : World) (already : list string) :
  listOutputs j w = (w1, inr already) ->
  Collection.inList (outputName version j) already = true ->
  try_body World listOutputs buildAndExport version j w = (w1, [Queried j], None).
Proof.
  intros H1 H2. unfold try_body. now rewrite H1, H2.
Qed.

(** X16.  The loop builds and exports a tile only after the listing of
    the output collection succeeded and did not contain the tile's output
    name (BIOME-GRID-YEAR-SATELLITE-VERSION); when every listing contains
    the name of its tile, a run builds and exports nothing and ends
    without an exception: running the script again after a complete run
    submits no task. *)
Theorem main_loop_skips_existing (js : list Job) (w : World) :
  let '(_, ev, raised) :=
    main_loop World listOutputs buildAndExport version js w in
  (forall j, In j (attempts ev) ->
             In j js
             /\ exists w0 w1 already,
                 listOutputs j w0 = (w1, inr already)
                 /\ Collection.inList (outputName version j) already = false)
  /\ ((forall j w0, In j js ->
                    exists w1 already,
                      listOutputs j w0 = (w1, inr already)
                      /\ Collection.inList (outputName version j) already = true) ->
      ev = map Queried js /\ raised = None).
Proof.
  revert w. induction js as [|j rest IH]; intro w; cbn [main_loop].
  - split; [intros j []|]. intros _. split; reflexivity.
  - pose proof (try_body_attempt j w) as Hatt.
    assert (forall w1 already,
               listOutputs j w = (w1, inr already) ->
               Collection.inList (outputName version j) already = true ->
               try_body World listOutputs buildAndExport version j w
               = (w1, [Queried j], None)) as Hlisted
        by (intros w1' al H1 H2; exact (try_body_listed j w w1' al H1 H2)).
    destruct (try_body World listOutputs buildAndExport version j w)
      as [[w1 ev] r]. cbn [fst snd] in Hatt.
    assert (forall ev',
               (forall j0, In j0 (attempts ev') ->
                           In j0 rest
                           /\ exists w0 w2 already,
                               listOutputs j0 w0 = (w2, inr already)
                               /\ Collection.inList (outputName version j0)
                                                    already = false) ->
               forall extra,
                 attempts extra = [] ->
                 forall j0, In j0 (attempts (ev ++ extra ++ ev')) ->
                            In j0 (j :: rest)
                            /\ exists w0 w2 already,
                                listOutputs j0 w0 = (w2, inr already)
                                /\ Collection.inList (outputName version j0)
                                                     already = false) as Hstep.
    { intros ev' Hrest extra Hextra j0 Hj0.
      rewrite !attempts_app, Hextra in Hj0. cbn [app] in Hj0.
      apply in_app_or in Hj0. destruct Hj0 as [Hj0|Hj0].
      - destruct (Hatt j0 Hj0) as [-> (w2 & already & H1 & H2)].
        split; [now left|]. now exists w, w2, already.
      - destruct (Hrest j0 Hj0) as [Hin Hex]. split; [now right | exact Hex]. }
    specialize (IH w1).
    destruct (main_loop World listOutputs buildAndExport version rest w1)
      as [[w2 ev'] raised'].
    destruct IH as [IHa IHb].
    destruct r as [e|]; cbn [exn_eq_str].
    + split.
      * intros j0 Hj0.
        apply (Hstep ev' IHa [Printed e] eq_refl j0).
        cbn [app]. exact Hj0.
      * intro Hall.
        destruct (Hall j w (or_introl eq_refl)) as (w3 & already & H1 & H2).
        specialize (Hlisted w3 already H1 H2). discriminate.
    + split.
      * intros j0 Hj0.
        apply (Hstep ev' IHa [] eq_refl j0). exact Hj0.
      * intro Hall.
        destruct (Hall j w (or_introl eq_refl)) as (w3 & already & H1 & H2).
        specialize (Hlisted w3 already H1 H2). injection Hlisted as -> ->.
        destruct IHb as [-> ->].
        { intros j0 w0 Hin. apply Hall. now right. }
        split; reflexivity.
Qed.

End Rerun.

Section RerunExamples.
Import Driver Examples Statements.

Lemma main_loop_skips_existing_witness :
  main_loop unit full_sink band_missing version1 [tileA; tileB] tt
  = (tt, [Queried tileA; Queried tileB], None).
Proof.
  pose proof (main_loop_skips_existing unit full_sink band_missing version1
                                       [tileA; tileB] tt) as H.
  destruct (main_loop unit full_sink band_missing version1 [tileA; tileB] tt)
    as [[[] ev] raised].
  destruct H as [_ H].
  destruct H as [-> ->]; [|reflexivity].
  intros j w0 [<-|[<-|[]]]; exists tt; eexists; (split; [reflexivity|]);
    vm_compute; reflexivity.
Defined.

End RerunExamples.

(* ------------------------------------------------------------------------ *)
(** ** Spectral indices *)
(* ------------------------------------------------------------------------ *)

Section Indexes.
Import EE SpectralIndexes Statements.
Local Open Scope string_scope.

Lemma b_overwrite (image : Image) (n m : string) (v : Px) :
  b (addBands_overwrite image n v) m
  = if String.eqb n m then Some v else b image m.
Proof.
  induction image as [|[k x] rest IH]; cbn [addBands_overwrite b].
  - reflexivity.
  - destruct (String.eqb_spec k n) as [->|Hkn]; cbn [b].
    + destruct (String.eqb n m); reflexivity.
    + rewrite IH. destruct (String.eqb_spec k m) as [->|Hkm]; [|reflexivity].
      destruct (String.eqb_spec n m) as [->|]; [congruence | reflexivity].
Qed.

Lemma b_app (image : Image) (n m : string) (v : Px) :
  b (image ++ [(n, v)])%list m
  = match b image m with
    | Some x => Some x
    | None => if String.eqb n m then Some v else None
    end.
Proof.
  induction image as [|[k x] rest IH]; cbn [app b]; [reflexivity|].
  destruct (String.eqb k m); [reflexivity | exact IH].
Qed.

(** A band that is new to the image: addBands without overwrite. *)
Lemma b_addBands_new (image : Image) (n m : string) (v : Px) :
  b image n = None ->
  b (addBands image n v) m = if String.eqb n m then Some v else b image m.
Proof.
  intro Hn. unfold addBands, has. rewrite Hn, b_app.
  destruct (String.eqb_spec n m) as [<-|Hnm].
  - now rewrite Hn.
  - destruct (b image m); reflexivity.
Qed.

Lemma expression2_reads (image : Image) (n1 n2 : string) (f : Q -> Q -> Q)
      (x y : Q) :
  reads image n1 x -> reads image n2 y ->
  expression2 image n1 n2 f = Some (Some (f x y)).
Proof.
  unfold reads, expression2. intros -> ->. reflexivity.
Qed.

(** The value of an index that is a normalized difference plus 1. *)
Lemma shifted_difference_range (x y : Q) :
  0 <= x -> 0 <= y ->
  0 <= divide (x - y) (x + y) + 1 /\ divide (x - y) (x + y) + 1 <= 2.
Proof.
  intros Hx Hy. unfold divide.
  destruct (nd_range x y Hx Hy) as [Hlo Hhi]. split; lra.
Qed.

(** X17.  For a pixel whose six reflectance bands are unmasked and not
    negative, the six indices that are normalized differences (ndvi, ndbi,
    ui, ndwi, mndwi, pri) are computed without error and stored, shifted by
    1, as a value between 0 and 2.  (The expressions do not mask negative
    reflectances; the bound is for non-negative ones.) *)
Theorem normalized_indexes_range (image : Image)
        (blue green red nir swir1 swir2 : Q) :
  reads image "blue" blue -> reads image "green" green ->
  reads image "red" red -> reads image "nir" nir ->
  reads image "swir1" swir1 -> reads image "swir2" swir2 ->
  0 <= blue -> 0 <= green -> 0 <= red -> 0 <= nir -> 0 <= swir1 ->
  0 <= swir2 ->
  (exists out v, getNDVI image = Some out /\ reads out "ndvi" v
                 /\ v == (nir - red) / (nir + red) + 1 /\ 0 <= v <= 2)
  /\ (exists out v, getNDBI image = Some out /\ reads out "ndbi" v
                    /\ v == (swir1 - nir) / (swir1 + nir) + 1 /\ 0 <= v <= 2)
  /\ (exists out v, getUI image = Some out /\ reads out "ui" v
                    /\ v == (swir2 - nir) / (swir2 + nir) + 1 /\ 0 <= v <= 2)
  /\ (exists out v, getNDWI image = Some out /\ reads out "ndwi" v
                    /\ v == (nir - swir1) / (nir + swir1) + 1 /\ 0 <= v <= 2)
  /\ (exists out v, getMNDWI image = Some out /\ reads out "mndwi" v
                    /\ v == (green - swir1) / (green + swir1) + 1
                    /\ 0 <= v <= 2)
  /\ (exists out v, getPRI image = Some out /\ reads out "pri" v
                    /\ v == (blue - green) / (blue + green) + 1 /\ 0 <= v <= 2).
Proof.
  intros Hb Hg Hr Hn Hs1 Hs2 Pb Pg Pr Pn Ps1 Ps2.
  unfold getNDVI, getNDBI, getUI, getNDWI, getMNDWI, getPRI.
  repeat split.
  all: eexists; eexists.
  all: (split; [erewrite expression2_reads by eassumption; reflexivity|]).
  all: (split; [unfold reads; rewrite b_overwrite, String.eqb_refl;
                reflexivity|]).
  all: (split; [reflexivity|]).
  all: apply shifted_difference_range; assumption.
Qed.

Lemma normalized_indexes_range_witness :
  exists out v, getNDVI vegetated_pixel = Some out /\ reads out "ndvi" v
                /\ v == (3000 - 400) / (3000 + 400) + 1 /\ 0 <= v <= 2.
Proof.
  apply (proj1 (normalized_indexes_range vegetated_pixel 300 600 400 3000 1500
                  700 eq_refl eq_refl eq_refl eq_refl eq_refl eq_refl
                  ltac:(discriminate) ltac:(discriminate) ltac:(discriminate)
                  ltac:(discriminate) ltac:(discriminate)
                  ltac:(discriminate))).
Defined.

(** X18.  getBU needs the ndbi and ndvi bands: on an image without one of
    them it fails.  After getNDVI and getNDBI it succeeds, the two shifts by
    1 cancel, and for non-negative nir, red and swir1 the bu band reads the
    difference of the two unshifted indices, between -2 and 2. *)
Theorem getBU_after_ndvi_ndbi (image : Image) (red nir swir1 : Q) :
  (b image "ndbi" = None \/ b image "ndvi" = None -> getBU image = None)
  /\ (reads image "red" red -> reads image "nir" nir ->
      reads image "swir1" swir1 ->
      0 <= red -> 0 <= nir -> 0 <= swir1 ->
      exists i1 i2 out v,
        getNDVI image = Some i1 /\ getNDBI i1 = Some i2
        /\ getBU i2 = Some out /\ reads out "bu" v
        /\ v == (swir1 - nir) / (swir1 + nir) - (nir - red) / (nir + red)
        /\ -2 <= v <= 2).
Proof.
  split.
  - unfold getBU, expression2. intros [-> | ->]; [reflexivity|].
    destruct (b image "ndbi"); reflexivity.
  - intros Hr Hn Hs Pr Pn Ps. unfold reads in *.
    do 4 eexists.
    split; [unfold getNDVI, expression2; rewrite Hn, Hr; reflexivity|].
    split; [unfold getNDBI, expression2; rewrite !b_overwrite; cbn [String.eqb
              Ascii.eqb Bool.eqb]; rewrite Hs, Hn; reflexivity|].
    split; [unfold getBU, expression2; rewrite !b_overwrite; cbn [String.eqb
              Ascii.eqb Bool.eqb]; reflexivity|].
    split; [rewrite b_overwrite, String.eqb_refl; reflexivity|].
    cbn [lift1 lift2 add]. unfold divide.
    destruct (nd_range swir1 nir Ps Pn) as [H1 H2].
    destruct (nd_range nir red Pn Pr) as [H3 H4].
    split; [ring|]. split; lra.
Qed.

Lemma getBU_after_ndvi_ndbi_witness :
  getBU vegetated_pixel = None
  /\ exists i1 i2 out v,
      getNDVI vegetated_pixel = Some i1 /\ getNDBI i1 = Some i2
      /\ getBU i2 = Some out /\ reads out "bu" v /\ -2 <= v <= 2.
Proof.
  pose proof (getBU_after_ndvi_ndbi vegetated_pixel 400 3000 1500) as [H1 H2].
  split; [apply H1; left; reflexivity|].
  destruct H2 as (i1 & i2 & out & v & E1 & E2 & E3 & E4 & _ & E5);
    try reflexivity; try discriminate.
  exists i1, i2, out, v. repeat split; try assumption; apply E5.
Defined.

(** X19.  The indices added with overwrite=True can be computed again
    without changing the image: getNDVI applied to its own result returns
    that result. *)
Theorem getNDVI_idempotent (image out : Image) :
  getNDVI image = Some out -> getNDVI out = Some out.
Proof.
  unfold getNDVI, expression2.
  destruct (b image "nir") as [n|] eqn:En; [|discriminate].
  destruct (b image "red") as [r|] eqn:Er; [|discriminate].
  cbn [option_map]. intro H. injection H as <-.
  rewrite !b_overwrite. cbn [String.eqb Ascii.eqb Bool.eqb].
  rewrite En, Er. cbn [option_map]. f_equal.
  set (v := add 1 (lift2 _ n r)). clearbody v. clear En Er.
  induction image as [|[k x] rest IH]; cbn [addBands_overwrite].
  - now rewrite String.eqb_refl.
  - destruct (String.eqb k "ndvi") eqn:E; cbn [addBands_overwrite].
    + now rewrite String.eqb_refl.
    + rewrite E. now rewrite IH.
Qed.

Lemma getNDVI_idempotent_witness :
  exists out, getNDVI vegetated_pixel = Some out /\ getNDVI out = Some out.
Proof.
  eexists. split; [reflexivity|].
  apply (getNDVI_idempotent vegetated_pixel). reflexivity.
Defined.

End Indexes.

(* ------------------------------------------------------------------------ *)
(** ** The index chain of the driver *)
(* ------------------------------------------------------------------------ *)

Section IndexChain.
Import EE SpectralIndexes DriverBands Statements.
Local Open Scope string_scope.

Variable exp' : Q -> Q.

Ltac string_eqb := cbn [String.eqb Ascii.eqb Bool.eqb].

(** The bands of an image seen as a function of the band name: one step
    of the chain changes the function at one name. *)
Lemma overwrite_view (image : Image) (f : string -> option Px) (n : string)
      (v : Px) :
  (forall m, b image m = f m) ->
  forall m, b (addBands_overwrite image n v) m = upd f n v m.
Proof.
  intros Hf m. rewrite b_overwrite, Hf. reflexivity.
Qed.

Lemma addBands_view (image : Image) (f : string -> option Px) (n : string)
      (v : Px) :
  (forall m, b image m = f m) -> f n = None ->
  forall m, b (addBands image n v) m = upd f n v m.
Proof.
  intros Hf Hn m. rewrite b_addBands_new by (now rewrite Hf).
  rewrite Hf. reflexivity.
Qed.

Lemma index2_view (image : Image) (f : string -> option Px)
      (n1 n2 out : string) (h : Q -> Q -> Q) (g : Px -> Px) (x y : Px) :
  (forall m, b image m = f m) -> f n1 = Some x -> f n2 = Some y ->
  exists image',
    option_map (fun e => addBands_overwrite image out (g e))
               (expression2 image n1 n2 h) = Some image'
    /\ forall m, b image' m = upd f out (g (lift2 h x y)) m.
Proof.
  intros Hf H1 H2. unfold expression2. rewrite !Hf, H1, H2.
  eexists. split; [reflexivity|]. now apply overwrite_view.
Qed.

Lemma index2_add_view (image : Image) (f : string -> option Px)
      (n1 n2 out : string) (h : Q -> Q -> Q) (g : Px -> Px) (x y : Px) :
  (forall m, b image m = f m) -> f n1 = Some x -> f n2 = Some y ->
  f out = None ->
  exists image',
    option_map (fun e => addBands image out (g e))
               (expression2 image n1 n2 h) = Some image'
    /\ forall m, b image' m = upd f out (g (lift2 h x y)) m.
Proof.
  intros Hf H1 H2 Ho. unfold expression2. rewrite !Hf, H1, H2.
  eexists. split; [reflexivity|]. now apply addBands_view.
Qed.

Lemma index3_add_view (image : Image) (f : string -> option Px)
      (n1 n2 n3 out : string) (h : Q -> Q -> Q -> Q) (g : Px -> Px)
      (x y z : Px) :
  (forall m, b image m = f m) ->
  f n1 = Some x -> f n2 = Some y -> f n3 = Some z -> f out = None ->
  exists image',
    option_map (fun e => addBands image out (g e))
               (expression3 image n1 n2 n3 h) = Some image'
    /\ forall m,
        b image' m
        = upd f out (g match x, y, z with
                       | Some x, Some y, Some z => Some (h x y z)
                       | _, _, _ => None
                       end) m.
Proof.
  intros Hf H1 H2 H3 Ho. unfold expression3. rewrite !Hf, H1, H2, H3.
  eexists. split; [reflexivity|]. now apply addBands_view.
Qed.

Lemma select_view (image : Image) (f : string -> option Px)
      (names : list string) :
  (forall m, b image m = f m) ->
  select image names
  = CloudAndShadowMaskC2.mapM
      (fun name => option_map (fun v => (name, v)) (f name)) names.
Proof.
  intro Hf. unfold select. induction names as [|n rest IH]; [reflexivity|].
  cbn [CloudAndShadowMaskC2.mapM]. now rewrite Hf, IH.
Qed.

Lemma fold_overwrite_view (src : Image) (image : Image)
      (f : string -> option Px) :
  (forall m, b image m = f m) ->
  forall m,
    b (fold_left (fun img nv => addBands_overwrite img (fst nv) (snd nv))
                 src image) m
    = fold_left (fun g nv => upd g (fst nv) (snd nv)) src f m.
Proof.
  revert image f. induction src as [|[n v] rest IH]; intros image f Hf m.
  - apply Hf.
  - cbn [fold_left fst snd]. apply IH. now apply overwrite_view.
Qed.

Lemma spectralIndexes_bands (image : Image)
      (blue green red nir swir1 swir2 : Px) :
  b image "blue" = Some blue -> b image "green" = Some green ->
  b image "red" = Some red -> b image "nir" = Some nir ->
  b image "swir1" = Some swir1 -> b image "swir2" = Some swir2 ->
  b image "gcvi" = None -> b image "hallcover" = None ->
  b image "hallheigth" = None ->
  exists out,
    spectralIndexes exp' image = Some out
    /\ forall m,
        b out m
        = match b (indexed exp' blue green red nir swir1 swir2) m with
          | Some v => Some v
          | None => b image m
          end.
Proof.
  intros Hb Hg Hr Hn Hs1 Hs2 Hgcvi Hhc Hhh.
  unfold spectralIndexes.
  (* divideBy10000 *)
  assert (exists i0, divideBy10000 image = Some i0
                     /\ forall m, b i0 m
                        = upd (upd (upd (upd (upd (upd (b image)
                            "blue" (lift1 (fun x => divide x 10000) blue))
                            "red" (lift1 (fun x => divide x 10000) red))
                            "green" (lift1 (fun x => divide x 10000) green))
                            "nir" (lift1 (fun x => divide x 10000) nir))
                            "swir1" (lift1 (fun x => divide x 10000) swir1))
                            "swir2" (lift1 (fun x => divide x 10000) swir2) m)
    as (i0 & E0 & V0).
  { unfold divideBy10000, select. cbn [CloudAndShadowMaskC2.mapM].
    rewrite Hb, Hg, Hr, Hn, Hs1, Hs2. cbn [option_map].
    unfold addBands_names, select, divide_image.
    cbn [map fst snd CloudAndShadowMaskC2.mapM b]. string_eqb.
    cbn [option_map]. eexists. split; [reflexivity|].
    intro m. rewrite (fold_overwrite_view _ image (b image)) by reflexivity.
    reflexivity. }
  rewrite E0. cbn [andThen]. clear E0.
  (* getCAI *)
  destruct (index2_view i0 _ "swir2" "swir1" "cai"
              (fun swir2 swir1 => divide swir2 swir1) (add 1) _ _ V0
              eq_refl eq_refl) as (i1 & E1 & V1).
  change (getCAI i0 = Some i1) in E1. rewrite E1. cbn [andThen]. clear E1 V0.
  (* getEVI2 *)
  destruct (index2_view i1 _ "nir" "red" "evi2"
              (fun nir red =>
                 divide ((25 # 10) * (nir - red)) (nir + (24 # 10) * red + 1))
              (add 1) _ _ V1 eq_refl eq_refl) as (i2 & E2 & V2).
  change (getEVI2 i1 = Some i2) in E2. rewrite E2. cbn [andThen]. clear E2 V1.
  (* getGCVI *)
  destruct (index2_add_view i2 _ "nir" "green" "gcvi"
              (fun nir green => divide nir green - 1) (add 1) _ _ V2
              eq_refl eq_refl Hgcvi) as (i3 & E3 & V3).
  change (getGCVI i2 = Some i3) in E3. rewrite E3. cbn [andThen]. clear E3 V2.
  (* getHallCover *)
  destruct (index3_add_view i3 _ "red" "nir" "swir2" "hallcover"
              (fun red nir swir2 =>
                 (- red * (17 # 1000)) - (nir * (7 # 1000))
                 - (swir2 * (79 # 1000)) + (522 # 100))
              (lift1 exp') _ _ _ V3 eq_refl eq_refl eq_refl Hhc)
    as (i4 & E4 & V4).
  change (getHallCover exp' i3 = Some i4) in E4. rewrite E4. cbn [andThen].
  clear E4 V3.
  (* getHallHeigth *)
  destruct (index3_add_view i4 _ "red" "nir" "swir1" "hallheigth"
              (fun red nir swir1 =>
                 (- red * (39 # 1000)) - (nir * (11 # 1000))
                 - (swir1 * (26 # 1000)) + (413 # 100))
              (lift1 exp') _ _ _ V4 eq_refl eq_refl eq_refl Hhh)
    as (i5 & E5 & V5).
  change (getHallHeigth exp' i4 = Some i5) in E5. rewrite E5. cbn [andThen].
  clear E5 V4.
  (* getNDVI, getNDWI, getPRI, getSAVI *)
  destruct (index2_view i5 _ "nir" "red" "ndvi"
              (fun nir red => divide (nir - red) (nir + red)) (add 1) _ _ V5
              eq_refl eq_refl) as (i6 & E6 & V6).
  change (getNDVI i5 = Some i6) in E6. rewrite E6. cbn [andThen]. clear E6 V5.
  destruct (index2_view i6 _ "nir" "swir1" "ndwi"
              (fun nir swir1 => divide (nir - swir1) (nir + swir1)) (add 1)
              _ _ V6 eq_refl eq_refl) as (i7 & E7 & V7).
  change (getNDWI i6 = Some i7) in E7. rewrite E7. cbn [andThen]. clear E7 V6.
  destruct (index2_view i7 _ "blue" "green" "pri"
              (fun blue green => divide (blue - green) (blue + green)) (add 1)
              _ _ V7 eq_refl eq_refl) as (i8 & E8 & V8).
  change (getPRI i7 = Some i8) in E8. rewrite E8. cbn [andThen]. clear E8 V7.
  destruct (index2_view i8 _ "nir" "red" "savi"
              (fun nir red =>
                 divide ((15 # 10) * (nir - red)) ((5 # 10) + nir + red))
              (add 1) _ _ V8 eq_refl eq_refl) as (i9 & E9 & V9).
  change (getSAVI i8 = Some i9) in E9. rewrite E9. cbn [andThen]. clear E9 V8.
  (* multiplyBy10000 *)
  unfold multiplyBy10000.
  rewrite (select_view i9 _ _ V9).
  cbn [CloudAndShadowMaskC2.mapM]. cbv [upd]. string_eqb.
  rewrite Hb, Hg, Hr, Hn, Hs1, Hs2 || idtac.
  cbn [option_map].
  unfold addBands_names, select, multiply.
  cbn [map fst snd CloudAndShadowMaskC2.mapM b]. string_eqb.
  cbn [option_map]. eexists. split; [reflexivity|].
  intro m. rewrite (fold_overwrite_view _ i9 _ V9).
  cbn [fold_left fst snd]. unfold indexed. cbv [upd b].
  repeat match goal with
         | |- context [String.eqb ?n m] =>
             destruct (String.eqb_spec n m) as [<-|?];
             [string_eqb; reflexivity|]
         end.
  reflexivity.
Qed.

Lemma scaled_ratio (a d : Q) : divide (a / 10000) (d / 10000) == a / d.
Proof.
  unfold divide. destruct (Qeq_dec d 0) as [Hd|Hd].
  - assert (d / 10000 == 0) as E by (rewrite Hd; reflexivity).
    rewrite E, Hd. unfold Qdiv. change (/ 0) with 0. ring.
  - field. exact Hd.
Qed.

Lemma ratio_range (c a d : Q) :
  0 < d -> - d <= c * a -> c * a <= d ->
  0 <= 10000 * (c * a / d + 1) /\ 10000 * (c * a / d + 1) <= 20000.
Proof.
  intros Hd Hlo Hhi.
  assert (-1 <= c * a / d) as H1 by (apply Qle_shift_div_l; [exact Hd | lra]).
  assert (c * a / d <= 1) as H2 by (apply Qle_shift_div_r; [exact Hd | lra]).
  split; lra.
Qed.


Lemma stored_difference (x y : Q) :
  (divide (x / 10000 - y / 10000) (x / 10000 + y / 10000) + 1) * 10000
  == 10000 * ((x - y) / (x + y) + 1).
Proof.
  assert (x / 10000 - y / 10000 == (x - y) / 10000) as -> by field.
  assert (x / 10000 + y / 10000 == (x + y) / 10000) as -> by field.
  rewrite scaled_ratio. ring.
Qed.

Lemma stored_evi2 (nir red : Q) :
  (divide ((25 # 10) * (nir / 10000 - red / 10000))
          (nir / 10000 + (24 # 10) * (red / 10000) + 1) + 1) * 10000
  == 10000 * ((25 # 10) * (nir - red) / (nir + (24 # 10) * red + 10000) + 1).
Proof.
  assert ((25 # 10) * (nir / 10000 - red / 10000)
          == ((25 # 10) * (nir - red)) / 10000) as -> by field.
  assert (nir / 10000 + (24 # 10) * (red / 10000) + 1
          == (nir + (24 # 10) * red + 10000) / 10000) as -> by field.
  rewrite scaled_ratio. ring.
Qed.

Lemma stored_savi (nir red : Q) :
  (divide ((15 # 10) * (nir / 10000 - red / 10000))
          ((5 # 10) + nir / 10000 + red / 10000) + 1) * 10000
  == 10000 * ((15 # 10) * (nir - red) / (5000 + nir + red) + 1).
Proof.
  assert ((15 # 10) * (nir / 10000 - red / 10000)
          == ((15 # 10) * (nir - red)) / 10000) as -> by field.
  assert ((5 # 10) + nir / 10000 + red / 10000
          == (5000 + nir + red) / 10000) as -> by field.
  rewrite scaled_ratio. ring.
Qed.

(** X21.  What the chain stores in the index bands, in terms of the
    reflectances x 10000 of the input.  ndvi, ndwi, pri, cai and gcvi are
    ratios and do not see the division by 10000; in evi2 and savi the
    constants 1 and 0.5 of the formulas are reflectances, 10000 and 5000
    here.  Every index is stored x 10000 after its shift by 1, and gcvi
    (whose -1 and +1 cancel) is the plain ratio nir / green x 10000. *)
Theorem spectralIndexes_stored_indexes (image : Image)
        (blue green red nir swir1 swir2 : Q) :
  reads image "blue" blue -> reads image "green" green ->
  reads image "red" red -> reads image "nir" nir ->
  reads image "swir1" swir1 -> reads image "swir2" swir2 ->
  b image "gcvi" = None -> b image "hallcover" = None ->
  b image "hallheigth" = None ->
  exists out,
    spectralIndexes exp' image = Some out
    /\ (exists v, reads out "ndvi" v
                  /\ v == 10000 * ((nir - red) / (nir + red) + 1))
    /\ (exists v, reads out "ndwi" v
                  /\ v == 10000 * ((nir - swir1) / (nir + swir1) + 1))
    /\ (exists v, reads out "pri" v
                  /\ v == 10000 * ((blue - green) / (blue + green) + 1))
    /\ (exists v, reads out "cai" v /\ v == 10000 * (swir2 / swir1 + 1))
    /\ (exists v, reads out "gcvi" v /\ v == 10000 * (nir / green))
    /\ (exists v, reads out "evi2" v
                  /\ v == 10000 * ((25 # 10) * (nir - red)
                                   / (nir + (24 # 10) * red + 10000) + 1))
    /\ (exists v, reads out "savi" v
                  /\ v == 10000 * ((15 # 10) * (nir - red)
                                   / (5000 + nir + red) + 1)).
Proof.
  intros Hb Hg Hr Hn Hs1 Hs2 Hgcvi Hhc Hhh.
  destruct (spectralIndexes_bands image _ _ _ _ _ _ Hb Hg Hr Hn Hs1 Hs2
                                  Hgcvi Hhc Hhh) as (out & E & V).
  exists out. split; [exact E|].
  repeat split;
    (eexists; split;
     [unfold reads; rewrite V; cbv [indexed b]; string_eqb;
      cbn [lift1 lift2 add]; reflexivity|]).
  - apply stored_difference.
  - apply stored_difference.
  - apply stored_difference.
  - rewrite scaled_ratio. ring.
  - rewrite scaled_ratio. ring.
  - apply stored_evi2.
  - apply stored_savi.
Qed.

(** X22.  For reflectances between 0 and 1 (0 to 10000 as stored) the
    chain stores ndvi, ndwi, pri and savi between 0 and 20000 and evi2
    between 0 and 22500. *)
Theorem spectralIndexes_ranges (image : Image)
        (blue green red nir swir1 swir2 : Q) :
  reads image "blue" blue -> reads image "green" green ->
  reads image "red" red -> reads image "nir" nir ->
  reads image "swir1" swir1 -> reads image "swir2" swir2 ->
  b image "gcvi" = None -> b image "hallcover" = None ->
  b image "hallheigth" = None ->
  0 <= blue <= 10000 -> 0 <= green <= 10000 -> 0 <= red <= 10000 ->
  0 <= nir <= 10000 -> 0 <= swir1 <= 10000 ->
  exists out,
    spectralIndexes exp' image = Some out
    /\ (exists v, reads out "ndvi" v /\ 0 <= v <= 20000)
    /\ (exists v, reads out "ndwi" v /\ 0 <= v <= 20000)
    /\ (exists v, reads out "pri" v /\ 0 <= v <= 20000)
    /\ (exists v, reads out "savi" v /\ 0 <= v <= 20000)
    /\ (exists v, reads out "evi2" v /\ 0 <= v <= 22500).
Proof.
  intros Hb Hg Hr Hn Hs1 Hs2 Hgcvi Hhc Hhh Rb Rg Rr Rn Rs1.
  destruct (spectralIndexes_bands image _ _ _ _ _ _ Hb Hg Hr Hn Hs1 Hs2
                                  Hgcvi Hhc Hhh) as (out & E & V).
  exists out. split; [exact E|].
  assert (forall x y, 0 <= x -> 0 <= y ->
                      0 <= 10000 * ((x - y) / (x + y) + 1) <= 20000) as Hnd.
  { intros x y Hx Hy. destruct (nd_range x y Hx Hy). split; lra. }
  repeat split;
    (eexists; split;
     [unfold reads; rewrite V; cbv [indexed b]; string_eqb;
      cbn [lift1 lift2 add]; reflexivity|]).
  - rewrite stored_difference. apply Hnd; tauto.
  - rewrite stored_difference. apply Hnd; tauto.
  - rewrite stored_difference. apply Hnd; tauto.
  - rewrite stored_savi. apply ratio_range; lra.
  - rewrite stored_evi2.
    set (d := nir + (24 # 10) * red + 10000).
    assert (0 < d) as Hd by (unfold d; lra).
    assert (-1 <= (25 # 10) * (nir - red) / d) as H1
        by (apply Qle_shift_div_l; [exact Hd | unfold d; lra]).
    assert ((25 # 10) * (nir - red) / d <= (125 # 100)) as H2
        by (apply Qle_shift_div_r; [exact Hd | unfold d; lra]).
    split; lra.
Qed.

Lemma has_overwrite (image : Image) (n m : string) (v : Px) :
  b image m <> None -> b (addBands_overwrite image n v) m <> None.
Proof.
  intro H. rewrite b_overwrite. destruct (String.eqb n m); congruence.
Qed.

Lemma has_addBands (image : Image) (n m : string) (v : Px) :
  b image m <> None -> b (addBands image n v) m <> None.
Proof.
  intro H. unfold addBands. destruct (has image n); rewrite b_app;
    destruct (b image m); congruence.
Qed.

Lemma has_addBands_self (image : Image) (n : string) (v : Px) :
  b (addBands image n v) n <> None.
Proof.
  unfold addBands, has. destruct (b image n) as [x|] eqn:E; rewrite b_app, E.
  - congruence.
  - rewrite String.eqb_refl. congruence.
Qed.

(** One step of the chain keeps the bands it finds and adds its own. *)
Lemma step2_has (image : Image) (n1 n2 out : string) (h : Q -> Q -> Q)
      (g : Px -> Px) (names : list string) :
  Forall (fun n => b image n <> None) names -> In n1 names -> In n2 names ->
  exists image',
    option_map (fun e => addBands_overwrite image out (g e))
               (expression2 image n1 n2 h) = Some image'
    /\ Forall (fun n => b image' n <> None) (out :: names).
Proof.
  intros HF H1 H2. rewrite Forall_forall in HF.
  pose proof (HF _ H1) as P1. pose proof (HF _ H2) as P2.
  unfold expression2.
  destruct (b image n1) as [x|]; [|congruence].
  destruct (b image n2) as [y|]; [|congruence].
  eexists. split; [reflexivity|]. constructor.
  - rewrite b_overwrite, String.eqb_refl. congruence.
  - apply Forall_forall. intros n Hn. apply has_overwrite. now apply HF.
Qed.

Lemma step2_add_has (image : Image) (n1 n2 out : string) (h : Q -> Q -> Q)
      (g : Px -> Px) (names : list string) :
  Forall (fun n => b image n <> None) names -> In n1 names -> In n2 names ->
  exists image',
    option_map (fun e => addBands image out (g e))
               (expression2 image n1 n2 h) = Some image'
    /\ Forall (fun n => b image' n <> None) (out :: names).
Proof.
  intros HF H1 H2. rewrite Forall_forall in HF.
  pose proof (HF _ H1) as P1. pose proof (HF _ H2) as P2.
  unfold expression2.
  destruct (b image n1) as [x|]; [|congruence].
  destruct (b image n2) as [y|]; [|congruence].
  eexists. split; [reflexivity|]. constructor.
  - apply has_addBands_self.
  - apply Forall_forall. intros n Hn. apply has_addBands. now apply HF.
Qed.

Lemma step3_add_has (image : Image) (n1 n2 n3 out : string)
      (h : Q -> Q -> Q -> Q) (g : Px -> Px) (names : list string) :
  Forall (fun n => b image n <> None) names ->
  In n1 names -> In n2 names -> In n3 names ->
  exists image',
    option_map (fun e => addBands image out (g e))
               (expression3 image n1 n2 n3 h) = Some image'
    /\ Forall (fun n => b image' n <> None) (out :: names).
Proof.
  intros HF H1 H2 H3. rewrite Forall_forall in HF.
  pose proof (HF _ H1) as P1. pose proof (HF _ H2) as P2.
  pose proof (HF _ H3) as P3.
  unfold expression3.
  destruct (b image n1) as [x|]; [|congruence].
  destruct (b image n2) as [y|]; [|congruence].
  destruct (b image n3) as [z|]; [|congruence].
  eexists. split; [reflexivity|]. constructor.
  - apply has_addBands_self.
  - apply Forall_forall. intros n Hn. apply has_addBands. now apply HF.
Qed.

Lemma select_not_None (image : Image) (names : list string) :
  select image names <> None <-> Forall (fun n => b image n <> None) names.
Proof.
  unfold select.
  pose proof (mapM_not_None
                (fun name => option_map (fun v : Px => (name, v)) (b image name))
                names) as H.
  etransitivity; [exact H|].
  apply Forall_equiv. intro n.
  destruct (b image n); cbn [option_map]; split; congruence.
Qed.

Lemma scale_has (image : Image) (k : Image -> Image) (names keep : list string) :
  (forall src, map fst (k src) = map fst src) ->
  Forall (fun n => b image n <> None) names ->
  Forall (fun n => b image n <> None) keep ->
  exists image',
    match select image names with
    | Some selected => addBands_names image (k selected) names
    | None => None
    end = Some image'
    /\ Forall (fun n => b image' n <> None) keep.
Proof.
  intros Hk Hnames Hkeep.
  destruct (select image names) as [selected|] eqn:Es.
  2:{ apply select_not_None in Hnames. congruence. }
  assert (map fst selected = names) as Hfst.
  { clear Hnames. revert selected Es. unfold select.
    induction names as [|n rest IH]; intros selected Es;
      cbn [CloudAndShadowMaskC2.mapM] in Es.
    - injection Es as <-. reflexivity.
    - destruct (b image n) as [v|]; [|discriminate].
      cbn [option_map] in Es.
      destruct (CloudAndShadowMaskC2.mapM _ rest) as [tl|]; [|discriminate].
      injection Es as <-. cbn [map fst]. f_equal. now apply IH. }
  unfold addBands_names.
  assert (select (k selected) names <> None) as Hsel.
  { apply select_not_None. specialize (Hk selected). rewrite Hfst in Hk.
    clear - Hk. revert Hk. generalize (k selected) as src.
    intros src <-. apply Forall_forall. intros n Hn.
    induction src as [|[a v] rest IH]; [contradiction|].
    cbn [b map fst] in *. destruct (String.eqb_spec a n); [congruence|].
    apply IH. destruct Hn; [congruence | assumption]. }
  destruct (select (k selected) names) as [src|]; [|congruence].
  eexists. split; [reflexivity|].
  clear - Hkeep. revert image Hkeep.
  induction src as [|[n v] rest IH]; intros image Hkeep; [exact Hkeep|].
  cbn [fold_left fst snd]. apply IH.
  apply Forall_forall. intros m Hm. apply has_overwrite.
  rewrite Forall_forall in Hkeep. now apply Hkeep.
Qed.

(** X23.  The chain needs the six standardized reflectance bands and
    nothing else: it fails as a whole when one of blue, green, red, nir,
    swir1, swir2 is missing from the image, and runs to the end when the
    six are there, whatever other bands the image carries. *)
Theorem spectralIndexes_succeeds_iff (image : Image) :
  spectralIndexes exp' image <> None
  <-> Forall (fun n => b image n <> None)
             ["blue"; "red"; "green"; "nir"; "swir1"; "swir2"].
Proof.
  split.
  - unfold spectralIndexes, divideBy10000. intro H.
    apply select_not_None.
    destruct (select image _); [congruence|].
    exfalso. apply H. reflexivity.
  - intro H6. unfold spectralIndexes.
    destruct (scale_has image (fun src => divide_image src 10000)
                _ _ (fun src => eq_trans (map_map _ _ _) (map_ext _ _ (fun _ => eq_refl) _))
                H6 H6) as (i0 & E0 & F0).
    change (divideBy10000 image = Some i0) in E0. rewrite E0. cbn [andThen].
    destruct (step2_has i0 "swir2" "swir1" "cai" (fun swir2 swir1 => divide swir2 swir1)
                (add 1) _ F0) as (i1 & E1 & F1); [cbn [In]; tauto..|].
    change (getCAI i0 = Some i1) in E1. rewrite E1. cbn [andThen].
    destruct (step2_has i1 "nir" "red" "evi2"
                (fun nir red =>
                   divide ((25 # 10) * (nir - red)) (nir + (24 # 10) * red + 1))
                (add 1) _ F1) as (i2 & E2 & F2); [cbn [In]; tauto..|].
    change (getEVI2 i1 = Some i2) in E2. rewrite E2. cbn [andThen].
    destruct (step2_add_has i2 "nir" "green" "gcvi"
                (fun nir green => divide nir green - 1) (add 1) _ F2)
      as (i3 & E3 & F3); [cbn [In]; tauto..|].
    change (getGCVI i2 = Some i3) in E3. rewrite E3. cbn [andThen].
    destruct (step3_add_has i3 "red" "nir" "swir2" "hallcover"
                (fun red nir swir2 =>
                   (- red * (17 # 1000)) - (nir * (7 # 1000))
                   - (swir2 * (79 # 1000)) + (522 # 100))
                (lift1 exp') _ F3) as (i4 & E4 & F4); [cbn [In]; tauto..|].
    change (getHallCover exp' i3 = Some i4) in E4. rewrite E4. cbn [andThen].
    destruct (step3_add_has i4 "red" "nir" "swir1" "hallheigth"
                (fun red nir swir1 =>
                   (- red * (39 # 1000)) - (nir * (11 # 1000))
                   - (swir1 * (26 # 1000)) + (413 # 100))
                (lift1 exp') _ F4) as (i5 & E5 & F5); [cbn [In]; tauto..|].
    change (getHallHeigth exp' i4 = Some i5) in E5. rewrite E5. cbn [andThen].
    destruct (step2_has i5 "nir" "red" "ndvi"
                (fun nir red => divide (nir - red) (nir + red)) (add 1) _ F5)
      as (i6 & E6 & F6); [cbn [In]; tauto..|].
    change (getNDVI i5 = Some i6) in E6. rewrite E6. cbn [andThen].
    destruct (step2_has i6 "nir" "swir1" "ndwi"
                (fun nir swir1 => divide (nir - swir1) (nir + swir1)) (add 1)
                _ F6) as (i7 & E7 & F7); [cbn [In]; tauto..|].
    change (getNDWI i6 = Some i7) in E7. rewrite E7. cbn [andThen].
    destruct (step2_has i7 "blue" "green" "pri"
                (fun blue green => divide (blue - green) (blue + green))
                (add 1) _ F7) as (i8 & E8 & F8); [cbn [In]; tauto..|].
    change (getPRI i7 = Some i8) in E8. rewrite E8. cbn [andThen].
    destruct (step2_has i8 "nir" "red" "savi"
                (fun nir red =>
                   divide ((15 # 10) * (nir - red)) ((5 # 10) + nir + red))
                (add 1) _ F8) as (i9 & E9 & F9); [cbn [In]; tauto..|].
    change (getSAVI i8 = Some i9) in E9. rewrite E9. cbn [andThen].
    unfold multiplyBy10000.
    assert (Forall (fun n => b i9 n <> None)
                   ["blue"; "red"; "green"; "nir"; "swir1"; "swir2"; "cai";
                    "evi2"; "gcvi"; "hallcover"; "hallheigth"; "ndvi"; "ndwi";
                    "pri"; "savi"]) as F15.
    { rewrite Forall_forall in F9. apply Forall_forall. intros n Hn.
      apply F9. cbn [In] in *. tauto. }
    destruct (scale_has i9 (fun src => multiply src 10000) _ _
                (fun src => eq_trans (map_map _ _ _) (map_ext _ _ (fun _ => eq_refl) _))
                F15 F15) as (out & E & _).
    rewrite E. congruence.
Qed.

End IndexChain.

Section IndexChainExamples.
Import EE SpectralIndexes DriverBands Statements.
Local Open Scope string_scope.


Lemma spectralIndexes_stored_indexes_witness :
  exists out,
    spectralIndexes (fun x => x) vegetated_pixel = Some out
    /\ exists v, reads out "ndvi" v
                 /\ v == 10000 * ((3000 - 400) / (3000 + 400) + 1).
Proof.
  destruct (spectralIndexes_stored_indexes (fun x => x) vegetated_pixel
              300 600 400 3000 1500 700
              eq_refl eq_refl eq_refl eq_refl eq_refl eq_refl
              eq_refl eq_refl eq_refl)
    as (out & E & Hndvi & _).
  exists out. split; [exact E | exact Hndvi].
Defined.

Lemma spectralIndexes_ranges_witness :
  exists out,
    spectralIndexes (fun x => x) vegetated_pixel = Some out
    /\ (exists v, reads out "ndvi" v /\ 0 <= v <= 20000)
    /\ (exists v, reads out "evi2" v /\ 0 <= v <= 22500).
Proof.
  destruct (spectralIndexes_ranges (fun x => x) vegetated_pixel
              300 600 400 3000 1500 700
              eq_refl eq_refl eq_refl eq_refl eq_refl eq_refl
              eq_refl eq_refl eq_refl)
    as (out & E & Hndvi & _ & _ & _ & Hevi2);
    try (split; discriminate).
  exists out. split; [exact E|]. split; [exact Hndvi | exact Hevi2].
Defined.

End IndexChainExamples.

(* ------------------------------------------------------------------------ *)
(** ** The table of band names *)
(* ------------------------------------------------------------------------ *)

Section BandTable.
Import EE SpectralIndexes DriverBands BandNames Statements.
Local Open Scope string_scope.

Ltac string_eqb := cbn [String.eqb Ascii.eqb Bool.eqb].

Lemma lookup_In (key : string) (table : list (string * Names)) (v : Names) :
  lookup key table = Some v -> In v (map snd table).
Proof.
  induction table as [|[k x] rest IH]; cbn [lookup map snd]; [discriminate|].
  destruct (String.eqb k key).
  - intro H. injection H as <-. now left.
  - intro H. right. now apply IH.
Qed.

Lemma distinct_NoDup (names : list string) :
  distinct names = true -> NoDup names.
Proof.
  induction names as [|n rest IH]; cbn [distinct]; [constructor|].
  intro H. apply andb_true_iff in H. destruct H as [H1 H2].
  constructor; [|now apply IH].
  intro Hin. apply inList_In in Hin. rewrite Hin in H1. discriminate.
Qed.

Lemma BAND_NAMES_checked :
  Forall (fun e =>
            (List.length (bandNames e) =? List.length (newNames e))%nat
            && distinct (bandNames e) && distinct (newNames e)
            && forallb (fun n => Collection.inList n (newNames e))
                       ["blue"; "green"; "red"; "nir"; "swir1";
                        "swir2"; "pixel_qa"] = true)
         (map snd BAND_NAMES).
Proof. repeat constructor. Qed.

Lemma BAND_NAMES_lengths (key : string) (bands : Names) :
  getBandNames key = Some bands ->
  List.length (bandNames bands) = List.length (newNames bands)
  /\ distinct (bandNames bands) = true /\ distinct (newNames bands) = true
  /\ forallb (fun n => Collection.inList n (newNames bands))
             ["blue"; "green"; "red"; "nir"; "swir1"; "swir2"; "pixel_qa"]
     = true.
Proof.
  intro H. apply lookup_In in H.
  pose proof BAND_NAMES_checked as HF.
  rewrite Forall_forall in HF. specialize (HF bands H).
  rewrite !andb_true_iff in HF. destruct HF as [[[H1 H2] H3] H4].
  split; [now apply Nat.eqb_eq|]. now repeat split.
Qed.

(** X24.  Every entry of BAND_NAMES can be used with
    select(bandNames, newNames): the two lists are as long as each other,
    no source band and no new name occurs twice, and the new names include
    the six reflectance names and pixel_qa that the masking and index
    functions read. *)
Theorem BAND_NAMES_well_formed (key : string) (bands : Names) :
  getBandNames key = Some bands ->
  List.length (bandNames bands) = List.length (newNames bands)
  /\ NoDup (bandNames bands) /\ NoDup (newNames bands)
  /\ incl ["blue"; "green"; "red"; "nir"; "swir1"; "swir2"; "pixel_qa"]
          (newNames bands).
Proof.
  intro H. destruct (BAND_NAMES_lengths _ _ H) as (H1 & H2 & H3 & H4).
  split; [exact H1|].
  split; [now apply distinct_NoDup|]. split; [now apply distinct_NoDup|].
  rewrite forallb_forall in H4. intros n Hn. apply inList_In. now apply H4.
Qed.

Lemma BAND_NAMES_well_formed_witness :
  getBandNames "l8c2"
  = Some (mkNames ["SR_B2"; "SR_B3"; "SR_B4"; "SR_B5"; "SR_B6"; "SR_B7";
                   "QA_PIXEL"; "ST_B10"] LANDSAT_NEW_NAMES)
  /\ NoDup LANDSAT_NEW_NAMES.
Proof.
  split; [reflexivity|].
  apply (BAND_NAMES_well_formed "l8c2" _ eq_refl).
Defined.


Ltac renamed H :=
  unfold select_rename in H;
  cbn [List.length Nat.eqb combine CloudAndShadowMaskC2.mapM fst snd
       bandNames newNames LANDSAT_NEW_NAMES app] in H;
  repeat match type of H with
         | context [b ?image ?name] =>
             match name with
             | String _ _ =>
                 let E := fresh "E" in
                 destruct (b image name) eqn:E;
                 cbn [option_map] in H; [|discriminate H]
             end
         end;
  injection H as <-.



(** X26.  In the three urban entries the lists are paired by position, so
    after select(bandNames, newNames) the band swir1_dn holds the copy
    (suffix _1) of the band that is renamed nir, and nir_dn holds the copy
    of the band that is renamed swir1. *)
Theorem urban_dn_names (key : string) (bands : Names) (image out : Image) :
  In key ["l5_urban"; "l7_urban"; "l8_urban"] ->
  getBandNames key = Some bands ->
  select_rename image (bandNames bands) (newNames bands) = Some out ->
  exists nir swir1,
    b out "nir" = b image nir /\ b out "swir1" = b image swir1
    /\ b out "swir1_dn" = b image (nir ++ "_1")
    /\ b out "nir_dn" = b image (swir1 ++ "_1").
Proof.
  intros Hin Hb Hout. cbn [In] in Hin.
  destruct Hin as [<-|[<-|[<-|[]]]];
    vm_compute in Hb; injection Hb as <-; renamed Hout;
    [exists "B4", "B5" | exists "B4", "B5" | exists "B5", "B6"];
    cbn [String.append];
    repeat split;
    unfold b; cbn [find fst snd]; string_eqb; cbn [option_map];
    symmetry; eassumption.
Qed.

Lemma urban_dn_names_witness :
  exists nir swir1,
    b (map (fun n => (n, Some 0.1)) LANDSAT_NEW_NAMES
       ++ [("swir1_dn", Some 0.4); ("nir_dn", Some 0.5);
           ("tir_dn", Some 0.6)])%list "nir"
    = b (map (fun n => (n, Some 0.1))
             ["B1"; "B2"; "B3"; "B4"; "B5"; "B7"; "pixel_qa"; "B6"]
         ++ [("B4_1", Some 0.4); ("B5_1", Some 0.5); ("B6_1", Some 0.6)])%list
        nir
    /\ b (map (fun n => (n, Some 0.1)) LANDSAT_NEW_NAMES
          ++ [("swir1_dn", Some 0.4); ("nir_dn", Some 0.5);
              ("tir_dn", Some 0.6)])%list "swir1"
       = b (map (fun n => (n, Some 0.1))
                ["B1"; "B2"; "B3"; "B4"; "B5"; "B7"; "pixel_qa"; "B6"]
            ++ [("B4_1", Some 0.4); ("B5_1", Some 0.5);
                ("B6_1", Some 0.6)])%list swir1
    /\ b (map (fun n => (n, Some 0.1)) LANDSAT_NEW_NAMES
          ++ [("swir1_dn", Some 0.4); ("nir_dn", Some 0.5);
              ("tir_dn", Some 0.6)])%list "swir1_dn"
       = b (map (fun n => (n, Some 0.1))
                ["B1"; "B2"; "B3"; "B4"; "B5"; "B7"; "pixel_qa"; "B6"]
            ++ [("B4_1", Some 0.4); ("B5_1", Some 0.5);
                ("B6_1", Some 0.6)])%list (nir ++ "_1")
    /\ b (map (fun n => (n, Some 0.1)) LANDSAT_NEW_NAMES
          ++ [("swir1_dn", Some 0.4); ("nir_dn", Some 0.5);
              ("tir_dn", Some 0.6)])%list "nir_dn"
       = b (map (fun n => (n, Some 0.1))
                ["B1"; "B2"; "B3"; "B4"; "B5"; "B7"; "pixel_qa"; "B6"]
            ++ [("B4_1", Some 0.4); ("B5_1", Some 0.5);
                ("B6_1", Some 0.6)])%list (swir1 ++ "_1").
Proof.
  apply (urban_dn_names "l5_urban" _ _ _ (or_introl eq_refl) eq_refl).
  reflexivity.
Defined.

End BandTable.
